(** * Agent execution core: tool registry, agent loop, orchestrator, RPC endpoints

    A shallow embedding of the TypeScript sources
      - tools/registry.ts   (ToolRegistry)
      - llm/provider.ts     (extractText, extractToolUse)
      - agents/engine.ts    (runAgent)
      - agents/orchestrator.ts (orchestrate, quickRoute)
      - agents/sub-agents.ts   (SUB_AGENTS)
      - agents/context-manager.ts (executeFreshContext, spawn helpers)
      - mcp/server.ts       (DevWeaverMCPServer)
      - tools/mcp.ts        (StdioMCPClient)
    together with the properties the specification states about them. *)

From Stdlib Require Import ZArith Ascii Lia DecimalString.
From Stdlib Require String.
From stdpp Require Import base option list strings gmap.
Local Open Scope Z_scope.

(** ** The JavaScript runtime values the sources manipulate *)

Module JS.

(** JSON values.  A string is kept as its UTF-8 encoding, one [ascii] per byte.
    Numbers are integers that a double holds exactly and prints in plain digits
    (below 2^53 in magnitude): every number the modelled code inspects (request
    ids, error codes) is one; fractions and exponents are outside the model. *)
#[warnings="-register-all"]
Inductive Json : Type :=
| JNull
| JBool (b : bool)
| JNum (n : Z)
| JStr (s : string)
| JArr (items : list Json)
| JObj (fields : list (string * Json)).

(** [obj.key]; [None] is JavaScript's [undefined]. *)
Fixpoint assoc {A : Type} (key : string) (fields : list (string * A)) : option A :=
  match fields with
  | [] => None
  | (k, v) :: rest => if String.eqb k key then Some v else assoc key rest
  end.

Definition prop (key : string) (v : Json) : option Json :=
  match v with
  | JObj fields => assoc key fields
  | _ => None
  end.

(** [v === s] for a string [s]: strict equality, no coercion. *)
Definition isString (v : option Json) (s : string) : bool :=
  match v with
  | Some (JStr s') => String.eqb s' s
  | _ => false
  end.

(** The property names every plain object inherits from [Object.prototype]; a
    lookup of one of them on an object literal finds a value that is not
    [undefined]. *)
Definition inheritedKeys : list string :=
  ["constructor"; "__proto__"; "hasOwnProperty"; "isPrototypeOf"; "propertyIsEnumerable";
   "toLocaleString"; "toString"; "valueOf"; "__defineGetter__"; "__defineSetter__";
   "__lookupGetter__"; "__lookupSetter__"].

Definition inherited (key : string) : bool := existsb (String.eqb key) inheritedKeys.

(** Truthiness of a possibly-undefined value. *)
Definition truthy (v : option Json) : bool :=
  match v with
  | None | Some JNull | Some (JBool false) | Some (JNum 0) => false
  | Some (JStr s) => negb (String.eqb s "")
  | Some _ => true
  end.

(** *** Strings *)

Definition lower_ascii (c : ascii) : ascii :=
  let n := nat_of_ascii c in
  if andb (Nat.leb 65 n) (Nat.leb n 90) then ascii_of_nat (n + 32) else c.

(** What [s.toLowerCase()] is when every character of [s] is ASCII.  On other
    strings the method applies the Unicode case mapping of the runtime, which
    the code that calls it takes as a parameter here. *)
Fixpoint toLowerCaseASCII (s : string) : string :=
  match s with
  | EmptyString => EmptyString
  | String c rest => String (lower_ascii c) (toLowerCaseASCII rest)
  end.

Definition isASCII (s : string) : bool :=
  forallb (fun c => Nat.ltb (nat_of_ascii c) 128) (String.list_ascii_of_string s).

(** [s.includes(t)]. *)
Fixpoint includes (s t : string) : bool :=
  if String.prefix t s then true
  else match s with
       | EmptyString => false
       | String _ rest => includes rest t
       end.

(** [s.split(sep)] for a one-character separator: never empty. *)
Fixpoint split (sep : ascii) (s : string) : list string :=
  match s with
  | EmptyString => [EmptyString]
  | String c rest =>
      if Ascii.eqb c sep then EmptyString :: split sep rest
      else match split sep rest with
           | [] => [String c EmptyString]
           | piece :: pieces => String c piece :: pieces
           end
  end.

(** The white space and line terminators of ECMAScript, which [trim] strips, in
    UTF-8: the one-byte ones; U+00A0; and the three-byte ones U+1680,
    U+2000..U+200A, U+2028, U+2029, U+202F, U+205F, U+3000 and U+FEFF. *)
Definition is_space (c : ascii) : bool :=
  let n := nat_of_ascii c in
  orb (Nat.eqb n 32) (andb (Nat.leb 9 n) (Nat.leb n 13)).

Definition is_space2 (c1 c2 : ascii) : bool :=
  Nat.eqb (nat_of_ascii c1) 194 && Nat.eqb (nat_of_ascii c2) 160.

Definition is_space3 (c1 c2 c3 : ascii) : bool :=
  let a := nat_of_ascii c1 in
  let b := nat_of_ascii c2 in
  let c := nat_of_ascii c3 in
  (Nat.eqb a 225 && Nat.eqb b 154 && Nat.eqb c 128)
  || (Nat.eqb a 226 && Nat.eqb b 128
      && ((Nat.leb 128 c && Nat.leb c 138) || Nat.eqb c 168 || Nat.eqb c 169 || Nat.eqb c 175))
  || (Nat.eqb a 226 && Nat.eqb b 129 && Nat.eqb c 159)
  || (Nat.eqb a 227 && Nat.eqb b 128 && Nat.eqb c 128)
  || (Nat.eqb a 239 && Nat.eqb b 187 && Nat.eqb c 191).

(** Dropping the white space a list of bytes starts with; [flip] reads the
    multi-byte ones backwards, for a reversed string. *)
Fixpoint dropSpaces (flip : bool) (s : list ascii) : list ascii :=
  match s with
  | c1 :: rest1 =>
      if is_space c1 then dropSpaces flip rest1
      else match rest1 with
           | c2 :: rest2 =>
               if (if flip then is_space2 c2 c1 else is_space2 c1 c2) then dropSpaces flip rest2
               else match rest2 with
                    | c3 :: rest3 =>
                        if (if flip then is_space3 c3 c2 c1 else is_space3 c1 c2 c3)
                        then dropSpaces flip rest3
                        else s
                    | [] => s
                    end
           | [] => s
           end
  | [] => []
  end.

Definition trimStart (s : string) : string :=
  String.string_of_list_ascii (dropSpaces false (String.list_ascii_of_string s)).

Definition trimEnd (s : string) : string :=
  String.string_of_list_ascii
    (List.rev (dropSpaces true (List.rev (String.list_ascii_of_string s)))).

(** [s.trim()]. *)
Definition trim (s : string) : string := trimEnd (trimStart s).

(** [arr.join(sep)]. *)
Fixpoint join (sep : string) (parts : list string) : string :=
  match parts with
  | [] => ""
  | [p] => p
  | p :: rest => p +:+ sep +:+ join sep rest
  end.

(** Decimal rendering of an integer, as [String(n)] prints it. *)
Definition string_of_Z (n : Z) : string := NilZero.string_of_int (Z.to_int n).

(** *** JSON.stringify *)

Definition hex_digit (n : nat) : ascii :=
  if Nat.ltb n 10 then ascii_of_nat (48 + n) else ascii_of_nat (87 + n).

Definition dquote : string := String (ascii_of_nat 34) EmptyString.
Definition newline : string := String (ascii_of_nat 10) EmptyString.

Definition escape_char (c : ascii) : string :=
  let n := nat_of_ascii c in
  if Nat.eqb n 34 then "\" +:+ dquote
  else if Nat.eqb n 92 then "\\"
  else if Nat.eqb n 8 then "\b"
  else if Nat.eqb n 9 then "\t"
  else if Nat.eqb n 10 then "\n"
  else if Nat.eqb n 12 then "\f"
  else if Nat.eqb n 13 then "\r"
  else if Nat.ltb n 32 then
    "\u00" +:+ String (hex_digit (Nat.div n 16)) (String (hex_digit (Nat.modulo n 16)) "")
  else String c "".

Fixpoint escape (s : string) : string :=
  match s with
  | EmptyString => ""
  | String c rest => escape_char c +:+ escape rest
  end.

Definition quote (s : string) : string := dquote +:+ escape s +:+ dquote.

(** [JSON.stringify(v)]. *)
Fixpoint stringify (v : Json) : string :=
  match v with
  | JNull => "null"
  | JBool true => "true"
  | JBool false => "false"
  | JNum n => string_of_Z n
  | JStr s => quote s
  | JArr items => "[" +:+ join "," (List.map stringify items) +:+ "]"
  | JObj fields =>
      "{" +:+ join "," (List.map (fun kv => quote (fst kv) +:+ ":" +:+ stringify (snd kv)) fields)
          +:+ "}"
  end.

(** [JSON.stringify(v, null, 2)], at the current indentation [ind]. *)
Fixpoint stringifyIndented (ind : string) (v : Json) : string :=
  let inner := ind +:+ "  " in
  match v with
  | JArr [] => "[]"
  | JArr items =>
      "[" +:+ newline
          +:+ join ("," +:+ newline)
                  (List.map (fun item => inner +:+ stringifyIndented inner item) items)
          +:+ newline +:+ ind +:+ "]"
  | JObj [] => "{}"
  | JObj fields =>
      "{" +:+ newline
          +:+ join ("," +:+ newline)
                  (List.map (fun kv => inner +:+ quote (fst kv) +:+ ": "
                                         +:+ stringifyIndented inner (snd kv)) fields)
          +:+ newline +:+ ind +:+ "}"
  | scalar => stringify scalar
  end.

Definition stringifyPretty (v : Json) : string := stringifyIndented "" v.

(** [String(v)], which a template literal and a property key apply too;
    [None] is the TypeError "Cannot convert object to primitive value".  A plain
    object converts through [Object.prototype.toString], unless it has an own
    [toString] property: a value that came out of JSON is not callable, so the
    conversion goes on to [valueOf], which returns the object, and throws.  An
    array joins the conversions of its items, [null] counting as empty. *)
Fixpoint toString (v : Json) : option string :=
  match v with
  | JNull => Some "null"
  | JBool true => Some "true"
  | JBool false => Some "false"
  | JNum n => Some (string_of_Z n)
  | JStr s => Some s
  | JArr items =>
      option_map (join ",")
        ((fix each (items : list Json) : option (list string) :=
            match items with
            | [] => Some []
            | item :: rest =>
                match (match item with JNull => Some "" | _ => toString item end), each rest with
                | Some s, Some ss => Some (s :: ss)
                | _, _ => None
                end
            end) items)
  | JObj fields =>
      match assoc "toString" fields with
      | Some _ => None
      | None => Some "[object Object]"
      end
  end.

(** The same for a possibly-undefined value. *)
Definition String_ (v : option Json) : option string :=
  match v with
  | None => Some "undefined"
  | Some j => toString j
  end.

End JS.

(** ** types/index.ts *)

Inductive BlockType : Type := text_block | tool_use | tool_result.

Inductive Role : Type := user | assistant.

(** [interface ContentBlock]: one required tag, every other field optional. *)
Record ContentBlock : Type := mkBlock {
  block_type : BlockType;
  block_text : option string;
  block_id : option string;
  block_name : option string;
  block_input : option JS.Json;
  block_tool_use_id : option string;
  block_content : option JS.Json;
  block_is_error : option bool
}.

(** [interface ToolUseBlock extends ContentBlock]: what [extractToolUse] narrows to.
    The id is declared required but is not checked by the narrowing predicate. *)
Record ToolUseBlock : Type := mkToolUse {
  tu_id : option string;
  tu_name : string;
  tu_input : JS.Json
}.

(** [content: string | ContentBlock[]]; [NoContent] is a reply whose [content]
    property is absent, which [messages.push] stores as it is. *)
Inductive MessageContent : Type :=
| TextContent (s : string)
| BlockContent (blocks : list ContentBlock)
| NoContent.

Record Message : Type := mkMessage {
  role : Role;
  content : MessageContent
}.

Record ToolDefinition : Type := mkToolDefinition {
  name : string;
  description : string;
  input_schema : JS.Json
}.

Record LLMCallOptions : Type := mkLLMCallOptions {
  systemPrompt : string;
  messages : list Message;
  tools : option (list ToolDefinition)
}.

(** Of an [LLMResponse] the loops read [content] only. *)
Record LLMResponse : Type := mkLLMResponse {
  response_content : option (list ContentBlock)
}.

(** A handler is typed to take a [ToolInput] object, but its callers cast to that
    type whatever they hold, [undefined] ([None]) included. *)
Definition ToolInput : Type := option JS.Json.
Definition ToolOutput : Type := JS.Json.

(** [interface ToolCall] of the engine. *)
Record ToolCall : Type := mkToolCall {
  call_name : string;
  call_input : JS.Json
}.

Record RunAgentResult : Type := mkRunAgentResult {
  result : string;
  result_messages : list Message;
  toolCalls : list ToolCall
}.

(** ** Effects: exceptions, the outside world, and the log of what was called *)

(** A thrown value: an [Error] with its message, or some other value, given
    with the string that [String()] converts it to.  The oracle, the handlers
    and the sub-agents are taken to throw nothing else: a value that [String()]
    cannot convert is outside the model. *)
Inductive Thrown : Type :=
| ErrorObj (message : string)
| NonError (value : JS.Json) (text : string).

(** [err instanceof Error ? err.message : String(err)]. *)
Definition errorText (err : Thrown) : string :=
  match err with
  | ErrorObj message => message
  | NonError _ text => text
  end.

(** What [String()] and a template literal throw on a value they cannot convert. *)
Definition cannotConvert : Thrown := ErrorObj "Cannot convert object to primitive value".

Inductive Res (A : Type) : Type :=
| Ok (a : A)
| Throw (err : Thrown).
Arguments Ok {A} a.
Arguments Throw {A} err.

(** What a run did to its collaborators, in order: the oracle calls, the handler
    runs and, for the RPC server, what the server writes to standard output.
    The diagnostic lines that the engine, the orchestrator and the registry
    print through the logger are not recorded. *)
Inductive Event : Type :=
| EvOracle (opts : LLMCallOptions) (reply : Res LLMResponse)
| EvTool (tool : string) (input : ToolInput) (outcome : Res ToolOutput)
| EvStdout (chunk : string).

Definition is_oracle_call (e : Event) : bool :=
  match e with EvOracle _ _ => true | _ => false end.

Definition is_tool_call (e : Event) : bool :=
  match e with EvTool _ _ _ => true | _ => false end.

Definition stdoutOf (e : Event) : option string :=
  match e with EvStdout chunk => Some chunk | _ => None end.

Definition oracleCalls (log : list Event) : list Event := List.filter is_oracle_call log.
Definition toolRuns (log : list Event) : list Event := List.filter is_tool_call log.
Definition stdout (log : list Event) : list string := omap stdoutOf log.

Section Effects.
Context {W : Type}.

(** The state an asynchronous computation runs in: the world [W] outside the
    process (whatever the oracle and the tool handlers read and change) and the
    log of the calls made so far. *)
Record St : Type := mkSt {
  world : W;
  log : list Event
}.

(** An [async] function: from a state to a value or an exception, and a state. *)
Definition M (A : Type) : Type := St -> Res A * St.

Definition ret {A : Type} (a : A) : M A := fun st => (Ok a, st).

Definition throw {A : Type} (err : Thrown) : M A := fun st => (Throw err, st).

Definition bind {A B : Type} (m : M A) (k : A -> M B) : M B :=
  fun st =>
    match m st with
    | (Ok a, st') => k a st'
    | (Throw err, st') => (Throw err, st')
    end.

(** [try { body } catch (err) { handler }]. *)
Definition tryCatch {A : Type} (body : M A) (handler : Thrown -> M A) : M A :=
  fun st =>
    match body st with
    | (Ok a, st') => (Ok a, st')
    | (Throw err, st') => handler err st'
    end.

(** A tool handler and the oracle act on the world only; they cannot touch the log. *)
Definition Handler : Type := ToolInput -> W -> Res ToolOutput * W.
Definition Oracle : Type := LLMCallOptions -> W -> Res LLMResponse * W.

(** Awaiting a handler: run it and log the call. *)
Definition invoke (tool : string) (h : Handler) (input : ToolInput) : M ToolOutput :=
  fun st =>
    let (outcome, w') := h input (world st) in
    (outcome, {| world := w'; log := log st ++ [EvTool tool input outcome] |}).

(** [process.stdout.write(chunk)]. *)
Definition stdout_write (chunk : string) : M unit :=
  fun st => (Ok tt, {| world := world st; log := log st ++ [EvStdout chunk] |}).

(** [await callLLM(opts)] against the oracle [oracle]. *)
Definition callLLM (oracle : Oracle) (opts : LLMCallOptions) : M LLMResponse :=
  fun st =>
    let (reply, w') := oracle opts (world st) in
    (reply, {| world := w'; log := log st ++ [EvOracle opts reply] |}).

End Effects.

Arguments St W : clear implicits.
Arguments M W A : clear implicits.
Arguments Handler W : clear implicits.
Arguments Oracle W : clear implicits.

Declare Scope async_scope.
Delimit Scope async_scope with async.
(** [const x = await m; k]. *)
Notation "'await' x ':=' m 'in' k" := (bind m (fun x => k))
  (at level 10, x name, m at level 200, k at level 200, only parsing) : async_scope.
Local Open Scope async_scope.

(** ** tools/registry.ts *)

Module Registry.
Section Registry.
Context {W : Type}.

Record ToolEntry : Type := mkToolEntry {
  definition : ToolDefinition;
  handler : Handler W
}.

(** [interface Tool]: a definition and its handler in one object. *)
Record Tool : Type := mkTool {
  tool_name : string;
  tool_description : string;
  tool_input_schema : JS.Json;
  tool_execute : Handler W
}.

(** [Map<string, ToolEntry>]: a JavaScript Map iterates in insertion order, and
    setting a key that is present replaces its value where it stands. *)
Definition ToolRegistry : Type := list (string * ToolEntry).

Definition empty : ToolRegistry := [].

Fixpoint map_set (key : string) (entry : ToolEntry) (m : ToolRegistry) : ToolRegistry :=
  match m with
  | [] => [(key, entry)]
  | (k, e) :: rest =>
      if String.eqb k key then (key, entry) :: rest
      else (k, e) :: map_set key entry rest
  end.

Definition get (reg : ToolRegistry) (n : string) : option ToolEntry := JS.assoc n reg.

Definition has (reg : ToolRegistry) (n : string) : bool :=
  match get reg n with Some _ => true | None => false end.

Definition names (reg : ToolRegistry) : list string := List.map fst reg.

Definition register (reg : ToolRegistry) (d : ToolDefinition) (h : Handler W) : ToolRegistry :=
  map_set (name d) {| definition := d; handler := h |} reg.

Definition registerAll (reg : ToolRegistry) (entries : list Tool) : ToolRegistry :=
  List.fold_left
    (fun r tool =>
       register r
         {| name := tool_name tool;
            description := tool_description tool;
            input_schema := tool_input_schema tool |}
         (tool_execute tool))
    entries reg.

Definition definitions (reg : ToolRegistry) : list ToolDefinition :=
  List.map (fun t => definition (snd t)) reg.

(** [names.filter(n => tools.has(n)).map(n => tools.get(n)!.definition)]: the
    lookup cannot miss on a name that passed the filter. *)
Definition definitionsFor (reg : ToolRegistry) (ns : list string) : list ToolDefinition :=
  omap (fun n => option_map definition (get reg n)) (List.filter (has reg) ns).

(** Before the handler runs, [logger.tool(name, JSON.stringify(input).slice(0, 200))]
    is evaluated; [JSON.stringify(undefined)] is [undefined], which has no [slice]. *)
Definition execute (reg : ToolRegistry) (n : string) (input : ToolInput) : M W ToolOutput :=
  match get reg n with
  | None => throw (ErrorObj ("Unknown tool: " +:+ n))
  | Some entry =>
      match input with
      | None => throw (ErrorObj "Cannot read properties of undefined (reading 'slice')")
      | Some _ => invoke n (handler entry) input
      end
  end.

Definition getAll (reg : ToolRegistry) : list Tool :=
  List.map
    (fun t =>
       let entry := snd t in
       {| tool_name := name (definition entry);
          tool_description := description (definition entry);
          tool_input_schema := input_schema (definition entry);
          tool_execute := handler entry |})
    reg.

End Registry.
Arguments ToolEntry W : clear implicits.
Arguments Tool W : clear implicits.
Arguments ToolRegistry W : clear implicits.
End Registry.

(** ** llm/provider.ts *)

Definition textOf (b : ContentBlock) : option string :=
  match block_type b with
  | text_block => block_text b
  | _ => None
  end.

Definition extractText (response : LLMResponse) : string :=
  match response_content response with
  | None => ""
  | Some blocks => JS.join JS.newline (omap textOf blocks)
  end.

(** The narrowing predicate of [extractToolUse]:
    [b.type === 'tool_use' && typeof b.name === 'string' && 'input' in b]. *)
Definition asToolUse (b : ContentBlock) : option ToolUseBlock :=
  match block_type b, block_name b, block_input b with
  | tool_use, Some n, Some i => Some {| tu_id := block_id b; tu_name := n; tu_input := i |}
  | _, _, _ => None
  end.

Definition toolUsesOf (blocks : list ContentBlock) : list ToolUseBlock := omap asToolUse blocks.

Definition extractToolUse (response : LLMResponse) : list ToolUseBlock :=
  match response_content response with
  | None => []
  | Some blocks => toolUsesOf blocks
  end.

(** [{ role: 'assistant', content: response.content }]. *)
Definition assistantMessage (response : LLMResponse) : Message :=
  {| role := assistant;
     content := match response_content response with
                | Some blocks => BlockContent blocks
                | None => NoContent
                end |}.

(** [{ type: 'tool_result', tool_use_id: id, content: text }]. *)
Definition toolResultBlock (id : option string) (text : string) : ContentBlock :=
  {| block_type := tool_result;
     block_text := None;
     block_id := None;
     block_name := None;
     block_input := None;
     block_tool_use_id := id;
     block_content := Some (JS.JStr text);
     block_is_error := None |}.

(** ** agents/engine.ts *)

Module Engine.

Record RunAgentOptions : Type := mkRunAgentOptions {
  opt_name : string;
  opt_systemPrompt : string;
  opt_userMessage : string;
  opt_toolNames : option (list string);
  opt_maxIterations : option Z;
  opt_priorMessages : option (list Message)
}.

(** [typeof result === 'string' ? result : JSON.stringify(result)]. *)
Definition resultText (r : ToolOutput) : string :=
  match r with
  | JS.JStr s => s
  | other => JS.stringify other
  end.

(** [{ error: message }]. *)
Definition errorPayload (err : Thrown) : ToolOutput :=
  JS.JObj [("error", JS.JStr (errorText err))].

Section Engine.
Context {W : Type}.
Variable oracle : Oracle W.
Variable registry : Registry.ToolRegistry W.
(** [config.agent.maxIterations]. *)
Variable config_agent_maxIterations : Z.

(** The body of [for (const tu of toolUseBlocks)]: record the call, execute it
    with the exception caught, push the result block. *)
Definition runToolUse (tu : ToolUseBlock)
    (acc : list ToolCall * list ContentBlock) : M W (list ToolCall * list ContentBlock) :=
  let allToolCalls := fst acc ++ [{| call_name := tu_name tu; call_input := tu_input tu |}] in
  await r := tryCatch (Registry.execute registry (tu_name tu) (Some (tu_input tu)))
                      (fun err => ret (errorPayload err)) in
  ret (allToolCalls, snd acc ++ [toolResultBlock (tu_id tu) (resultText r)]).

Fixpoint runToolUses (toolUseBlocks : list ToolUseBlock)
    (acc : list ToolCall * list ContentBlock) : M W (list ToolCall * list ContentBlock) :=
  match toolUseBlocks with
  | [] => ret acc
  | tu :: rest =>
      await acc' := runToolUse tu acc in
      runToolUses rest acc'
  end.

(** [for (let i = 0; i < maxIterations; i++)], with [remaining] the number of
    iterations the counter still allows. *)
Fixpoint agentLoop (sys : string) (toolList : list ToolDefinition) (remaining : nat)
    (msgs : list Message) (allToolCalls : list ToolCall) (finalText : string)
    : M W RunAgentResult :=
  match remaining with
  | O => ret {| result := finalText; result_messages := msgs; toolCalls := allToolCalls |}
  | S remaining' =>
      await response :=
        callLLM oracle
          {| systemPrompt := sys;
             messages := msgs;
             tools := match toolList with [] => None | _ => Some toolList end |} in
      let text := extractText response in
      let finalText' := if String.eqb text "" then finalText else text in
      let toolUseBlocks := extractToolUse response in
      let msgs' := msgs ++ [assistantMessage response] in
      match toolUseBlocks with
      | [] => ret {| result := finalText'; result_messages := msgs'; toolCalls := allToolCalls |}
      | _ =>
          await acc := runToolUses toolUseBlocks (allToolCalls, []) in
          agentLoop sys toolList remaining'
            (msgs' ++ [{| role := user; content := BlockContent (snd acc) |}])
            (fst acc) finalText'
      end
  end.

Definition runAgent (opts : RunAgentOptions) : M W RunAgentResult :=
  let maxIterations := default config_agent_maxIterations (opt_maxIterations opts) in
  let priorMessages := default [] (opt_priorMessages opts) in
  let toolList :=
    match opt_toolNames opts with
    | Some toolNames => Registry.definitionsFor registry toolNames
    | None => Registry.definitions registry
    end in
  let msgs := priorMessages ++ [{| role := user; content := TextContent (opt_userMessage opts) |}] in
  agentLoop (opt_systemPrompt opts) toolList (Z.to_nat maxIterations) msgs [] "".

End Engine.
End Engine.

(** ** agents/sub-agents.ts and agents/orchestrator.ts *)

Module Orchestrator.

Record Delegation : Type := mkDelegation {
  agent : option JS.Json;
  delegation_result : string
}.

Record OrchestrateResult : Type := mkOrchestrateResult {
  orch_result : string;
  delegations : list Delegation;
  conversationHistory : list Message
}.

Section Catalog.
Context {W : Type}.

(** [interface SubAgentDefinition]; [fn] receives [{ message }] with whatever
    value the oracle put there. *)
Record SubAgentDefinition : Type := mkSubAgent {
  fn : option JS.Json -> M W RunAgentResult;
  sa_description : string;
  triggers : list string
}.

(** An object literal with string keys: [Object.entries] follows the order the
    keys are written in. *)
Definition Catalog : Type := list (string * SubAgentDefinition).

(** The eight agent functions of sub-agents.ts, each a [runAgent] call with its
    own prompt and tool subset. *)
Variables featureAnalysisAgent jiraAgent codeAnalysisAgent codeWriterAgent codeTestAgent
  codeReviewAgent documentAgent diagramAgent : option JS.Json -> M W RunAgentResult.

Definition SUB_AGENTS : Catalog :=
  [ ("feature_analysis",
     {| fn := featureAnalysisAgent;
        sa_description :=
          "Analyze requirements, create implementation plans, decompose into stories/tasks";
        triggers := ["analyze feature"; "requirement"; "implementation plan"; "decompose";
                     "wireframe to requirements"; "diagram to requirements"; "prd"] |});
    ("jira_management",
     {| fn := jiraAgent;
        sa_description :=
          "Create, update, search Jira tickets; manage statuses, comments, sub-tasks";
        triggers := ["jira"; "ticket"; "story"; "epic"; "sprint"; "backlog"; "sub-task";
                     "status"] |});
    ("code_analysis",
     {| fn := codeAnalysisAgent;
        sa_description :=
          "Deep analysis of codebase: structure, standards, patterns, improvements";
        triggers := ["analyze code"; "code analysis"; "repo analysis"; "understand codebase";
                     "code standards"; "analyze the codebase"; "codebase"] |});
    ("code_writer",
     {| fn := codeWriterAgent;
        sa_description := "Write production code matching project patterns and standards";
        triggers := ["write code"; "implement"; "create file"; "add feature"; "build";
                     "code"] |});
    ("code_test",
     {| fn := codeTestAgent;
        sa_description := "Write unit tests, integration tests following project conventions";
        triggers := ["test"; "unit test"; "integration test"; "write test"; "add test"] |});
    ("code_review",
     {| fn := codeReviewAgent;
        sa_description :=
          "Review code for quality, security, performance, standards compliance";
        triggers := ["review"; "code review"; "pr review"; "pull request"; "check code"] |});
    ("document_management",
     {| fn := documentAgent;
        sa_description := "Manage Confluence pages and project documentation";
        triggers := ["confluence"; "documentation"; "wiki"; "page"; "document"; "docs"] |});
    ("diagram_generation",
     {| fn := diagramAgent;
        sa_description :=
          "Generate diagrams (flow, sequence, ER, wireframe) from requirements or code";
        triggers := ["diagram"; "flowchart"; "wireframe"; "sequence diagram"; "er diagram";
                     "mermaid"] |}) ].

End Catalog.
Arguments SubAgentDefinition W : clear implicits.
Arguments Catalog W : clear implicits.

(** *** quickRoute *)

(** The inner loop: [score += trigger.split(' ').length] for each trigger the
    lower-cased message includes. *)
Definition triggerScore (lower : string) (triggerList : list string) : Z :=
  List.fold_left
    (fun score trigger =>
       if JS.includes lower trigger
       then score + Z.of_nat (length (JS.split " " trigger))
       else score)
    triggerList 0.

(** [toLowerCase] is [String.prototype.toLowerCase], the Unicode case mapping
    of the runtime. *)
Definition quickRoute {W : Type} (toLowerCase : string -> string)
    (catalog : Catalog W) (userMessage : string) : option string :=
  let lower := toLowerCase userMessage in
  let best :=
    List.fold_left
      (fun (best : option string * Z) (entry : string * SubAgentDefinition W) =>
         let score := triggerScore lower (triggers (snd entry)) in
         if score >? snd best then (Some (fst entry), score) else best)
      catalog (None, 0) in
  if snd best >? 0 then fst best else None.

(** *** orchestrate *)

Section Orchestrate.
Context {W : Type}.
Variable oracle : Oracle W.
Variable catalog : Catalog W.
(** The prompt text, which lists the catalog; the loop passes it on unread. *)
Variable ORCHESTRATOR_SYSTEM_PROMPT : string.

Definition buildDelegationTool : ToolDefinition :=
  {| name := "delegate_to_agent";
     description :=
       "Delegate a task to a specialized sub-agent. Available agents: "
       +:+ JS.join ", " (List.map fst catalog);
     input_schema :=
       JS.JObj
         [ ("type", JS.JStr "object");
           ("properties",
            JS.JObj
              [ ("agent",
                 JS.JObj [ ("type", JS.JStr "string");
                           ("enum", JS.JArr (List.map (fun e => JS.JStr (fst e)) catalog));
                           ("description", JS.JStr "Which sub-agent to delegate to") ]);
                ("message",
                 JS.JObj [ ("type", JS.JStr "string");
                           ("description",
                            JS.JStr "The task/message to send to the sub-agent. Include all relevant context.") ]) ]);
           ("required", JS.JArr [JS.JStr "agent"; JS.JStr "message"]) ] |}.

(** [SUB_AGENTS[agentName]]: an own entry, a value inherited from
    [Object.prototype] (truthy, and without an [fn]), or [undefined]. *)
Inductive Lookup : Type :=
| Own (subAgent : SubAgentDefinition W)
| Inherited
| Missing.

Definition lookupAgent (key : string) : Lookup :=
  match JS.assoc key catalog with
  | Some subAgent => Own subAgent
  | None => if JS.inherited key then Inherited else Missing
  end.

(** The body of [for (const tu of toolUseBlocks)]: only a block named
    [delegate_to_agent] is acted on; the [if] has no [else].  Two things happen
    before the [try] and can throw: reading [input.agent], when the input is
    [null], and the template literal of the log line, when the agent name
    cannot be converted to a string. *)
Definition delegate (tu : ToolUseBlock)
    (acc : list Delegation * list ContentBlock) : M W (list Delegation * list ContentBlock) :=
  if String.eqb (tu_name tu) "delegate_to_agent" then
    match tu_input tu with
    | JS.JNull => throw (ErrorObj "Cannot read properties of null (reading 'agent')")
    | input =>
        let agentName := JS.prop "agent" input in
        let message := JS.prop "message" input in
        match JS.String_ agentName with
        | None => throw cannotConvert
        | Some shown =>
            let failed (err : Thrown) :=
              ret (fst acc,
                   snd acc ++ [toolResultBlock (tu_id tu)
                                 ("Error from " +:+ shown +:+ ": " +:+ errorText err)]) in
            match lookupAgent shown with
            | Missing =>
                ret (fst acc,
                     snd acc ++ [toolResultBlock (tu_id tu)
                                   ("Error: Unknown agent " +:+ JS.dquote +:+ shown
                                    +:+ JS.dquote)])
            | Inherited => tryCatch (throw (ErrorObj "subAgent.fn is not a function")) failed
            | Own subAgent =>
                tryCatch
                  (await r := fn subAgent message in
                   ret (fst acc ++ [{| agent := agentName; delegation_result := result r |}],
                        snd acc ++ [toolResultBlock (tu_id tu)
                                      (if String.eqb (result r) ""
                                       then "Sub-agent completed but returned no text."
                                       else result r)]))
                  failed
            end
        end
    end
  else ret acc.

Fixpoint delegateAll (toolUseBlocks : list ToolUseBlock)
    (acc : list Delegation * list ContentBlock) : M W (list Delegation * list ContentBlock) :=
  match toolUseBlocks with
  | [] => ret acc
  | tu :: rest =>
      await acc' := delegate tu acc in
      delegateAll rest acc'
  end.

Fixpoint orchestratorLoop (remaining : nat) (msgs : list Message)
    (allDelegations : list Delegation) (finalResult : string) : M W OrchestrateResult :=
  match remaining with
  | O => ret {| orch_result := finalResult; delegations := allDelegations;
                conversationHistory := msgs |}
  | S remaining' =>
      await response :=
        callLLM oracle
          {| systemPrompt := ORCHESTRATOR_SYSTEM_PROMPT;
             messages := msgs;
             tools := Some [buildDelegationTool] |} in
      let text := extractText response in
      let finalResult' := if String.eqb text "" then finalResult else text in
      let toolUseBlocks := extractToolUse response in
      let msgs' := msgs ++ [assistantMessage response] in
      match toolUseBlocks with
      | [] => ret {| orch_result := finalResult'; delegations := allDelegations;
                     conversationHistory := msgs' |}
      | _ =>
          await acc := delegateAll toolUseBlocks (allDelegations, []) in
          orchestratorLoop remaining'
            (msgs' ++ [{| role := user; content := BlockContent (snd acc) |}])
            (fst acc) finalResult'
      end
  end.

Definition maxOrchestratorLoops : nat := 10.

Definition orchestrate (userMessage : string) (history : list Message) : M W OrchestrateResult :=
  orchestratorLoop maxOrchestratorLoops
    (history ++ [{| role := user; content := TextContent userMessage |}]) [] "".

End Orchestrate.
End Orchestrator.

(** ** agents/context-manager.ts *)

Module ContextManager.

Record ContextOptions : Type := mkContextOptions {
  ctx_maxIterations : option Z;
  ctx_toolNames : option (list string);
  ctx_includePriorMessages : option bool;
  ctx_priorMessages : option (list Message)
}.

Definition noOptions : ContextOptions :=
  {| ctx_maxIterations := None; ctx_toolNames := None;
     ctx_includePriorMessages := None; ctx_priorMessages := None |}.

Section ContextManager.
Context {W : Type}.
Variable oracle : Oracle W.
Variable registry : Registry.ToolRegistry W.
Variable config_agent_maxIterations : Z.
(** [getResearcherPrompt()], [getExecutorPrompt()], [getVerifierPrompt()]. *)
Variables researcherPrompt executorPrompt verifierPrompt : string.

Definition executeFreshContext (agentName sys userMessage : string)
    (options : ContextOptions) : M W RunAgentResult :=
  let maxIterations := default 20 (ctx_maxIterations options) in
  let includePriorMessages := default false (ctx_includePriorMessages options) in
  let priorMessages := default [] (ctx_priorMessages options) in
  tryCatch
    (Engine.runAgent oracle registry config_agent_maxIterations
       {| Engine.opt_name := agentName;
          Engine.opt_systemPrompt := sys;
          Engine.opt_userMessage := userMessage;
          Engine.opt_toolNames := ctx_toolNames options;
          Engine.opt_maxIterations := Some maxIterations;
          Engine.opt_priorMessages :=
            Some (if includePriorMessages then priorMessages else []) |})
    (fun error => throw error).

(** [toolNames || ['code_*', 'bitbucket_*']]: an array, even an empty one, is truthy. *)
Definition spawnResearcher (researchGoals : string) (toolNames : option (list string))
    : M W RunAgentResult :=
  executeFreshContext "researcher" researcherPrompt researchGoals
    {| ctx_maxIterations := None;
       ctx_toolNames := Some (default ["code_*"; "bitbucket_*"] toolNames);
       ctx_includePriorMessages := None;
       ctx_priorMessages := None |}.

Definition spawnExecutor (taskDescription : string) (phaseNumber taskId : Z)
    : M W RunAgentResult :=
  executeFreshContext
    ("executor-phase" +:+ JS.string_of_Z phaseNumber +:+ "-task" +:+ JS.string_of_Z taskId)
    executorPrompt taskDescription
    {| ctx_maxIterations := Some 30;
       ctx_toolNames := Some ["code_*"; "bitbucket_*"; "jira_*"; "confluence_*"];
       ctx_includePriorMessages := None;
       ctx_priorMessages := None |}.

Definition spawnVerifier (taskDescription : string) (phaseNumber taskId : Z)
    : M W RunAgentResult :=
  executeFreshContext
    ("verifier-phase" +:+ JS.string_of_Z phaseNumber +:+ "-task" +:+ JS.string_of_Z taskId)
    verifierPrompt ("Verify task completion: " +:+ taskDescription)
    {| ctx_maxIterations := Some 10;
       ctx_toolNames := Some ["code_*"];
       ctx_includePriorMessages := None;
       ctx_priorMessages := None |}.

End ContextManager.
End ContextManager.

(** ** utils/logger.ts *)

Module Logger.

Definition escape : string := String (ascii_of_nat 27) EmptyString.

(** [COLORS]. *)
Definition reset : string := escape +:+ "[0m".
Definition cyan : string := escape +:+ "[36m".
Definition blue : string := escape +:+ "[34m".

(** The wrench sign U+1F527 of the tool lines, in UTF-8. *)
Definition wrench : string :=
  String (ascii_of_nat 240) (String (ascii_of_nat 159) (String (ascii_of_nat 148)
    (String (ascii_of_nat 167) EmptyString))).

(** [LEVELS.info]. *)
Definition LEVELS_info : Z := 1.

Section Logger.
Context {W : Type}.
(** [currentLevel], read once from [DEVWEAVER_LOG_LEVEL]; 1 when it is not set. *)
Variable currentLevel : Z.
(** [util.format] of the runtime, which [console.log] applies to its arguments. *)
Variable util_format : list string -> string.

(** [console.log(...args)]: one line on standard output. *)
Definition console_log (args : list string) : M W unit :=
  stdout_write (util_format args +:+ JS.newline).

Definition info (args : list string) : M W unit :=
  if currentLevel <=? LEVELS_info
  then console_log ((cyan +:+ "[nishi]" +:+ reset) :: args)
  else ret tt.

Definition tool (n : string) (args : list string) : M W unit :=
  if currentLevel <=? LEVELS_info
  then console_log ((blue +:+ "[nishi]" +:+ reset +:+ " " +:+ wrench +:+ " " +:+ n) :: args)
  else ret tt.

End Logger.
End Logger.

(** ** mcp/server.ts *)

Module MCPServer.

(** [interface JsonRpcResponse]; the id is whatever the request carried. *)
Record JsonRpcError : Type := mkJsonRpcError {
  code : Z;
  message : string;
  data : option JS.Json
}.

Record JsonRpcResponse : Type := mkJsonRpcResponse {
  resp_id : option JS.Json;
  resp_result : option JS.Json;
  resp_error : option JsonRpcError
}.

(** A property whose value is [undefined] is left out by [JSON.stringify]. *)
Definition field (key : string) (v : option JS.Json) : list (string * JS.Json) :=
  match v with
  | Some j => [(key, j)]
  | None => []
  end.

Definition errorJson (e : JsonRpcError) : JS.Json :=
  JS.JObj ([("code", JS.JNum (code e)); ("message", JS.JStr (message e))]
           ++ field "data" (data e)).

Definition responseJson (r : JsonRpcResponse) : JS.Json :=
  JS.JObj ([("jsonrpc", JS.JStr "2.0")]
           ++ field "id" (resp_id r)
           ++ field "result" (resp_result r)
           ++ field "error" (option_map errorJson (resp_error r))).

Definition resultResponse (id : option JS.Json) (r : JS.Json) : JsonRpcResponse :=
  {| resp_id := id; resp_result := Some r; resp_error := None |}.

Definition errorResponse (id : option JS.Json) (c : Z) (msg : string) (d : option JS.Json)
    : JsonRpcResponse :=
  {| resp_id := id; resp_result := None;
     resp_error := Some {| code := c; message := msg; data := d |} |}.

(** [typeof result === 'string' ? result : JSON.stringify(result, null, 2)]. *)
Definition resultText (r : ToolOutput) : string :=
  match r with
  | JS.JStr s => s
  | other => JS.stringifyPretty other
  end.

(** [{ content: [{ type: 'text', text }] }]. *)
Definition textContent (text : string) : JS.Json :=
  JS.JObj [("content", JS.JArr [JS.JObj [("type", JS.JStr "text"); ("text", JS.JStr text)]])].

(** [data instanceof Error ? data.message : data]. *)
Definition errorData (err : Thrown) : JS.Json :=
  match err with
  | ErrorObj msg => JS.JStr msg
  | NonError value _ => value
  end.

Section Server.
Context {W : Type}.
(** [JSON.parse]: the value, or the [SyntaxError] it throws. *)
Variable JSON_parse : string -> Res JS.Json.
(** The two parameters of the logger. *)
Variable currentLevel : Z.
Variable util_format : list string -> string.
(** [this.tools], set once by the constructor to [getDevWeaverTools()]. *)
Variable tools : list (Registry.Tool W).

Definition serverInfo : JS.Json :=
  JS.JObj [("name", JS.JStr "devweaver"); ("version", JS.JStr "1.0.0")].

Definition handleInitialize (id : option JS.Json) (_params : option JS.Json)
    : M W JsonRpcResponse :=
  await _u := Logger.info currentLevel util_format ["Client initializing MCP connection..."] in
  ret (resultResponse id
         (JS.JObj [ ("protocolVersion", JS.JStr "2024-11-05");
                    ("serverInfo", serverInfo);
                    ("capabilities", JS.JObj [("tools", JS.JObj [])]) ])).

Definition listedTool (tool : Registry.Tool W) : JS.Json :=
  JS.JObj [ ("name", JS.JStr (Registry.tool_name tool));
            ("description", JS.JStr (Registry.tool_description tool));
            ("inputSchema", Registry.tool_input_schema tool) ].

Definition handleListTools (id : option JS.Json) : JsonRpcResponse :=
  resultResponse id (JS.JObj [("tools", JS.JArr (List.map listedTool tools))]).

(** [typeof params === 'object'] for a truthy value. *)
Definition isObjectLike (v : JS.Json) : bool :=
  match v with
  | JS.JObj _ | JS.JArr _ => true
  | _ => false
  end.

(** [this.tools.find(t => t.name === name)]. *)
Definition findTool (n : option JS.Json) : option (Registry.Tool W) :=
  List.find (fun t => JS.isString n (Registry.tool_name t)) tools.

(** The template literal of the not-found message is outside the [try] and
    throws when the name cannot be converted to a string.  In the [catch],
    [logger.error] prints to standard error, which is not recorded. *)
Definition handleCallTool (id : option JS.Json) (params : option JS.Json) : M W JsonRpcResponse :=
  match params with
  | Some p =>
      if isObjectLike p then
        let n := JS.prop "name" p in
        let args := JS.prop "arguments" p in
        match findTool n with
        | None =>
            match JS.String_ n with
            | Some shown => ret (errorResponse id (-32602) ("Tool not found: " +:+ shown) None)
            | None => throw cannotConvert
            end
        | Some tool =>
            tryCatch
              (await _u := Logger.tool currentLevel util_format (Registry.tool_name tool)
                             ["Executing..."] in
               await r := invoke (Registry.tool_name tool) (Registry.tool_execute tool) args in
               ret (resultResponse id (textContent (resultText r))))
              (fun error =>
                 ret (errorResponse id (-32603) "Tool execution failed"
                        (Some (JS.JStr (errorText error)))))
        end
      else ret (errorResponse id (-32602) "Invalid params" None)
  | None => ret (errorResponse id (-32602) "Invalid params" None)
  end.

(** [const { method, params, id } = request], which throws on [null], and the
    [switch] over [method]; the template literal of the default case throws
    when the method cannot be converted to a string. *)
Definition processRequest (request : JS.Json) : M W (option JsonRpcResponse) :=
  match request with
  | JS.JNull => throw (ErrorObj "Cannot destructure property 'method' of 'request' as it is null.")
  | _ =>
      let method := JS.prop "method" request in
      let params := JS.prop "params" request in
      let id := JS.prop "id" request in
      if JS.isString method "initialize" then
        await response := handleInitialize id params in
        ret (Some response)
      else if JS.isString method "initialized" then
        await _u := Logger.info currentLevel util_format ["MCP client initialized"] in
        ret None
      else if JS.isString method "tools/list" then ret (Some (handleListTools id))
      else if JS.isString method "tools/call" then
        await response := handleCallTool id params in
        ret (Some response)
      else if JS.isString method "ping" then
        ret (Some (resultResponse id (JS.JObj [("status", JS.JStr "ok")])))
      else
        match JS.String_ method with
        | Some shown =>
            ret (Some (errorResponse id (-32601) ("Method not found: " +:+ shown) None))
        | None => throw cannotConvert
        end
  end.

Definition sendResponse (response : JsonRpcResponse) : M W unit :=
  stdout_write (JS.stringify (responseJson response) +:+ JS.newline).

Definition sendError (id : option JS.Json) (c : Z) (msg : string) (d : option JS.Json)
    : M W unit :=
  sendResponse (errorResponse id c msg d).

(** One message, from the call to the end of its promise chain.  A parse
    error is answered at once; any other response is written by a [then]
    callback, after the listener has returned.  The [catch] callback reads
    [request.id], which throws again when the parsed value is [null]; that
    second error is handled nowhere. *)
Definition handleMessage (msg : string) : M W unit :=
  match JSON_parse msg with
  | Throw error => sendError None (-32700) "Parse error" (Some (errorData error))
  | Ok request =>
      tryCatch
        (await response := processRequest request in
         match response with
         | Some r => sendResponse r
         | None => ret tt
         end)
        (fun error =>
           match request with
           | JS.JNull => throw (ErrorObj "Cannot read properties of null (reading 'id')")
           | _ => sendError (JS.prop "id" request) (-32603) "Internal error"
                    (Some (errorData error))
           end)
  end.

(** The [data] listener of [start] frames its input:
    [buffer += chunk; lines = buffer.split('\n'); buffer = lines.pop() || ''].
    The result is the lines the chunk completes and the new buffer. *)
Definition frame (buffer chunk : string) : list string * string :=
  let pieces := JS.split (ascii_of_nat 10) (buffer +:+ chunk) in
  (removelast pieces, List.last pieces "").

(** The lines the listener passes to [handleMessage], in order:
    [if (line.trim())].  The calls are not awaited, so the order in which the
    responses to different lines are written is not the order of the lines. *)
Definition handled (lines : list string) : list string :=
  List.filter (fun line => negb (String.eqb (JS.trim line) "")) lines.

End Server.
End MCPServer.

(** ** tools/mcp.ts: the stdio transport *)

Module StdioMCPClient.

(** How a promise returned by [_sendRequest] ended. *)
Inductive Outcome : Type :=
| Resolved (value : option JS.Json)
| Rejected (error : Thrown).

(** The closure handed to [setTimeout]: it captures [id], [method] and the
    [reject] of the promise it was created in. *)
Record Timer : Type := mkTimer {
  timer_id : Z;
  timer_method : string;
  timer_promise : nat;
  timer_due : Z
}.

Definition REQUEST_TIMEOUT_MS : Z := 30000.

(** The client object and the runtime objects it holds on to.  A promise is a
    number; [pending] maps a request id to the promise whose [resolve] and
    [reject] it stores. *)
Record Client : Type := mkClient {
  process : option nat;
  requestId : Z;
  pending : gmap Z nat;
  buffer : string;
  (* runtime *)
  now : Z;
  promises : nat;
  settled : gmap nat Outcome;
  timers : list Timer;
  stdin : list string
}.

Definition initial : Client :=
  {| process := None; requestId := 0; pending := ∅; buffer := "";
     now := 0; promises := 0; settled := ∅; timers := []; stdin := [] |}.

(** Calling [resolve] or [reject]: only the first call on a promise counts. *)
Definition settle (p : nat) (o : Outcome) (c : Client) : Client :=
  match settled c !! p with
  | Some _ => c
  | None =>
      {| process := process c; requestId := requestId c; pending := pending c;
         buffer := buffer c; now := now c; promises := promises c;
         settled := <[p := o]> (settled c); timers := timers c; stdin := stdin c |}
  end.

Definition with_pending (m : gmap Z nat) (c : Client) : Client :=
  {| process := process c; requestId := requestId c; pending := m;
     buffer := buffer c; now := now c; promises := promises c;
     settled := settled c; timers := timers c; stdin := stdin c |}.

Definition with_buffer (b : string) (c : Client) : Client :=
  {| process := process c; requestId := requestId c; pending := pending c;
     buffer := b; now := now c; promises := promises c;
     settled := settled c; timers := timers c; stdin := stdin c |}.

(** [this.process?.stdin?.write(msg)]. *)
Definition write (msg : string) (c : Client) : Client :=
  match process c with
  | None => c
  | Some _ =>
      {| process := process c; requestId := requestId c; pending := pending c;
         buffer := buffer c; now := now c; promises := promises c;
         settled := settled c; timers := timers c; stdin := stdin c ++ [msg] |}
  end.

Definition requestJson (id : Z) (method : string) (params : JS.Json) : JS.Json :=
  JS.JObj [ ("jsonrpc", JS.JStr "2.0"); ("id", JS.JNum id);
            ("method", JS.JStr method); ("params", params) ].

(** [_sendRequest(method, params)]: the executor of the new promise runs at once;
    the result is the new client and the promise handed to the caller. *)
Definition _sendRequest (method : string) (params : JS.Json) (c : Client) : Client * nat :=
  let p := promises c in
  let id := requestId c + 1 in
  let c1 :=
    {| process := process c; requestId := id; pending := <[id := p]> (pending c);
       buffer := buffer c; now := now c; promises := S p;
       settled := settled c;
       timers := timers c ++ [{| timer_id := id; timer_method := method; timer_promise := p;
                                 timer_due := now c + REQUEST_TIMEOUT_MS |}];
       stdin := stdin c |} in
  (write (JS.stringify (requestJson id method params) +:+ JS.newline) c1, p).

Definition _sendNotification (method : string) (params : JS.Json) (c : Client) : Client :=
  write (JS.stringify (JS.JObj [ ("jsonrpc", JS.JStr "2.0"); ("method", JS.JStr method);
                                 ("params", params) ]) +:+ JS.newline) c.

(** The timer callback:
    [if (pending.has(id)) { pending.delete(id); reject(new Error(...)) }]. *)
Definition onTimeout (t : Timer) (c : Client) : Client :=
  match pending c !! timer_id t with
  | Some _ =>
      settle (timer_promise t)
        (Rejected (ErrorObj ("MCP request timed out: " +:+ timer_method t)))
        (with_pending (delete (timer_id t) (pending c)) c)
  | None => c
  end.

(** [connect] once the child is spawned: the handle is stored. *)
Definition spawned (pid : nat) (c : Client) : Client :=
  {| process := Some pid; requestId := requestId c; pending := pending c;
     buffer := buffer c; now := now c; promises := promises c;
     settled := settled c; timers := timers c; stdin := stdin c |}.

(** [disconnect()]: the child is killed and the handle dropped; the pending map
    and the timers are left as they are. *)
Definition disconnect (c : Client) : Client :=
  {| process := None; requestId := requestId c; pending := pending c;
     buffer := buffer c; now := now c; promises := promises c;
     settled := settled c; timers := timers c; stdin := stdin c |}.

Section Receive.
(** [JSON.parse]: the value, or the [SyntaxError] it throws. *)
Variable JSON_parse : string -> Res JS.Json.

(** What [_onData] does with one parsed line.  The entry is deleted before the
    error text is built; when [String(error.message)] throws, the [catch] of the
    loop swallows the exception and the promise is left as it is. *)
Definition onMessage (msg : JS.Json) (c : Client) : Client :=
  match JS.prop "id" msg with
  | Some (JS.JNum id) =>
      match pending c !! id with
      | Some p =>
          let c' := with_pending (delete id (pending c)) c in
          if JS.truthy (JS.prop "error" msg) then
            match JS.String_ (from_option (JS.prop "message") None (JS.prop "error" msg)) with
            | Some text =>
                settle p
                  (Rejected (ErrorObj (if String.eqb text ""
                                       then from_option JS.stringify "" (JS.prop "error" msg)
                                       else text)))
                  c'
            | None => c'
            end
          else settle p (Resolved (JS.prop "result" msg)) c'
      | None => c
      end
  | _ => c
  end.

Definition onLine (line : string) (c : Client) : Client :=
  let trimmed := JS.trim line in
  if String.eqb trimmed "" then c
  else match JSON_parse trimmed with
       | Ok msg => onMessage msg c
       | Throw _ => c
       end.

Definition _onData (chunk : string) (c : Client) : Client :=
  let pieces := JS.split (ascii_of_nat 10) (buffer c +:+ chunk) in
  List.fold_left (fun acc line => onLine line acc) (removelast pieces)
    (with_buffer (List.last pieces "") c).

(** What the callers of the client and the runtime can do to it, one at a time:
    spawn the child, send, receive a chunk, let time pass, run a due timer,
    disconnect. *)
Inductive Action : Type :=
| Spawn (pid : nat)
| Send (method : string) (params : JS.Json)
| Notify (method : string) (params : JS.Json)
| Data (chunk : string)
| Elapse (ms : Z)
| Fire (t : Timer)
| Disconnect.

Definition elapse (ms : Z) (c : Client) : Client :=
  {| process := process c; requestId := requestId c; pending := pending c;
     buffer := buffer c; now := now c + Z.max 0 ms; promises := promises c;
     settled := settled c; timers := timers c; stdin := stdin c |}.

Definition timer_eqb (a b : Timer) : bool :=
  (timer_id a =? timer_id b) && Nat.eqb (timer_promise a) (timer_promise b)
  && String.eqb (timer_method a) (timer_method b) && (timer_due a =? timer_due b).

Definition unschedule (t : Timer) (c : Client) : Client :=
  {| process := process c; requestId := requestId c; pending := pending c;
     buffer := buffer c; now := now c; promises := promises c;
     settled := settled c;
     timers := List.filter (fun t' => negb (timer_eqb t t')) (timers c);
     stdin := stdin c |}.

(** A timer runs once, when it is scheduled and its delay has passed. *)
Definition canFire (t : Timer) (c : Client) : bool :=
  existsb (timer_eqb t) (timers c) && (timer_due t <=? now c).

Definition act (a : Action) (c : Client) : Client :=
  match a with
  | Spawn pid => spawned pid c
  | Disconnect => disconnect c
  | Send method params => fst (_sendRequest method params c)
  | Notify method params => _sendNotification method params c
  | Data chunk => _onData chunk c
  | Elapse ms => elapse ms c
  | Fire t => if canFire t c then onTimeout t (unschedule t c) else c
  end.

Definition run (actions : list Action) (c : Client) : Client :=
  List.fold_left (fun acc a => act a acc) actions c.

End Receive.

End StdioMCPClient.

(** ** tools/mcp.ts: the manager *)

Module MCPManager.

(** [interface MCPServerConfig]. *)
Record MCPServerConfig : Type := mkMCPServerConfig {
  cfg_name : string;
  cfg_transport : string;
  cfg_command : option string;
  cfg_args : option (list string);
  cfg_env : option (list (string * string));
  cfg_url : option string
}.

(** [interface ToolDefinition] of this file: a tool as a server lists it. *)
Record ListedTool : Type := mkListedTool {
  lt_name : string;
  lt_description : option string;
  lt_inputSchema : option JS.Json;
  lt_input_schema : option JS.Json
}.

Section Manager.
Context {W : Type}.

(** What the manager uses of a client, whichever transport it speaks.  Each
    call acts on the world outside the process: the server, the child, the
    network. *)
Record Client : Type := mkClient {
  connect : W -> Res unit * W;
  listTools : W -> Res (list ListedTool) * W;
  callTool : string -> ToolInput -> W -> Res ToolOutput * W;
  disconnect : W -> W
}.

(** [new SSEMCPClient(config)] and [new StdioMCPClient(config)]. *)
Variable newSSE newStdio : MCPServerConfig -> Client.

(** The manager's [clients] map, the registry singleton it registers into, and
    the world. *)
Record State : Type := mkState {
  clients : list (string * Client);
  registry : Registry.ToolRegistry W;
  outside : W
}.

(** [Map.set] on the client map. *)
Fixpoint clients_set (key : string) (client : Client) (m : list (string * Client))
    : list (string * Client) :=
  match m with
  | [] => [(key, client)]
  | (k, c) :: rest =>
      if String.eqb k key then (key, client) :: rest
      else (k, c) :: clients_set key client rest
  end.

(** [serverConfig.transport === 'sse' ? new SSEMCPClient(...) : new StdioMCPClient(...)]. *)
Definition clientFor (serverConfig : MCPServerConfig) : Client :=
  if String.eqb (cfg_transport serverConfig) "sse" then newSSE serverConfig
  else newStdio serverConfig.

(** [`mcp_${serverConfig.name}_${tool.name}`]. *)
Definition mcpToolName (serverConfig : MCPServerConfig) (tool : ListedTool) : string :=
  "mcp_" +:+ cfg_name serverConfig +:+ "_" +:+ lt_name tool.

(** The definition [connectServer] registers for a listed tool. *)
Definition mcpDefinition (serverConfig : MCPServerConfig) (tool : ListedTool) : ToolDefinition :=
  {| name := mcpToolName serverConfig tool;
     description :=
       "[MCP:" +:+ cfg_name serverConfig +:+ "] "
       +:+ match lt_description tool with
           | Some (String c rest) => String c rest
           | _ => lt_name tool
           end;
     input_schema :=
       match (if JS.truthy (lt_inputSchema tool) then lt_inputSchema tool
              else if JS.truthy (lt_input_schema tool) then lt_input_schema tool
              else None) with
       | Some schema => schema
       | None => JS.JObj [("type", JS.JStr "object"); ("properties", JS.JObj [])]
       end |}.

(** The handler it registers: [async input => await client.callTool(tool.name, input)]. *)
Definition mcpHandler (client : Client) (tool : ListedTool) : Handler W :=
  fun input => callTool client (lt_name tool) input.

(** The [for (const tool of tools)] loop. *)
Definition registerTools (serverConfig : MCPServerConfig) (client : Client)
    (tools : list ListedTool) (reg : Registry.ToolRegistry W) : Registry.ToolRegistry W :=
  List.fold_left
    (fun r tool => Registry.register r (mcpDefinition serverConfig tool) (mcpHandler client tool))
    tools reg.

(** [connectServer(serverConfig)]: the whole body is inside [try]; the [catch]
    logs and returns 0. *)
Definition connectServer (serverConfig : MCPServerConfig) (s : State) : Z * State :=
  let client := clientFor serverConfig in
  match connect client (outside s) with
  | (Throw _, w1) => (0, {| clients := clients s; registry := registry s; outside := w1 |})
  | (Ok _, w1) =>
      let connected := clients_set (cfg_name serverConfig) client (clients s) in
      match listTools client w1 with
      | (Throw _, w2) => (0, {| clients := connected; registry := registry s; outside := w2 |})
      | (Ok tools, w2) =>
          (Z.of_nat (length tools),
           {| clients := connected;
              registry := registerTools serverConfig client tools (registry s);
              outside := w2 |})
      end
  end.

(** The loop of [connectAll], from the running total. *)
Fixpoint connectEach (configs : list MCPServerConfig) (totalTools : Z) (s : State) : Z * State :=
  match configs with
  | [] => (totalTools, s)
  | cfg :: rest =>
      let (n, s') := connectServer cfg s in
      connectEach rest (totalTools + n) s'
  end.

Definition connectAll (configs : list MCPServerConfig) (s : State) : Z * State :=
  connectEach configs 0 s.

(** [disconnectAll()]: every client is disconnected, in the order of the map,
    and the map is cleared. *)
Definition disconnectAll (s : State) : State :=
  {| clients := [];
     registry := registry s;
     outside := List.fold_left (fun w entry => disconnect (snd entry) w) (clients s) (outside s) |}.

End Manager.
Arguments Client W : clear implicits.
Arguments State W : clear implicits.
End MCPManager.

(** ** agents/sub-agents.ts: the helper of the agent functions *)

(** [getMCPToolNames(keywords)] over the registry singleton; [toLowerCase] is
    [String.prototype.toLowerCase]. *)
Definition getMCPToolNames {W : Type} (toLowerCase : string -> string)
    (registry : Registry.ToolRegistry W) (keywords : list string) : list string :=
  List.filter
    (fun n =>
       if negb (String.prefix "mcp_" n) then false
       else (length keywords =? 0)%nat
            || existsb (fun k => JS.includes (toLowerCase n) k) keywords)
    (Registry.names registry).

(** * Vocabulary of the properties *)

(** ** Engine *)

Section EngineSpec.
Context {W : Type}.
Variable registry : Registry.ToolRegistry W.

Definition toCall (tu : ToolUseBlock) : ToolCall :=
  {| call_name := tu_name tu; call_input := tu_input tu |}.

(** What one requested call contributes: the handler's value, or the error
    payload standing in for the exception. *)
Definition callPayload (tu : ToolUseBlock) (st : St W) : ToolOutput * St W :=
  match Registry.execute registry (tu_name tu) (Some (tu_input tu)) st with
  | (Ok r, st') => (r, st')
  | (Throw err, st') => (Engine.errorPayload err, st')
  end.

(** The result blocks of a whole batch, call after call. *)
Fixpoint batch (tus : list ToolUseBlock) (st : St W) : list ContentBlock * St W :=
  match tus with
  | [] => ([], st)
  | tu :: rest =>
      let (r, st1) := callPayload tu st in
      let (more, st2) := batch rest st1 in
      (toolResultBlock (tu_id tu) (Engine.resultText r) :: more, st2)
  end.

(** The result block reported for a request, field by field: its type, the id
    of the request it answers, and the text. *)
Definition reported (tu : ToolUseBlock) (text : string) : ContentBlock :=
  {| block_type := tool_result;
     block_text := None;
     block_id := None;
     block_name := None;
     block_input := None;
     block_tool_use_id := tu_id tu;
     block_content := Some (JS.JStr text);
     block_is_error := None |}.

(** [answered tus st blocks st']: from [st], the requests [tus] are served one
    after the other, in order, ending in [st'], and [blocks] are their results,
    one for each.  A registered handler is run on the input of the request, and
    the run is logged; what it returns is the text of the result, a string as it
    is and any other value as JSON.  When it throws, the result is the JSON of
    [{error: message}] and the next request is served all the same.  A name
    that is not registered runs nothing and is answered in the same way. *)
Inductive answered : list ToolUseBlock -> St W -> list ContentBlock -> St W -> Prop :=
| answered_none st : answered [] st [] st
| answered_returned tu rest st entry r w' blocks st' :
    Registry.get registry (tu_name tu) = Some entry ->
    Registry.handler entry (Some (tu_input tu)) (world st) = (Ok r, w') ->
    answered rest
      {| world := w';
         log := log st ++ [EvTool (tu_name tu) (Some (tu_input tu)) (Ok r)] |}
      blocks st' ->
    answered (tu :: rest) st
      (reported tu (match r with JS.JStr text => text | _ => JS.stringify r end) :: blocks) st'
| answered_threw tu rest st entry err w' blocks st' :
    Registry.get registry (tu_name tu) = Some entry ->
    Registry.handler entry (Some (tu_input tu)) (world st) = (Throw err, w') ->
    answered rest
      {| world := w';
         log := log st ++ [EvTool (tu_name tu) (Some (tu_input tu)) (Throw err)] |}
      blocks st' ->
    answered (tu :: rest) st
      (reported tu
         (JS.stringify
            (JS.JObj [("error",
                       JS.JStr match err with
                               | ErrorObj message => message
                               | NonError _ text => text
                               end)]))
       :: blocks) st'
| answered_unknown tu rest st blocks st' :
    Registry.get registry (tu_name tu) = None ->
    answered rest st blocks st' ->
    answered (tu :: rest) st
      (reported tu
         (JS.stringify (JS.JObj [("error", JS.JStr ("Unknown tool: " +:+ tu_name tu))]))
       :: blocks) st'.

End EngineSpec.

(** ** Conversations *)

(** The tool-invocation requests of a message: the blocks of an assistant
    message that [extractToolUse] narrows to [ToolUseBlock]. *)
Definition requests (m : Message) : list ToolUseBlock :=
  match role m, content m with
  | assistant, BlockContent blocks => toolUsesOf blocks
  | _, _ => []
  end.

Definition resultId (b : ContentBlock) : option (option string) :=
  match block_type b with
  | tool_result => Some (block_tool_use_id b)
  | _ => None
  end.

(** The correlation ids of the tool-result blocks of a user message. *)
Definition resultIds (m : Message) : option (list (option string)) :=
  match role m, content m with
  | user, BlockContent blocks => Some (omap resultId blocks)
  | _, _ => None
  end.

(** [reply] answers [request]: it is a user message whose tool-result blocks
    carry, one for one and in order, the ids of the requests. *)
Definition answers (reply request : Message) : bool :=
  bool_decide (resultIds reply = Some (List.map tu_id (requests request))).

(** The pairing invariant of a conversation: every message with requests is
    followed at once by a message that answers them. *)
Fixpoint pairedb (msgs : list Message) : bool :=
  match msgs with
  | [] => true
  | m :: rest =>
      match requests m with
      | [] => true
      | _ => match rest with
             | reply :: _ => answers reply m
             | [] => false
             end
      end && pairedb rest
  end.

(** The requests the orchestrator acts on. *)
Definition is_delegation (tu : ToolUseBlock) : bool :=
  String.eqb (tu_name tu) "delegate_to_agent".

(** The pairing invariant restricted to the requests [select] picks: every
    message with requests is followed at once by a user message whose
    tool-result blocks carry, one for one and in order, the ids of the picked
    requests. *)
Fixpoint pairedOn (select : ToolUseBlock -> bool) (msgs : list Message) : bool :=
  match msgs with
  | [] => true
  | m :: rest =>
      match requests m with
      | [] => true
      | _ => match rest with
             | reply :: _ =>
                 bool_decide
                   (resultIds reply = Some (List.map tu_id (List.filter select (requests m))))
             | [] => false
             end
      end && pairedOn select rest
  end.

(** ** Letter case *)

Definition isUpper (c : ascii) : bool :=
  Nat.leb 65 (nat_of_ascii c) && Nat.leb (nat_of_ascii c) 90.

(** The phrase has an upper-case ASCII letter. *)
Definition hasUpper (s : string) : bool := existsb isUpper (String.list_ascii_of_string s).

(** What the properties take for granted of the runtime's [toLowerCase]: on a
    string of ASCII characters it lower-cases the letters A to Z and nothing
    else, and no string it returns has a letter A to Z. *)
Definition lowersASCII (toLowerCase : string -> string) : Prop :=
  forall s, JS.isASCII s = true -> toLowerCase s = JS.toLowerCaseASCII s.

Definition neverUpper (toLowerCase : string -> string) : Prop :=
  forall s, hasUpper (toLowerCase s) = false.

(** ** Keyword routing, in the words of the specification *)

(** Two characters are the same letter: they are equal, or one is an
    upper-case ASCII letter and the other its lower-case form, 32 places on. *)
Definition sameLetter (a b : ascii) : bool :=
  Ascii.eqb a b
  || (isUpper a && Nat.eqb (nat_of_ascii b) (nat_of_ascii a + 32))
  || (isUpper b && Nat.eqb (nat_of_ascii a) (nat_of_ascii b + 32)).

(** [message] starts with [phrase], letter case aside. *)
Fixpoint startsIgnoringCase (phrase message : string) : bool :=
  match phrase, message with
  | EmptyString, _ => true
  | String p phrase', String m message' => sameLetter p m && startsIgnoringCase phrase' message'
  | String _ _, EmptyString => false
  end.

(** [phrase] is a case-insensitive substring of [message]. *)
Fixpoint containsIgnoringCase (message phrase : string) : bool :=
  startsIgnoringCase phrase message
  || match message with
     | EmptyString => false
     | String _ rest => containsIgnoringCase rest phrase
     end.

(** A trigger phrase occurs in a message, letter case aside.  For a message of
    ASCII characters this is the test above.  For any other message, letter
    case is what the runtime's [toLowerCase] makes of it: the phrase is looked
    for in the lower-cased message. *)
Definition phraseOccurs (toLowerCase : string -> string) (message phrase : string) : bool :=
  if JS.isASCII message then containsIgnoringCase message phrase
  else JS.includes (toLowerCase message) phrase.

Fixpoint wordsFrom (inWord : bool) (s : string) : nat :=
  match s with
  | EmptyString => O
  | String c rest =>
      if Ascii.eqb c " " then wordsFrom false rest
      else ((if inWord then 0 else 1) + wordsFrom true rest)%nat
  end.

(** The number of words of a phrase. *)
Definition wordCount (phrase : string) : nat := wordsFrom false phrase.

(** The score of a Sub-Agent: the word counts of its trigger phrases that occur
    in the message, summed. *)
Definition routeScore (occurs : string -> bool) (triggerList : list string) : Z :=
  fold_right Z.add 0
    (List.map (fun t => if occurs t then Z.of_nat (wordCount t) else 0) triggerList).

(** A trigger phrase in lower case whose pieces between single spaces are its words. *)
Definition plainTrigger (t : string) : Prop :=
  JS.toLowerCaseASCII t = t /\ length (JS.split " " t) = wordCount t.

(** ** RPC methods *)

Definition servedMethods : list string :=
  ["initialize"; "initialized"; "tools/list"; "tools/call"; "ping"].

(** The method of a request is one the server has a case for. *)
Definition recognized (method : option JS.Json) : bool :=
  existsb (JS.isString method) servedMethods.

(** A response on the wire: the protocol tag, the id when the request had one,
    and either a result or an error, in this order, on one line. *)
Definition wire (id : option JS.Json) (payload : string * JS.Json) : string :=
  JS.stringify
    (JS.JObj ([("jsonrpc", JS.JStr "2.0")]
              ++ match id with Some j => [("id", j)] | None => [] end
              ++ [payload]))
  +:+ JS.newline.

(** The error member of a response. *)
Definition wireError (code : Z) (message : string) (data : option JS.Json) : string * JS.Json :=
  ("error",
   JS.JObj ([("code", JS.JNum code); ("message", JS.JStr message)]
            ++ match data with Some d => [("data", d)] | None => [] end)).

(** The tool a [tools/call] with these parameters looks up, if it gets that far. *)
Definition calledTool {W : Type} (tools : list (Registry.Tool W)) (params : option JS.Json)
    : option (Registry.Tool W) :=
  match params with
  | Some p => if MCPServer.isObjectLike p then MCPServer.findTool tools (JS.prop "name" p) else None
  | None => None
  end.

(** The diagnostic lines of the server, as [console.log] prints them: they are
    printed when the log level is info (1) or debug (0). *)
Definition infoLine (util_format : list string -> string) (text : string) : string :=
  util_format [Logger.cyan +:+ "[nishi]" +:+ Logger.reset; text] +:+ JS.newline.

Definition toolLine (util_format : list string -> string) (tool text : string) : string :=
  util_format [Logger.blue +:+ "[nishi]" +:+ Logger.reset +:+ " " +:+ Logger.wrench +:+ " "
               +:+ tool; text]
  +:+ JS.newline.

Definition printed (currentLevel : Z) (line : string) : list string :=
  if currentLevel <=? 1 then [line] else [].

(** ** Requests of the stdio client *)

(** The promise [_sendRequest] created for the request with id [id]: the client
    creates promises nowhere else, so it is the [id]-th one. *)
Definition promiseOf (id : Z) : nat := Z.to_nat (id - 1).

(** The timer [_sendRequest] schedules for a request sent at time [sent]. *)
Definition timeoutOf (id : Z) (method : string) (sent : Z) : StdioMCPClient.Timer :=
  {| StdioMCPClient.timer_id := id;
     StdioMCPClient.timer_method := method;
     StdioMCPClient.timer_promise := promiseOf id;
     StdioMCPClient.timer_due := sent + StdioMCPClient.REQUEST_TIMEOUT_MS |}.

(** The error a timed-out request is rejected with. *)
Definition timedOut (method : string) : StdioMCPClient.Outcome :=
  StdioMCPClient.Rejected (ErrorObj ("MCP request timed out: " +:+ method)).

Module ClientSpec.
Import StdioMCPClient.

(** What holds of a client however it got to its state: every pending id
    belongs to a request that was sent and maps to that request's own promise,
    which has not ended; only promises that exist have ended; and a scheduled
    timer rejects the promise of its own request. *)
Record Inv (c : Client) : Prop := mkInv {
  inv_ids : 0 <= requestId c;
  inv_promises : promises c = Z.to_nat (requestId c);
  inv_pending : forall id p, pending c !! id = Some p ->
                  0 < id <= requestId c /\ p = promiseOf id /\ settled c !! p = None;
  inv_settled : forall p o, settled c !! p = Some o -> (p < promises c)%nat;
  inv_timers : forall t, In t (timers c) ->
                 0 < timer_id t <= requestId c /\ timer_promise t = promiseOf (timer_id t)
}.

(** Dropping a pending id: its entry is deleted. *)
Definition drop (id : Z) (c : Client) : Client :=
  with_pending (delete id (pending c)) c.

(** Retiring a pending id: its entry is deleted and its promise ends. *)
Definition retire (id : Z) (o : Outcome) (c : Client) : Client :=
  settle (promiseOf id) o (drop id c).

(** The outcome a message gives the promise of its request, if it gives one:
    the result, or an error with the text of the error's message. *)
Definition outcomeOf (msg : JS.Json) : option Outcome :=
  if JS.truthy (JS.prop "error" msg) then
    option_map
      (fun text =>
         Rejected (ErrorObj (if String.eqb text ""
                             then from_option JS.stringify "" (JS.prop "error" msg)
                             else text)))
      (JS.String_ (from_option (JS.prop "message") None (JS.prop "error" msg)))
  else Some (Resolved (JS.prop "result" msg)).

(** The action is the response or the timeout of the request [id]: a chunk
    that completes a line carrying a message with that id, or the run of a
    timer of that request. *)
Definition retires (JSON_parse : string -> Res JS.Json) (a : Action) (c : Client) (id : Z)
    : Prop :=
  match a with
  | Data chunk =>
      exists line msg,
        In line (removelast (JS.split (ascii_of_nat 10) (buffer c +:+ chunk)))
        /\ JS.trim line <> ""
        /\ JSON_parse (JS.trim line) = Ok msg
        /\ JS.prop "id" msg = Some (JS.JNum id)
  | Fire t => timer_id t = id /\ canFire t c = true
  | _ => False
  end.

(** In the course of [history], run from [c], the request [id] got its
    response or its timeout after it was sent. *)
Fixpoint retiredIn (JSON_parse : string -> Res JS.Json) (history : list Action) (c : Client)
    (id : Z) : Prop :=
  match history with
  | [] => False
  | a :: rest =>
      (0 < id <= requestId c /\ retires JSON_parse a c id)
      \/ retiredIn JSON_parse rest (act JSON_parse a c) id
  end.

(** What no action undoes: ids once used stay used, a promise that has ended
    keeps its outcome, and an id that is used and no longer pending never
    becomes pending again. *)
Definition extends (c c' : Client) : Prop :=
  requestId c <= requestId c'
  /\ (forall p o, settled c !! p = Some o -> settled c' !! p = Some o)
  /\ (forall id, id <= requestId c -> pending c !! id = None -> pending c' !! id = None).

End ClientSpec.

(** ** What a log says *)

(** The candidate final answer an oracle reply carries, if any. *)
Definition candidate (e : Event) : option string :=
  match e with
  | EvOracle _ (Ok response) =>
      if String.eqb (extractText response) "" then None else Some (extractText response)
  | _ => None
  end.

(** The last candidate final answer of a run, the empty string when there is none. *)
Definition lastCandidate (evs : list Event) : string :=
  List.last (omap candidate evs) "".

(** Every oracle call of [evs] satisfies [P]. *)
Definition oracleCallsSatisfy (P : LLMCallOptions -> Prop) (evs : list Event) : Prop :=
  Forall (fun e => match e with EvOracle opts _ => P opts | _ => True end) evs.

(** ** Stubs: small oracles, handlers and registries to run the loops on *)

Module Stub.

(** A world that only counts the oracle calls made so far. *)
Definition World : Type := nat.

Definition toolUse (id n : string) (input : JS.Json) : ContentBlock :=
  {| block_type := tool_use; block_text := None; block_id := Some id;
     block_name := Some n; block_input := Some input; block_tool_use_id := None;
     block_content := None; block_is_error := None |}.

Definition textBlock (t : string) : ContentBlock :=
  {| block_type := text_block; block_text := Some t; block_id := None;
     block_name := None; block_input := None; block_tool_use_id := None;
     block_content := None; block_is_error := None |}.

Definition reply (blocks : list ContentBlock) : LLMResponse :=
  {| response_content := Some blocks |}.

Definition objectSchema : JS.Json :=
  JS.JObj [("type", JS.JStr "object"); ("properties", JS.JObj [])].

(** A handler that answers with its input, as the test tool of tests/run.ts does. *)
Definition echo : Handler World :=
  fun input w =>
    (Ok (JS.JObj [("success", JS.JBool true);
                  ("data", JS.JObj (MCPServer.field "echo" input))]), w).

(** A handler that always throws. *)
Definition failing : Handler World :=
  fun _ w => (Throw (ErrorObj "boom"), w).

Definition echoTool (n : string) : Registry.Tool World :=
  {| Registry.tool_name := n; Registry.tool_description := "A test tool";
     Registry.tool_input_schema := objectSchema; Registry.tool_execute := echo |}.

Definition failingTool (n : string) : Registry.Tool World :=
  {| Registry.tool_name := n; Registry.tool_description := "A tool that fails";
     Registry.tool_input_schema := objectSchema; Registry.tool_execute := failing |}.

Definition registry : Registry.ToolRegistry World :=
  Registry.registerAll Registry.empty
    [echoTool "test_tool"; failingTool "bad_tool";
     echoTool "code_read_file"; echoTool "bitbucket_list_prs"].

(** An oracle that requests one harmless tool call on every turn. *)
Definition alwaysCalls : Oracle World :=
  fun _ w =>
    (Ok (reply [textBlock ("turn " +:+ JS.string_of_Z (Z.of_nat w));
                toolUse "toolu_1" "test_tool" (JS.JObj [])]), S w).

(** An oracle that first requests three calls at once, the second of a tool
    that throws, and then gives its answer. *)
Definition callsThenAnswers : Oracle World :=
  fun _ w =>
    match w with
    | O => (Ok (reply [toolUse "toolu_1" "test_tool" (JS.JObj [("n", JS.JNum 1)]);
                       toolUse "toolu_2" "bad_tool" (JS.JObj []);
                       toolUse "toolu_3" "test_tool" (JS.JObj [("n", JS.JNum 3)])]), S w)
    | S _ => (Ok (reply [textBlock "done"]), S w)
    end.

(** An oracle that first requests a tool it was not offered and then answers. *)
Definition callsUnoffered : Oracle World :=
  fun _ w =>
    match w with
    | O => (Ok (reply [toolUse "toolu_1" "jira_search" (JS.JObj [])]), S w)
    | S _ => (Ok (reply [textBlock "done"]), S w)
    end.

Definition start : St World := {| world := O; log := [] |}.

Definition options (userMessage : string) (toolNames : option (list string))
    (maxIterations : option Z) : Engine.RunAgentOptions :=
  {| Engine.opt_name := "stub"; Engine.opt_systemPrompt := "You are a stub.";
     Engine.opt_userMessage := userMessage; Engine.opt_toolNames := toolNames;
     Engine.opt_maxIterations := maxIterations; Engine.opt_priorMessages := None |}.

(** A sub-agent function that reports what it was asked, without an oracle. *)
Definition subAgent (label : string) : option JS.Json -> M World RunAgentResult :=
  fun message =>
    ret {| result := label +:+ ": " +:+ default "" (JS.String_ message);
           result_messages := []; toolCalls := [] |}.

Definition catalog : Orchestrator.Catalog World :=
  Orchestrator.SUB_AGENTS
    (subAgent "feature") (subAgent "jira") (subAgent "analysis") (subAgent "writer")
    (subAgent "test") (subAgent "review") (subAgent "document") (subAgent "diagram").

(** What this repository's own client sends after the handshake: a
    notification, without an id, whose method is [notifications/initialized]. *)
Definition clientNotification : JS.Json :=
  JS.JObj [ ("jsonrpc", JS.JStr "2.0"); ("method", JS.JStr "notifications/initialized");
            ("params", JS.JObj []) ].

(** A response to the request with id 1. *)
Definition responseToFirst : JS.Json :=
  JS.JObj [ ("jsonrpc", JS.JStr "2.0"); ("id", JS.JNum 1);
            ("result", JS.JObj [("tools", JS.JArr [])]) ].

(** A parser that knows those two lines. *)
Definition parse (line : string) : Res JS.Json :=
  if String.eqb line (JS.stringify clientNotification) then Ok clientNotification
  else if String.eqb line (JS.stringify responseToFirst) then Ok responseToFirst
  else Throw (ErrorObj "Unexpected token").

(** A [util.format] for arguments without format specifiers: it joins them
    with spaces. *)
Definition format (args : list string) : string := JS.join " " args.

(** The log level when [DEVWEAVER_LOG_LEVEL] is not set. *)
Definition level : Z := 1.

End Stub.

(** ** Registries as the program builds them *)

(** A registry reached from the empty one by [register] calls. *)
Inductive built {W : Type} : Registry.ToolRegistry W -> Prop :=
| built_empty : built Registry.empty
| built_register reg d h : built reg -> built (Registry.register reg d h).

(** Every entry is stored under the name of its own definition. *)
Definition keyedByName {W : Type} (reg : Registry.ToolRegistry W) : Prop :=
  Forall (fun t => name (Registry.definition (snd t)) = fst t) reg.

(** ** Audit of a run *)

(** The tool calls an oracle reply in the log asks for. *)
Definition requested (e : Event) : list ToolCall :=
  match e with
  | EvOracle _ (Ok response) => List.map toCall (extractToolUse response)
  | _ => []
  end.

(** A block that [extractToolUse] keeps. *)
Definition isRequest (b : ContentBlock) : bool :=
  match asToolUse b with Some _ => true | None => false end.

Definition isToolEvent (e : Event) : Prop :=
  match e with EvTool _ _ _ => True | _ => False end.

(** ** More stubs *)

Module Probe.


(** An oracle that answers at once. *)
Definition answers : Oracle Stub.World :=
  fun _ w => (Ok (Stub.reply [Stub.textBlock "hi"]), S w).

(** An oracle that delegates once to the ticket agent and then answers. *)
Definition delegates : Oracle Stub.World :=
  fun _ w =>
    match w with
    | O => (Ok (Stub.reply
                  [Stub.toolUse "toolu_1" "delegate_to_agent"
                     (JS.JObj [("agent", JS.JStr "jira_management");
                               ("message", JS.JStr "create a ticket")])]), S w)
    | S _ => (Ok (Stub.reply [Stub.textBlock "done"]), S w)
    end.

(** A delegation request whose input is [null]. *)
Definition nullDelegation : ToolUseBlock :=
  {| tu_id := Some "toolu_9"; tu_name := "delegate_to_agent"; tu_input := JS.JNull |}.

(** A delegation request whose agent name cannot be converted to a string. *)
Definition deadAgent : ToolUseBlock :=
  {| tu_id := Some "toolu_8"; tu_name := "delegate_to_agent";
     tu_input := JS.JObj [ ("agent", JS.JObj [("toString", JS.JNull)]);
                           ("message", JS.JStr "hello") ] |}.

(** A request whose method is an object that cannot be converted to a string. *)
Definition deadMethod : JS.Json :=
  JS.JObj [ ("jsonrpc", JS.JStr "2.0"); ("method", JS.JObj [("toString", JS.JNull)]) ].

(** An error response to the request with id 1 whose message cannot be
    converted to a string. *)
Definition deadError : JS.Json :=
  JS.JObj [ ("jsonrpc", JS.JStr "2.0"); ("id", JS.JNum 1);
            ("error", JS.JObj [("code", JS.JNum (-32000));
                               ("message", JS.JObj [("toString", JS.JNull)])]) ].

(** A parser that knows those lines too. *)
Definition parse (line : string) : Res JS.Json :=
  if String.eqb line (JS.stringify deadMethod) then Ok deadMethod
  else if String.eqb line (JS.stringify deadError) then Ok deadError
  else Stub.parse line.

(** A [toLowerCase] that knows one letter outside ASCII: the Kelvin sign
    (U+212A, three bytes in UTF-8), whose lower case is the letter k. *)
Fixpoint toLowerCaseKelvin (s : string) : string :=
  match s with
  | EmptyString => EmptyString
  | String a rest =>
      match rest with
      | String b (String c rest') =>
          if Nat.eqb (nat_of_ascii a) 226 && Nat.eqb (nat_of_ascii b) 132
             && Nat.eqb (nat_of_ascii c) 170
          then String "k" (toLowerCaseKelvin rest')
          else String (JS.lower_ascii a) (toLowerCaseKelvin rest)
      | _ => String (JS.lower_ascii a) (toLowerCaseKelvin rest)
      end
  end.

Definition kelvinSign : string :=
  String (ascii_of_nat 226) (String (ascii_of_nat 132) (String (ascii_of_nat 170) "")).

(** A catalog whose only trigger phrase is capitalised. *)
Definition capitalised : Orchestrator.Catalog Stub.World :=
  [("jira_management",
    {| Orchestrator.fn := Stub.subAgent "jira";
       Orchestrator.sa_description := "tickets";
       Orchestrator.triggers := ["Jira"] |})].

End Probe.

(** ** Stub servers *)

Module Remote.

Definition search : MCPManager.ListedTool :=
  {| MCPManager.lt_name := "search"; MCPManager.lt_description := Some "Search issues";
     MCPManager.lt_inputSchema := Some Stub.objectSchema; MCPManager.lt_input_schema := None |}.

Definition create : MCPManager.ListedTool :=
  {| MCPManager.lt_name := "create"; MCPManager.lt_description := None;
     MCPManager.lt_inputSchema := None; MCPManager.lt_input_schema := None |}.

(** A client whose server lists two tools and echoes every call. *)
Definition echoing (_ : MCPManager.MCPServerConfig) : MCPManager.Client Stub.World :=
  {| MCPManager.connect := fun w => (Ok tt, w);
     MCPManager.listTools := fun w => (Ok [search; create], w);
     MCPManager.callTool :=
       fun n input w => (Ok (JS.JObj [("tool", JS.JStr n); ("input", default JS.JNull input)]), S w);
     MCPManager.disconnect := fun w => w |}.

(** A client that cannot connect. *)
Definition unreachable (_ : MCPManager.MCPServerConfig) : MCPManager.Client Stub.World :=
  {| MCPManager.connect := fun w => (Throw (ErrorObj "MCP SSE init error: 503"), S w);
     MCPManager.listTools := fun w => (Ok [search], w);
     MCPManager.callTool := fun _ _ w => (Ok JS.JNull, w);
     MCPManager.disconnect := fun w => w |}.

Definition config (n transport : string) : MCPManager.MCPServerConfig :=
  {| MCPManager.cfg_name := n; MCPManager.cfg_transport := transport;
     MCPManager.cfg_command := None; MCPManager.cfg_args := None;
     MCPManager.cfg_env := None; MCPManager.cfg_url := None |}.

Definition fresh : MCPManager.State Stub.World :=
  {| MCPManager.clients := []; MCPManager.registry := Stub.registry; MCPManager.outside := O |}.

End Remote.

(** * Properties *)

(** ** The effect monad *)

Section EffectFacts.
Context {W : Type}.

Lemma bind_ok {A B : Type} (m : M W A) (k : A -> M W B) st a st' :
  m st = (Ok a, st') -> bind m k st = k a st'.
Proof. intros H. unfold bind. now rewrite H. Qed.

Lemma bind_throw {A B : Type} (m : M W A) (k : A -> M W B) st err st' :
  m st = (Throw err, st') -> bind m k st = (Throw err, st').
Proof. intros H. unfold bind. now rewrite H. Qed.

(** Awaiting a handler never fails to return: it yields the handler's outcome
    and appends one event. *)
Lemma invoke_spec (tool : string) (h : Handler W) input st :
  invoke tool h input st
  = (fst (h input (world st)),
     {| world := snd (h input (world st));
        log := log st ++ [EvTool tool input (fst (h input (world st)))] |}).
Proof. unfold invoke. now destruct (h input (world st)). Qed.

Lemma callLLM_spec (oracle : Oracle W) opts st :
  callLLM oracle opts st
  = (fst (oracle opts (world st)),
     {| world := snd (oracle opts (world st));
        log := log st ++ [EvOracle opts (fst (oracle opts (world st)))] |}).
Proof. unfold callLLM. now destruct (oracle opts (world st)). Qed.

(** Executing a registry tool logs at most one event, and never an oracle call. *)
Lemma execute_log (reg : Registry.ToolRegistry W) n input st :
  exists evs,
    log (snd (Registry.execute reg n input st)) = log st ++ evs
    /\ oracleCalls evs = []
    /\ stdout evs = [].
Proof.
  unfold Registry.execute.
  destruct (Registry.get reg n) as [entry|]; [destruct input as [i|]|].
  - rewrite invoke_spec. simpl. eexists. split; [reflexivity|]. now split.
  - exists []. simpl. now rewrite app_nil_r.
  - exists []. simpl. now rewrite app_nil_r.
Qed.

End EffectFacts.

(** ** The agent engine *)

Section EngineFacts.
Context {W : Type}.
Variable oracle : Oracle W.
Variable registry : Registry.ToolRegistry W.
Variable config_agent_maxIterations : Z.

Lemma runToolUse_spec tu acc st :
  Engine.runToolUse registry tu acc st
  = (Ok (fst acc ++ [toCall tu],
         snd acc ++ [toolResultBlock (tu_id tu) (Engine.resultText (fst (callPayload registry tu st)))]),
     snd (callPayload registry tu st)).
Proof.
  unfold Engine.runToolUse, callPayload, bind, tryCatch, ret.
  now destruct (Registry.execute registry (tu_name tu) (Some (tu_input tu)) st) as [[r|err] st'].
Qed.

(** The batch registry never throws: every request is recorded and answered. *)
Lemma runToolUses_spec tus : forall acc st,
  Engine.runToolUses registry tus acc st
  = (Ok (fst acc ++ List.map toCall tus, snd acc ++ fst (batch registry tus st)), snd (batch registry tus st)).
Proof.
  induction tus as [|tu rest IH]; intros [calls results] st; simpl.
  - unfold ret. now rewrite !app_nil_r.
  - erewrite bind_ok by apply runToolUse_spec.
    rewrite IH. simpl.
    destruct (callPayload registry tu st) as [r st1]. simpl.
    destruct (batch registry rest st1) as [more st2]. simpl.
    now rewrite <- !app_assoc.
Qed.

Lemma batch_app pre post st :
  batch registry (pre ++ post) st
  = (fst (batch registry pre st) ++ fst (batch registry post (snd (batch registry pre st))),
     snd (batch registry post (snd (batch registry pre st)))).
Proof.
  revert st. induction pre as [|tu pre IH]; intros st; simpl.
  - now destruct (batch registry post st).
  - destruct (callPayload registry tu st) as [r st1]. rewrite IH.
    destruct (batch registry pre st1) as [m1 s1]. simpl.
    now destruct (batch registry post s1).
Qed.

Lemma batch_ids tus st :
  List.map block_tool_use_id (fst (batch registry tus st)) = List.map tu_id tus.
Proof.
  revert st. induction tus as [|tu rest IH]; intros st; simpl; [reflexivity|].
  destruct (callPayload registry tu st) as [r st1]. specialize (IH st1).
  destruct (batch registry rest st1) as [more st2]. simpl in *. now rewrite IH.
Qed.

Lemma batch_types tus st :
  Forall (fun b => block_type b = tool_result) (fst (batch registry tus st)).
Proof.
  revert st. induction tus as [|tu rest IH]; intros st; simpl; [constructor|].
  destruct (callPayload registry tu st) as [r st1]. specialize (IH st1).
  destruct (batch registry rest st1) as [more st2]. simpl in *. now constructor.
Qed.

Lemma batch_log tus st :
  exists evs,
    log (snd (batch registry tus st)) = log st ++ evs /\ oracleCalls evs = [] /\ stdout evs = [].
Proof.
  revert st. induction tus as [|tu rest IH]; intros st; simpl.
  - exists []. now rewrite app_nil_r.
  - destruct (execute_log registry (tu_name tu) (Some (tu_input tu)) st) as (e1 & H1 & O1 & S1).
    assert (log (snd (callPayload registry tu st)) = log st ++ e1) as H1'.
    { unfold callPayload.
      now destruct (Registry.execute registry (tu_name tu) (Some (tu_input tu)) st) as [[?|?] ?]. }
    destruct (callPayload registry tu st) as [r st1]. simpl in H1'.
    destruct (IH st1) as (e2 & H2 & O2 & S2).
    destruct (batch registry rest st1) as [more st2]. simpl in *.
    exists (e1 ++ e2). rewrite H2, H1', app_assoc. split; [reflexivity|].
    unfold oracleCalls, stdout in *. rewrite List.filter_app, omap_app, O1, O2, S1, S2.
    now split.
Qed.

End EngineFacts.

(** ** Conversations *)

Lemma pairedb_app l1 l2 :
  pairedb l1 = true -> pairedb l2 = true -> pairedb (l1 ++ l2) = true.
Proof.
  induction l1 as [|m rest IH]; intros H1 H2; simpl in *; [assumption|].
  apply andb_prop in H1 as [Hm Hrest].
  rewrite IH by assumption. rewrite andb_true_r.
  destruct (requests m); [reflexivity|].
  destruct rest as [|reply rest']; [discriminate|]. exact Hm.
Qed.

Lemma requests_assistantMessage response :
  requests (assistantMessage response) = extractToolUse response.
Proof.
  unfold requests, assistantMessage, extractToolUse. simpl.
  now destruct (response_content response).
Qed.

Lemma resultIds_tool_results blocks :
  Forall (fun b => block_type b = tool_result) blocks ->
  omap resultId blocks = List.map block_tool_use_id blocks.
Proof.
  induction 1 as [|b rest Hb _ IH]; [reflexivity|].
  cbn. unfold resultId at 1. rewrite Hb. cbn. now rewrite IH.
Qed.

(** One full turn, an assistant message and the user message with its results, is paired. *)
Lemma pairedb_turn response results :
  Forall (fun b => block_type b = tool_result) results ->
  List.map block_tool_use_id results = List.map tu_id (extractToolUse response) ->
  pairedb [assistantMessage response; {| role := user; content := BlockContent results |}]
  = true.
Proof.
  intros Hty Hids. simpl. rewrite requests_assistantMessage.
  rewrite andb_true_r.
  destruct (extractToolUse response) as [|tu tus] eqn:E; [reflexivity|].
  unfold answers. rewrite requests_assistantMessage, E.
  apply bool_decide_eq_true. unfold resultIds. simpl.
  now rewrite resultIds_tool_results, Hids.
Qed.

Lemma pairedb_user_text s : pairedb [{| role := user; content := TextContent s |}] = true.
Proof. reflexivity. Qed.

(** ** The engine loop *)

Lemma oracleCallsSatisfy_none P evs : oracleCalls evs = [] -> oracleCallsSatisfy P evs.
Proof.
  unfold oracleCalls, oracleCallsSatisfy. induction evs as [|e evs IH]; intros H; [constructor|].
  simpl in H. destruct e; simpl in H; try discriminate; constructor; auto.
Qed.

Lemma oracleCallsSatisfy_app P evs1 evs2 :
  oracleCallsSatisfy P evs1 -> oracleCallsSatisfy P evs2 -> oracleCallsSatisfy P (evs1 ++ evs2).
Proof. unfold oracleCallsSatisfy. intros. now apply Forall_app. Qed.

Lemma oracleCallsSatisfy_impl (P Q : LLMCallOptions -> Prop) evs :
  (forall o, P o -> Q o) -> oracleCallsSatisfy P evs -> oracleCallsSatisfy Q evs.
Proof.
  unfold oracleCallsSatisfy. intros HPQ H. eapply Forall_impl; [exact H|].
  intros [o r| |]; auto.
Qed.

Section LoopFacts.
Context {W : Type}.
Variable oracle : Oracle W.
Variable registry : Registry.ToolRegistry W.
Variable sys : string.
Variable toolList : list ToolDefinition.

Let offered : option (list ToolDefinition) :=
  match toolList with [] => None | _ => Some toolList end.

Let loop := Engine.agentLoop oracle registry sys toolList.

Lemma agentLoop_O msgs calls ft st :
  loop O msgs calls ft st
  = (Ok {| result := ft; result_messages := msgs; toolCalls := calls |}, st).
Proof. reflexivity. Qed.

Lemma callLLM_reply opts st reply w' :
  oracle opts (world st) = (reply, w') ->
  callLLM oracle opts st = (reply, {| world := w'; log := log st ++ [EvOracle opts reply] |}).
Proof. intros H. unfold callLLM. now rewrite H. Qed.

(** One iteration in which the oracle throws: the exception leaves the loop. *)
Lemma agentLoop_oracle_throws n msgs calls ft st err w' :
  let opts := {| systemPrompt := sys; messages := msgs; tools := offered |} in
  oracle opts (world st) = (Throw err, w') ->
  loop (S n) msgs calls ft st
  = (Throw err, {| world := w'; log := log st ++ [EvOracle opts (Throw err)] |}).
Proof.
  intros opts H. unfold loop. simpl. fold offered. fold opts.
  apply bind_throw. now apply callLLM_reply.
Qed.

(** One iteration in which the oracle answers: the loop stops on a reply without
    requests and otherwise goes on, after the whole batch, with one iteration less. *)
Lemma agentLoop_oracle_answers n msgs calls ft st response w' :
  let opts := {| systemPrompt := sys; messages := msgs; tools := offered |} in
  oracle opts (world st) = (Ok response, w') ->
  let st1 := {| world := w'; log := log st ++ [EvOracle opts (Ok response)] |} in
  let ft' := if String.eqb (extractText response) "" then ft else extractText response in
  loop (S n) msgs calls ft st
  = match extractToolUse response with
    | [] => (Ok {| result := ft'; result_messages := msgs ++ [assistantMessage response];
                   toolCalls := calls |}, st1)
    | _ :: _ =>
        let tus := extractToolUse response in
        loop n
          (msgs ++ [assistantMessage response]
                ++ [{| role := user; content := BlockContent (fst (batch registry tus st1)) |}])
          (calls ++ List.map toCall tus) ft' (snd (batch registry tus st1))
    end.
Proof.
  intros opts H st1 ft'. unfold loop. simpl. fold offered. fold opts.
  erewrite bind_ok by (apply callLLM_reply; exact H).
  fold st1. fold ft'.
  cbv zeta.
  destruct (extractToolUse response) as [|tu tus] eqn:E; [reflexivity|].
  erewrite bind_ok by apply runToolUses_spec. simpl.
  now rewrite <- app_assoc.
Qed.

(** Whatever the oracle and the handlers do, the loop only appends to the log;
    every oracle call it makes is offered the same tools under the same prompt
    and sees a conversation that extends [msgs] by whole, paired turns; and a
    conversation it returns extends [msgs] the same way. *)
Lemma agentLoop_run n : forall msgs calls ft st,
  exists evs,
    log (snd (loop n msgs calls ft st)) = log st ++ evs
    /\ stdout evs = []
    /\ (length (oracleCalls evs) <= n)%nat
    /\ oracleCallsSatisfy
         (fun o => systemPrompt o = sys /\ tools o = offered
                   /\ exists turns, messages o = msgs ++ turns /\ pairedb turns = true) evs
    /\ forall res, fst (loop n msgs calls ft st) = Ok res ->
         exists turns, result_messages res = msgs ++ turns /\ pairedb turns = true.
Proof.
  induction n as [|n IH]; intros msgs calls ft st.
  - rewrite agentLoop_O. exists []. simpl. rewrite app_nil_r.
    repeat split; [lia|constructor|].
    intros res [= <-]. exists []. simpl. now rewrite app_nil_r.
  - set (opts := {| systemPrompt := sys; messages := msgs; tools := offered |}).
    assert (Hcall : forall reply, oracleCallsSatisfy
              (fun o => systemPrompt o = sys /\ tools o = offered
                        /\ exists turns, messages o = msgs ++ turns /\ pairedb turns = true)
              [EvOracle opts reply]).
    { intros reply. constructor; [|constructor]. repeat split.
      exists []. simpl. now rewrite app_nil_r. }
    destruct (oracle opts (world st)) as [[response|err] w'] eqn:Hreply.
    + rewrite (agentLoop_oracle_answers n msgs calls ft st response w' Hreply). fold opts.
      set (st1 := {| world := w'; log := log st ++ [EvOracle opts (Ok response)] |}).
      cbv zeta.
      destruct (extractToolUse response) as [|tu tus] eqn:E.
      * exists [EvOracle opts (Ok response)]. simpl.
        repeat split; [lia|apply Hcall|].
        intros res [= <-]. simpl. exists [assistantMessage response]. split; [reflexivity|].
        simpl. rewrite requests_assistantMessage, E. reflexivity.
      * destruct (batch_log registry (tu :: tus) st1) as (e2 & H2 & O2 & S2).
        pose proof (batch_ids registry (tu :: tus) st1) as Hids.
        pose proof (batch_types registry (tu :: tus) st1) as Hty.
        set (results := fst (batch registry (tu :: tus) st1)) in *.
        set (turn := [assistantMessage response]
                       ++ [{| role := user; content := BlockContent results |}]).
        assert (Hturn : pairedb turn = true).
        { apply pairedb_turn; [exact Hty|]. now rewrite E. }
        destruct (IH (msgs ++ turn) (calls ++ List.map toCall (tu :: tus))
                    (if String.eqb (extractText response) "" then ft else extractText response)
                    (snd (batch registry (tu :: tus) st1)))
          as (e3 & H3 & S3 & N3 & C3 & R3).
        exists ([EvOracle opts (Ok response)] ++ e2 ++ e3).
        rewrite H3, H2. subst st1. simpl log.
        split; [now rewrite <- !app_assoc|].
        split; [unfold stdout in *; simpl; now rewrite omap_app, S2, S3|].
        split.
        { unfold oracleCalls in *. simpl. rewrite List.filter_app, O2. simpl. lia. }
        split.
        { apply oracleCallsSatisfy_app; [apply Hcall|].
          apply oracleCallsSatisfy_app; [now apply oracleCallsSatisfy_none|].
          eapply oracleCallsSatisfy_impl; [|exact C3].
          intros o (Hs & Ht & turns & Hm & Hp). repeat split; auto.
          exists (turn ++ turns). split; [now rewrite Hm, <- app_assoc|].
          now apply pairedb_app. }
        intros res Hres. destruct (R3 res Hres) as (turns & Hm & Hp).
        exists (turn ++ turns). split; [now rewrite Hm, <- app_assoc|].
        now apply pairedb_app.
    + rewrite (agentLoop_oracle_throws n msgs calls ft st err w' Hreply). fold opts.
      exists [EvOracle opts (Throw err)]. simpl.
      repeat split; [lia|apply Hcall|]. intros res [=].
Qed.

End LoopFacts.

(** ** The engine's budget, tool filter and failure isolation *)

Lemma last_cons {A : Type} (a d : A) (l : list A) : List.last (a :: l) d = List.last l a.
Proof.
  revert a d. induction l as [|b l IH]; intros a d; [reflexivity|].
  change (List.last (b :: l) d = List.last (b :: l) a).
  now rewrite (IH b d), (IH b a).
Qed.

Lemma filter_none {A : Type} (f : A -> bool) (l : list A) :
  (forall x, In x l -> f x = false) -> List.filter f l = [].
Proof.
  induction l as [|a l IH]; intros H; [reflexivity|]. simpl.
  rewrite (H a) by now left. apply IH. intros x Hx. apply H. now right.
Qed.


Lemma candidate_none evs : oracleCalls evs = [] -> omap candidate evs = [].
Proof.
  unfold oracleCalls. induction evs as [|e evs IH]; intros H; [reflexivity|].
  destruct e; simpl in H; try discriminate; cbn; auto.
Qed.

Section BudgetFacts.
Context {W : Type}.
Variable oracle : Oracle W.
Variable registry : Registry.ToolRegistry W.

(** With an oracle that always answers and always requests a call, the loop
    uses up every iteration and returns the last candidate it saw. *)
Lemma agentLoop_exhausts sys toolList :
  (forall o w, exists r w', oracle o w = (Ok r, w') /\ extractToolUse r <> []) ->
  forall n msgs calls ft st,
  exists res w' evs,
    Engine.agentLoop oracle registry sys toolList n msgs calls ft st
    = (Ok res, {| world := w'; log := log st ++ evs |})
    /\ length (oracleCalls evs) = n
    /\ result res = List.last (omap candidate evs) ft.
Proof.
  intros Halways. induction n as [|n IH]; intros msgs calls ft st.
  - exists {| result := ft; result_messages := msgs; toolCalls := calls |}, (world st), [].
    rewrite app_nil_r. destruct st. repeat split.
  - set (opts := {| systemPrompt := sys; messages := msgs;
                    tools := match toolList with [] => None | _ => Some toolList end |}).
    destruct (Halways opts (world st)) as (response & w1 & Hreply & Hreq).
    rewrite (agentLoop_oracle_answers oracle registry sys toolList n msgs calls ft st
               response w1 Hreply).
    fold opts. cbv zeta.
    destruct (extractToolUse response) as [|tu tus] eqn:E; [congruence|].
    set (st1 := {| world := w1; log := log st ++ [EvOracle opts (Ok response)] |}).
    destruct (batch_log registry (tu :: tus) st1) as (e2 & H2 & O2 & _).
    set (ft' := if String.eqb (extractText response) "" then ft else extractText response).
    destruct (IH (msgs ++ [assistantMessage response]
                       ++ [{| role := user;
                              content := BlockContent (fst (batch registry (tu :: tus) st1)) |}])
                 (calls ++ List.map toCall (tu :: tus)) ft'
                 (snd (batch registry (tu :: tus) st1)))
      as (res & w3 & e3 & Hrun & Hn & Hres).
    exists res, w3, ([EvOracle opts (Ok response)] ++ e2 ++ e3).
    split; [|split].
    + rewrite Hrun, H2. subst st1. simpl log. now rewrite <- !app_assoc.
    + unfold oracleCalls in *. simpl. rewrite List.filter_app, O2. simpl. now rewrite Hn.
    + rewrite Hres. rewrite !omap_app, (candidate_none e2 O2). simpl.
      subst ft'.
      destruct (String.eqb (extractText response) ""); [reflexivity|].
      symmetry. exact (last_cons (extractText response) ft (omap candidate e3)).
Qed.

End BudgetFacts.

Section EngineClaims.
Context {W : Type}.
Variable oracle : Oracle W.
Variable registry : Registry.ToolRegistry W.
Variable config_agent_maxIterations : Z.

(** C10. When the iteration bound in force (the option, else the configured
    default) is zero or negative, [runAgent] returns at once: the state, and with
    it the log of oracle and tool calls, is untouched; the result is the empty
    string, the messages are the prior messages followed by the new user message,
    and no tool call is recorded. *)
Theorem runAgent_without_budget (opts : Engine.RunAgentOptions) (st : St W) :
  default config_agent_maxIterations (Engine.opt_maxIterations opts) <= 0 ->
  Engine.runAgent oracle registry config_agent_maxIterations opts st
  = (Ok {| result := "";
           result_messages :=
             default [] (Engine.opt_priorMessages opts)
             ++ [{| role := user; content := TextContent (Engine.opt_userMessage opts) |}];
           toolCalls := [] |},
     st).
Proof.
  intros Hle. unfold Engine.runAgent.
  replace (Z.to_nat (default config_agent_maxIterations (Engine.opt_maxIterations opts)))
    with O by lia.
  reflexivity.
Qed.

(** C3. Against an oracle that always answers with at least one tool request,
    [runAgent] returns normally (it does not throw), has made exactly
    [maxIterations] oracle calls (none when the bound is negative), and its
    result is the last candidate final answer, the empty string if no reply
    carried text. *)
Theorem budget_exhaustion_is_soft (opts : Engine.RunAgentOptions) (st : St W) :
  (forall o w, exists r w', oracle o w = (Ok r, w') /\ extractToolUse r <> []) ->
  exists res w' evs,
    Engine.runAgent oracle registry config_agent_maxIterations opts st
    = (Ok res, {| world := w'; log := log st ++ evs |})
    /\ Z.of_nat (length (oracleCalls evs))
       = Z.max 0 (default config_agent_maxIterations (Engine.opt_maxIterations opts))
    /\ result res = lastCandidate evs.
Proof.
  intros Halways. unfold Engine.runAgent.
  match goal with
  | |- context [Engine.agentLoop _ _ ?sys ?tl ?n ?msgs ?calls ?ft st] =>
      destruct (agentLoop_exhausts oracle registry sys tl Halways n msgs calls ft st)
        as (res & w' & evs & Hrun & Hn & Hres)
  end.
  exists res, w', evs. split; [exact Hrun|]. split; [rewrite Hn; lia|exact Hres].
Qed.

(** C8. Filter entries are compared with the registered names by string
    equality only: when no entry of the filter is a registered name, the
    filtered tool list is empty and every oracle call of the run is made
    without any tool definitions. *)
Theorem unmatched_filter_offers_no_tools (opts : Engine.RunAgentOptions)
    (toolNames : list string) (st : St W) :
  Engine.opt_toolNames opts = Some toolNames ->
  (forall n, In n toolNames -> Registry.has registry n = false) ->
  Registry.definitionsFor registry toolNames = []
  /\ exists evs,
       log (snd (Engine.runAgent oracle registry config_agent_maxIterations opts st))
       = log st ++ evs
       /\ oracleCallsSatisfy (fun o => tools o = None) evs.
Proof.
  intros Hnames Hnone.
  pose proof (filter_none (Registry.has registry) toolNames Hnone) as Hfilter.
  assert (Hdefs : Registry.definitionsFor registry toolNames = []).
  { unfold Registry.definitionsFor. now rewrite Hfilter. }
  split; [exact Hdefs|].
  unfold Engine.runAgent. rewrite Hnames, Hdefs.
  match goal with
  | |- context [Engine.agentLoop _ _ ?sys [] ?n ?msgs ?calls ?ft st] =>
      destruct (agentLoop_run oracle registry sys [] n msgs calls ft st)
        as (evs & Hlog & _ & _ & Hcalls & _)
  end.
  exists evs. split; [exact Hlog|].
  eapply oracleCallsSatisfy_impl; [|exact Hcalls]. now intros o (_ & Ht & _).
Qed.




End EngineClaims.

(** The engine claims on the stubs. *)

Lemma runAgent_without_budget_witness :
  Engine.runAgent Stub.alwaysCalls Stub.registry 25
    (Stub.options "hello" None (Some (-1))) Stub.start
  = (Ok {| result := "";
           result_messages := [{| role := user; content := TextContent "hello" |}];
           toolCalls := [] |},
     Stub.start).
Proof.
  apply (runAgent_without_budget Stub.alwaysCalls Stub.registry 25
           (Stub.options "hello" None (Some (-1))) Stub.start).
  simpl. lia.
Defined.

Lemma budget_exhaustion_is_soft_witness :
  exists res w' evs,
    Engine.runAgent Stub.alwaysCalls Stub.registry 25
      (Stub.options "hello" None (Some 3)) Stub.start
    = (Ok res, {| world := w'; log := evs |})
    /\ length (oracleCalls evs) = 3%nat
    /\ result res = "turn 2".
Proof.
  destruct (budget_exhaustion_is_soft Stub.alwaysCalls Stub.registry 25
              (Stub.options "hello" None (Some 3)) Stub.start)
    as (res & w' & evs & Hrun & Hcalls & Hres).
  - intros o w. eexists. eexists. split; [reflexivity|discriminate].
  - exists res, w', evs. split; [exact Hrun|]. split.
    + simpl in Hcalls. lia.
    + rewrite Hres. vm_compute in Hrun. injection Hrun as _ _ <-. reflexivity.
Defined.

Lemma unmatched_filter_offers_no_tools_witness :
  Registry.has Stub.registry "code_read_file" = true
  /\ Registry.definitionsFor Stub.registry ["code_*"; "bitbucket_*"] = []
  /\ exists evs,
       log (snd (Engine.runAgent Stub.callsThenAnswers Stub.registry 25
                   (Stub.options "research" (Some ["code_*"; "bitbucket_*"]) None)
                   Stub.start))
       = log Stub.start ++ evs
       /\ oracleCallsSatisfy (fun o => tools o = None) evs.
Proof.
  split; [reflexivity|].
  apply (unmatched_filter_offers_no_tools Stub.callsThenAnswers Stub.registry 25
           (Stub.options "research" (Some ["code_*"; "bitbucket_*"]) None)
           ["code_*"; "bitbucket_*"] Stub.start).
  - reflexivity.
  - intros n [<-|[<-|[]]]; reflexivity.
Defined.


(** ** Pairing of requests and results in conversations *)

Section PairingFacts.
Context {W : Type}.
Variable oracle : Oracle W.

(** Every conversation [runAgent] returns, and every conversation it shows the
    oracle, is its starting conversation extended by paired turns: each request
    of an assistant message is answered, one for one, in the next message. *)
Lemma runAgent_conversation_paired (registry : Registry.ToolRegistry W) (cfg : Z)
    (opts : Engine.RunAgentOptions) (st : St W) :
  let initial := default [] (Engine.opt_priorMessages opts)
                 ++ [{| role := user; content := TextContent (Engine.opt_userMessage opts) |}] in
  exists evs,
    log (snd (Engine.runAgent oracle registry cfg opts st)) = log st ++ evs
    /\ oracleCallsSatisfy
         (fun o => exists turns, messages o = initial ++ turns /\ pairedb turns = true) evs
    /\ forall res, fst (Engine.runAgent oracle registry cfg opts st) = Ok res ->
         exists turns, result_messages res = initial ++ turns /\ pairedb turns = true.
Proof.
  intros initial. unfold Engine.runAgent. fold initial.
  match goal with
  | |- context [Engine.agentLoop _ _ ?sys ?tl ?n initial ?calls ?ft st] =>
      destruct (agentLoop_run oracle registry sys tl n initial calls ft st)
        as (evs & Hlog & _ & _ & Hcalls & Hres)
  end.
  exists evs. split; [exact Hlog|]. split; [|exact Hres].
  eapply oracleCallsSatisfy_impl; [|exact Hcalls]. now intros o (_ & _ & H).
Qed.

Variable catalog : Orchestrator.Catalog W.
Variable prompt : string.

(** One request in the orchestrator: it pushes a result exactly when the
    request is named [delegate_to_agent], and it throws only on a delegation
    whose input is [null] or whose agent name cannot be converted to a string. *)
Lemma delegate_answers tu acc st :
  match Orchestrator.delegate catalog tu acc st with
  | (Ok (dels, blocks), st') =>
      exists results,
        blocks = snd acc ++ results
        /\ Forall (fun b => block_type b = tool_result) results
        /\ List.map block_tool_use_id results
           = List.map tu_id (List.filter is_delegation [tu])
  | (Throw _, _) =>
      is_delegation tu = true
      /\ (tu_input tu = JS.JNull \/ JS.String_ (JS.prop "agent" (tu_input tu)) = None)
  end.
Proof.
  assert (Hone : forall text,
            Forall (fun b => block_type b = tool_result) [toolResultBlock (tu_id tu) text]
            /\ List.map block_tool_use_id [toolResultBlock (tu_id tu) text] = [tu_id tu]).
  { intros text. split; [constructor; [reflexivity|constructor]|reflexivity]. }
  change (List.filter is_delegation [tu]) with (if is_delegation tu then [tu] else []).
  unfold Orchestrator.delegate, is_delegation.
  destruct (String.eqb (tu_name tu) "delegate_to_agent").
  - destruct (tu_input tu) eqn:Ein; cbv beta iota zeta;
      [unfold throw; split; [reflexivity|now left]|..];
      (destruct (JS.String_ (JS.prop "agent" _)) as [shown|] eqn:Eshown;
       [|unfold throw; split; [reflexivity|now right]]);
      (destruct (Orchestrator.lookupAgent catalog _) as [subAgent| |];
       [ unfold tryCatch, bind, ret;
         match goal with
         | |- context [Orchestrator.fn subAgent ?m st] =>
             destruct (Orchestrator.fn subAgent m st) as [[r|err] st']
         end
       | unfold tryCatch, throw, ret
       | unfold ret ];
       eexists; (split; [reflexivity|]); apply Hone).
  - unfold ret. destruct acc as [d b]. simpl. exists []. rewrite app_nil_r.
    repeat split. constructor.
Qed.

Lemma delegateAll_answers tus : forall acc st dels blocks st',
  Orchestrator.delegateAll catalog tus acc st = (Ok (dels, blocks), st') ->
  exists results,
    blocks = snd acc ++ results
    /\ Forall (fun b => block_type b = tool_result) results
    /\ List.map block_tool_use_id results
       = List.map tu_id (List.filter is_delegation tus).
Proof.
  induction tus as [|tu rest IH]; intros acc st dels blocks st' Hrun.
  - injection Hrun as Hacc _. subst acc. exists []. simpl. rewrite app_nil_r.
    repeat split. constructor.
  - simpl in Hrun. unfold bind in Hrun.
    pose proof (delegate_answers tu acc st) as H1.
    destruct (Orchestrator.delegate catalog tu acc st) as [[[d1 b1]|err] st1]; [|discriminate].
    destruct H1 as (r1 & -> & T1 & I1).
    destruct (IH _ _ _ _ _ Hrun) as (r2 & -> & T2 & I2). simpl.
    exists (r1 ++ r2). rewrite <- app_assoc. split; [reflexivity|].
    split; [now apply Forall_app|].
    rewrite List.map_app, I1, I2. simpl. destruct (is_delegation tu); reflexivity.
Qed.

Lemma pairedOn_app select l1 l2 :
  pairedOn select l1 = true -> pairedOn select l2 = true -> pairedOn select (l1 ++ l2) = true.
Proof.
  induction l1 as [|m rest IH]; intros H1 H2; simpl in *; [assumption|].
  apply andb_prop in H1 as [Hm Hrest].
  rewrite IH by assumption. rewrite andb_true_r.
  destruct (requests m); [reflexivity|].
  destruct rest as [|reply rest']; [discriminate|]. exact Hm.
Qed.

(** Every conversation [orchestrate] returns is its starting conversation
    extended by turns in which exactly the requests named [delegate_to_agent]
    are answered. *)
Lemma orchestratorLoop_conversation n : forall msgs dels fr st res st',
  Orchestrator.orchestratorLoop oracle catalog prompt n msgs dels fr st = (Ok res, st') ->
  exists turns,
    Orchestrator.conversationHistory res = msgs ++ turns
    /\ pairedOn is_delegation turns = true.
Proof.
  induction n as [|n IH]; intros msgs dels fr st res st' Hrun.
  - injection Hrun as <- _. exists []. simpl. now rewrite app_nil_r.
  - simpl in Hrun. unfold bind at 1 in Hrun.
    destruct (callLLM oracle _ st) as [[response|err] st1]; [|discriminate].
    destruct (extractToolUse response) as [|tu tus] eqn:E.
    + injection Hrun as <- _. simpl. exists [assistantMessage response]. split; [reflexivity|].
      simpl. now rewrite requests_assistantMessage, E.
    + unfold bind in Hrun.
      destruct (Orchestrator.delegateAll catalog (tu :: tus) (dels, []) st1)
        as [[[d2 blocks]|err] st2] eqn:Hdel; [|discriminate].
      destruct (delegateAll_answers _ _ _ _ _ _ Hdel) as (results & -> & Hty & Hids).
      simpl in Hrun. destruct (IH _ _ _ _ _ _ Hrun) as (turns & Hconv & Hp).
      exists ([assistantMessage response; {| role := user; content := BlockContent results |}]
                ++ turns).
      split; [rewrite Hconv; now rewrite <- !app_assoc|].
      apply pairedOn_app; [|exact Hp].
      simpl. rewrite requests_assistantMessage, E, andb_true_r.
      apply bool_decide_eq_true. unfold resultIds. simpl.
      now rewrite resultIds_tool_results, Hids.
Qed.

End PairingFacts.

(** C2, the orchestrator on a reply that requests a tool other than
    [delegate_to_agent]: the request is appended to the conversation, no result
    is produced for it, the next user message carries no tool-result block, and
    the oracle is called again on that conversation.  The pairing invariant
    fails on the conversation [orchestrate] returns. *)
Theorem orchestrate_leaves_request_unanswered :
  let run := Orchestrator.orchestrate Stub.callsUnoffered Stub.catalog "You are DEVWEAVER."
               "find my tickets" [] Stub.start in
  let request := Stub.toolUse "toolu_1" "jira_search" (JS.JObj []) in
  option_map (fun res => Orchestrator.conversationHistory res)
    (match fst run with Ok res => Some res | Throw _ => None end)
  = Some [ {| role := user; content := TextContent "find my tickets" |};
           {| role := assistant; content := BlockContent [request] |};
           {| role := user; content := BlockContent [] |};
           {| role := assistant; content := BlockContent [Stub.textBlock "done"] |} ]
  /\ length (oracleCalls (log (snd run))) = 2%nat
  /\ pairedb
       [ {| role := user; content := TextContent "find my tickets" |};
         {| role := assistant; content := BlockContent [request] |};
         {| role := user; content := BlockContent [] |};
         {| role := assistant; content := BlockContent [Stub.textBlock "done"] |} ]
     = false.
Proof. vm_compute. repeat split. Qed.

(** The engine on the same reply: the unknown tool yields an error payload as
    the result of the request, and the conversation is paired. *)
Example runAgent_answers_unknown_tool :
  let run := Engine.runAgent Stub.callsUnoffered Stub.registry 25
               (Stub.options "find my tickets" None None) Stub.start in
  option_map (fun res => (result_messages res, pairedb (result_messages res)))
    (match fst run with Ok res => Some res | Throw _ => None end)
  = Some ([ {| role := user; content := TextContent "find my tickets" |};
            {| role := assistant;
               content := BlockContent [Stub.toolUse "toolu_1" "jira_search" (JS.JObj [])] |};
            {| role := user;
               content :=
                 BlockContent
                   [toolResultBlock (Some "toolu_1")
                      (JS.stringify (JS.JObj [("error", JS.JStr "Unknown tool: jira_search")]))] |};
            {| role := assistant; content := BlockContent [Stub.textBlock "done"] |} ],
          true).
Proof. vm_compute. reflexivity. Qed.

(** ** quickRoute *)

Lemma split_nonempty sep s : (1 <= length (JS.split sep s))%nat.
Proof.
  induction s as [|c s IH]; simpl; [lia|].
  destruct (Ascii.eqb c sep); simpl; [lia|].
  destruct (JS.split sep s); simpl; lia.
Qed.

(** The accumulating loop over the triggers is a sum. *)
Lemma triggerScore_sum lower triggerList :
  Orchestrator.triggerScore lower triggerList
  = fold_right Z.add 0
      (List.map (fun t => if JS.includes lower t
                          then Z.of_nat (length (JS.split " " t)) else 0) triggerList).
Proof.
  unfold Orchestrator.triggerScore.
  assert (H : forall acc,
             List.fold_left
               (fun score trigger =>
                  if JS.includes lower trigger
                  then score + Z.of_nat (length (JS.split " " trigger)) else score)
               triggerList acc
             = acc + fold_right Z.add 0
                       (List.map (fun t => if JS.includes lower t
                                           then Z.of_nat (length (JS.split " " t)) else 0)
                          triggerList)).
  { induction triggerList as [|t ts IH]; intros acc; simpl; [lia|].
    rewrite IH. destruct (JS.includes lower t); lia. }
  now rewrite H.
Qed.

Lemma triggerScore_nonneg lower triggerList : 0 <= Orchestrator.triggerScore lower triggerList.
Proof.
  rewrite triggerScore_sum. induction triggerList as [|t ts IH]; simpl; [lia|].
  destruct (JS.includes lower t); lia.
Qed.

Lemma triggerScore_zero lower triggerList :
  Orchestrator.triggerScore lower triggerList = 0 <->
  forall t, In t triggerList -> JS.includes lower t = false.
Proof.
  pose proof (triggerScore_nonneg lower) as Hnn. revert Hnn.
  setoid_rewrite triggerScore_sum. intros Hnn.
  induction triggerList as [|t ts IH]; simpl.
  - split; [intros _ ? []|reflexivity].
  - pose proof (split_nonempty " " t) as Hlen. specialize (Hnn ts).
    destruct (JS.includes lower t) eqn:E.
    + split; [lia|]. intros H. specialize (H t (or_introl eq_refl)). congruence.
    + rewrite Z.add_0_l, IH. split.
      * intros H x [<-|Hx]; auto.
      * intros H x Hx. apply H. now right.
Qed.

Section RouteFacts.
Context {W : Type}.
Variable toLowerCase : string -> string.

Let entryScore (lower : string) (entry : string * Orchestrator.SubAgentDefinition W) : Z :=
  Orchestrator.triggerScore lower (Orchestrator.triggers (snd entry)).

Let step (lower : string) (best : option string * Z)
    (entry : string * Orchestrator.SubAgentDefinition W) : option string * Z :=
  if entryScore lower entry >? snd best then (Some (fst entry), entryScore lower entry) else best.

(** The scan keeps the first entry that reaches the highest score above the
    starting score, if there is one. *)
Lemma scan_best lower (catalog : Orchestrator.Catalog W) : forall best,
  let final := List.fold_left (step lower) catalog best in
  (final = best /\ forall e, In e catalog -> entryScore lower e <= snd best)
  \/ exists before key agent after,
       catalog = before ++ (key, agent) :: after
       /\ final = (Some key, entryScore lower (key, agent))
       /\ snd best < entryScore lower (key, agent)
       /\ (forall e, In e before -> entryScore lower e < entryScore lower (key, agent))
       /\ (forall e, In e after -> entryScore lower e <= entryScore lower (key, agent)).
Proof.
  induction catalog as [|[k a] rest IH]; intros best; cbn [List.fold_left].
  - left. split; [reflexivity|]. intros e [].
  - destruct (Z.gtb_spec (entryScore lower (k, a)) (snd best)) as [Hgt|Hle].
    + assert (Hs : step lower best (k, a) = (Some k, entryScore lower (k, a))).
      { unfold step. cbn [fst].
        destruct (Z.gtb_spec (entryScore lower (k, a)) (snd best)); [reflexivity|lia]. }
      rewrite Hs.
      destruct (IH (Some k, entryScore lower (k, a))) as [[Hsame Hall]|Hex].
      * right. exists [], k, a, rest. cbn [snd fst] in *.
        split; [reflexivity|]. split; [exact Hsame|]. split; [exact Hgt|].
        split; [intros e []|exact Hall].
      * right. destruct Hex as (before & key & agent & after & Hcat & Hfin & Hlt & Hb & Ha).
        exists ((k, a) :: before), key, agent, after. cbn [snd fst] in *.
        split; [now rewrite Hcat|]. split; [exact Hfin|]. split; [lia|].
        split; [|exact Ha]. intros e [<-|He]; [exact Hlt|now apply Hb].
    + assert (Hs : step lower best (k, a) = best).
      { unfold step.
        destruct (Z.gtb_spec (entryScore lower (k, a)) (snd best)); [lia|reflexivity]. }
      rewrite Hs.
      destruct (IH best) as [[Hsame Hall]|Hex].
      * left. split; [exact Hsame|]. intros e [<-|He]; [exact Hle|now apply Hall].
      * right. destruct Hex as (before & key & agent & after & Hcat & Hfin & Hlt & Hb & Ha).
        exists ((k, a) :: before), key, agent, after.
        split; [now rewrite Hcat|]. split; [exact Hfin|]. split; [exact Hlt|].
        split; [|exact Ha]. intros e [<-|He]; [lia|now apply Hb].
Qed.

(** [quickRoute] on any catalog, in terms of the scores the code computes. *)
Lemma quickRoute_scan (catalog : Orchestrator.Catalog W) (userMessage : string) :
  let lower := toLowerCase userMessage in
  match Orchestrator.quickRoute toLowerCase catalog userMessage with
  | None => forall e, In e catalog -> entryScore lower e = 0
  | Some key =>
      exists before agent after,
        catalog = before ++ (key, agent) :: after
        /\ 0 < entryScore lower (key, agent)
        /\ (forall e, In e before -> entryScore lower e < entryScore lower (key, agent))
        /\ (forall e, In e after -> entryScore lower e <= entryScore lower (key, agent))
  end.
Proof.
  intros lower. unfold Orchestrator.quickRoute. fold lower.
  change (List.fold_left _ catalog (None, 0)) with (List.fold_left (step lower) catalog (None, 0)).
  destruct (scan_best lower catalog (None, 0)) as [[Hsame Hall]|Hex].
  - rewrite Hsame. cbn [snd fst]. change (0 >? 0) with false. cbv iota.
    intros e He. specialize (Hall e He). cbn [snd] in Hall.
    pose proof (triggerScore_nonneg lower (Orchestrator.triggers (snd e))).
    unfold entryScore in *. lia.
  - destruct Hex as (before & key & agent & after & Hcat & Hfin & Hlt & Hb & Ha).
    rewrite Hfin. cbn [snd fst] in *.
    destruct (Z.gtb_spec (entryScore lower (key, agent)) 0) as [Hgt|Hle]; [|lia].
    exists before, agent, after.
    split; [exact Hcat|]. split; [lia|]. split; [exact Hb|exact Ha].
Qed.

End RouteFacts.

(** On phrases whose pieces between single spaces are their words, the score
    the code accumulates is the score of the specification. *)
Lemma triggerScore_routeScore lower triggerList :
  Forall plainTrigger triggerList ->
  Orchestrator.triggerScore lower triggerList = routeScore (JS.includes lower) triggerList.
Proof.
  intros H. rewrite triggerScore_sum. unfold routeScore.
  induction H as [|t ts [_ Hwords] _ IH]; [reflexivity|].
  simpl. now rewrite Hwords, IH.
Qed.

(** *** Lower-casing and letter case *)

Lemma isUpper_code a : isUpper a = true -> (65 <= nat_of_ascii a <= 90)%nat.
Proof.
  unfold isUpper. intros H. apply andb_prop in H as [H1 H2].
  apply Nat.leb_le in H1, H2. lia.
Qed.

Lemma lower_ascii_upper b :
  isUpper b = true -> JS.lower_ascii b = ascii_of_nat (nat_of_ascii b + 32).
Proof. unfold JS.lower_ascii, isUpper. cbv zeta. now intros ->. Qed.

Lemma lower_ascii_other b : isUpper b = false -> JS.lower_ascii b = b.
Proof. unfold JS.lower_ascii, isUpper. cbv zeta. now intros ->. Qed.

Lemma lower_ascii_fixed a : JS.lower_ascii a = a -> isUpper a = false.
Proof.
  intros H. destruct (isUpper a) eqn:E; [|reflexivity]. exfalso.
  pose proof (isUpper_code a E) as Hc.
  rewrite (lower_ascii_upper a E) in H. apply (f_equal nat_of_ascii) in H.
  rewrite nat_ascii_embedding in H by lia. lia.
Qed.

(** A character that is not an upper-case letter equals the lower-cased form of
    another exactly when the two are the same letter. *)
Lemma sameLetter_lower a b :
  isUpper a = false -> Ascii.eqb a (JS.lower_ascii b) = sameLetter a b.
Proof.
  intros Ha. unfold sameLetter. rewrite Ha. cbn [andb]. rewrite orb_false_r.
  destruct (isUpper b) eqn:Eb.
  - pose proof (isUpper_code b Eb) as Hc.
    rewrite (lower_ascii_upper b Eb). cbn [andb].
    assert (Ascii.eqb a b = false) as ->.
    { destruct (Ascii.eqb_spec a b) as [->|_]; [congruence|reflexivity]. }
    cbn [orb].
    destruct (Ascii.eqb_spec a (ascii_of_nat (nat_of_ascii b + 32))) as [E|N];
      destruct (Nat.eqb_spec (nat_of_ascii a) (nat_of_ascii b + 32)) as [E'|N'];
      try reflexivity; exfalso.
    + apply N'. rewrite E. apply nat_ascii_embedding. lia.
    + apply N. rewrite <- E'. symmetry. apply ascii_nat_embedding.
  - rewrite (lower_ascii_other b Eb). cbn [andb]. now rewrite orb_false_r.
Qed.

Lemma prefix_ignoring_case m : forall t,
  JS.toLowerCaseASCII t = t ->
  String.prefix t (JS.toLowerCaseASCII m) = startsIgnoringCase t m.
Proof.
  induction m as [|b m IH]; intros [|a t] Ht; try reflexivity.
  simpl in Ht. injection Ht as Ha Ht.
  cbn [JS.toLowerCaseASCII String.prefix startsIgnoringCase].
  rewrite <- (sameLetter_lower a b (lower_ascii_fixed a Ha)), <- (IH t Ht).
  destruct (ascii_dec a (JS.lower_ascii b)) as [E|N].
  - now rewrite E, Ascii.eqb_refl.
  - destruct (Ascii.eqb_spec a (JS.lower_ascii b)); [contradiction|reflexivity].
Qed.

Lemma includes_unfold s t :
  JS.includes s t
  = (if String.prefix t s then true
     else match s with
          | EmptyString => false
          | String _ rest => JS.includes rest t
          end).
Proof. now destruct s. Qed.

(** On a lower-case phrase, looking for it in the lower-cased message is
    looking for it in the message, letter case aside. *)
Lemma includes_ignoring_case m : forall t,
  JS.toLowerCaseASCII t = t ->
  JS.includes (JS.toLowerCaseASCII m) t = containsIgnoringCase m t.
Proof.
  induction m as [|b m IH]; intros t Ht; rewrite includes_unfold.
  - rewrite (prefix_ignoring_case "" t Ht). cbn [containsIgnoringCase].
    now destruct (startsIgnoringCase t "").
  - rewrite (prefix_ignoring_case (String b m) t Ht).
    cbn [JS.toLowerCaseASCII containsIgnoringCase]. rewrite (IH t Ht).
    now destruct (startsIgnoringCase t (String b m)).
Qed.

Lemma routeScore_ext (f g : string -> bool) (triggerList : list string) :
  (forall t, In t triggerList -> f t = g t) ->
  routeScore f triggerList = routeScore g triggerList.
Proof.
  unfold routeScore. induction triggerList as [|t rest IH]; intros H; [reflexivity|].
  cbn [List.map fold_right]. rewrite (H t (or_introl eq_refl)), IH; [reflexivity|].
  intros t' Ht'. apply H. now right.
Qed.

Section CatalogFacts.
Context {W : Type}.
Variable toLowerCase : string -> string.
Variables f1 f2 f3 f4 f5 f6 f7 f8 : option JS.Json -> M W RunAgentResult.

Let catalog : Orchestrator.Catalog W := Orchestrator.SUB_AGENTS f1 f2 f3 f4 f5 f6 f7 f8.

(** Every trigger phrase of the catalog is lower-case, and its pieces between
    single spaces are its words. *)
Lemma SUB_AGENTS_triggers_plain :
  Forall (fun e => Forall plainTrigger (Orchestrator.triggers (snd e))) catalog.
Proof. repeat constructor. Qed.

Lemma SUB_AGENTS_trigger_plain e t :
  In e catalog -> In t (Orchestrator.triggers (snd e)) -> plainTrigger t.
Proof.
  intros He Ht. pose proof SUB_AGENTS_triggers_plain as H.
  rewrite List.Forall_forall in H. specialize (H e He).
  rewrite List.Forall_forall in H. now apply H.
Qed.

Lemma SUB_AGENTS_score lower e :
  In e catalog ->
  Orchestrator.triggerScore lower (Orchestrator.triggers (snd e))
  = routeScore (JS.includes lower) (Orchestrator.triggers (snd e)).
Proof.
  intros He. apply triggerScore_routeScore.
  pose proof SUB_AGENTS_triggers_plain as H. rewrite List.Forall_forall in H. now apply H.
Qed.

(** On the catalog, [quickRoute] in terms of what it computes. *)
Lemma quickRoute_scores (userMessage : string) :
  let occurs := fun t => JS.includes (toLowerCase userMessage) t in
  let score := fun e : string * Orchestrator.SubAgentDefinition W =>
                 routeScore occurs (Orchestrator.triggers (snd e)) in
  match Orchestrator.quickRoute toLowerCase catalog userMessage with
  | None => forall e, In e catalog -> score e = 0
  | Some key =>
      exists before agent after,
        catalog = before ++ (key, agent) :: after
        /\ 0 < score (key, agent)
        /\ (forall e, In e before -> score e < score (key, agent))
        /\ (forall e, In e after -> score e <= score (key, agent))
  end.
Proof.
  intros occurs score.
  pose proof (quickRoute_scan toLowerCase catalog userMessage) as H. cbv zeta in H.
  destruct (Orchestrator.quickRoute toLowerCase catalog userMessage) as [key|].
  - destruct H as (before & agent & after & Hcat & Hpos & Hb & Ha).
    assert (Hin : forall e, In e before \/ e = (key, agent) \/ In e after -> In e catalog).
    { intros e He. rewrite Hcat. apply in_or_app.
      destruct He as [H'|[->|H']]; [now left|right; now left|right; now right]. }
    exists before, agent, after. unfold score, occurs.
    rewrite <- (SUB_AGENTS_score _ (key, agent)) by (apply Hin; tauto).
    split; [exact Hcat|]. split; [exact Hpos|]. split.
    + intros e He. rewrite <- (SUB_AGENTS_score _ e) by (apply Hin; tauto).
      now apply Hb.
    + intros e He. rewrite <- (SUB_AGENTS_score _ e) by (apply Hin; tauto).
      now apply Ha.
  - intros e He. unfold score, occurs. rewrite <- (SUB_AGENTS_score _ e He).
    now apply H.
Qed.

(** C6. [quickRoute] is a function of the message alone.  A trigger phrase
    counts when it is a substring of the message, letter case aside: for a
    message of ASCII characters this is spelled out character by character; for
    any other message, letter case is what the runtime's [toLowerCase] makes of
    it.  With the score of a Sub-Agent being the summed word counts of its
    trigger phrases that count, [quickRoute] returns the key of the first
    catalog entry, in catalog order, whose score is the highest and positive
    (entries before it score strictly less, entries after it at most as much),
    and it returns null exactly when no trigger phrase of any entry counts.
    The three examples of the specification hold, in capitals too.  Of the
    runtime's [toLowerCase] only what it does to ASCII strings is assumed. *)
Theorem quickRoute_semantics (userMessage : string) :
  lowersASCII toLowerCase ->
  let occurs := phraseOccurs toLowerCase userMessage in
  let score := fun e : string * Orchestrator.SubAgentDefinition W =>
                 routeScore occurs (Orchestrator.triggers (snd e)) in
  match Orchestrator.quickRoute toLowerCase catalog userMessage with
  | None => forall e, In e catalog -> score e = 0
  | Some key =>
      exists before agent after,
        catalog = before ++ (key, agent) :: after
        /\ 0 < score (key, agent)
        /\ (forall e, In e before -> score e < score (key, agent))
        /\ (forall e, In e after -> score e <= score (key, agent))
  end
  /\ (Orchestrator.quickRoute toLowerCase catalog userMessage = None <->
      forall e t, In e catalog -> In t (Orchestrator.triggers (snd e)) -> occurs t = false)
  /\ Orchestrator.quickRoute toLowerCase catalog "create a jira ticket" = Some "jira_management"
  /\ Orchestrator.quickRoute toLowerCase catalog "write unit tests for auth" = Some "code_test"
  /\ Orchestrator.quickRoute toLowerCase catalog "completely unrelated gibberish xyz" = None
  /\ Orchestrator.quickRoute toLowerCase catalog "Create a JIRA Ticket" = Some "jira_management"
  /\ Orchestrator.quickRoute toLowerCase catalog "WRITE UNIT TESTS FOR AUTH" = Some "code_test".
Proof.
  intros Hlower occurs score.
  assert (Hocc : forall e t, In e catalog -> In t (Orchestrator.triggers (snd e)) ->
                   occurs t = JS.includes (toLowerCase userMessage) t).
  { intros e t He Ht. unfold occurs, phraseOccurs.
    destruct (JS.isASCII userMessage) eqn:Hascii; [|reflexivity].
    rewrite (Hlower userMessage Hascii). symmetry.
    apply includes_ignoring_case. now destruct (SUB_AGENTS_trigger_plain e t He Ht). }
  assert (Hscore : forall e, In e catalog ->
                     score e = routeScore (JS.includes (toLowerCase userMessage))
                                 (Orchestrator.triggers (snd e))).
  { intros e He. unfold score. apply routeScore_ext. intros t Ht. now apply (Hocc e). }
  assert (Hmain :
    match Orchestrator.quickRoute toLowerCase catalog userMessage with
    | None => forall e, In e catalog -> score e = 0
    | Some key =>
        exists before agent after,
          catalog = before ++ (key, agent) :: after
          /\ 0 < score (key, agent)
          /\ (forall e, In e before -> score e < score (key, agent))
          /\ (forall e, In e after -> score e <= score (key, agent))
    end).
  { pose proof (quickRoute_scores userMessage) as H. cbv zeta in H.
    destruct (Orchestrator.quickRoute toLowerCase catalog userMessage) as [key|].
    - destruct H as (before & agent & after & Hcat & Hpos & Hb & Ha).
      assert (Hin : forall e, In e before \/ e = (key, agent) \/ In e after -> In e catalog).
      { intros e He. rewrite Hcat. apply in_or_app.
        destruct He as [H'|[->|H']]; [now left|right; now left|right; now right]. }
      exists before, agent, after.
      rewrite (Hscore (key, agent)) by (apply Hin; tauto).
      split; [exact Hcat|]. split; [exact Hpos|]. split.
      + intros e He. rewrite (Hscore e) by (apply Hin; tauto). now apply Hb.
      + intros e He. rewrite (Hscore e) by (apply Hin; tauto). now apply Ha.
    - intros e He. rewrite (Hscore e He). now apply H. }
  split; [exact Hmain|].
  assert (Hzero : forall e, In e catalog ->
            (score e = 0 <->
             forall t, In t (Orchestrator.triggers (snd e)) -> occurs t = false)).
  { intros e He. rewrite (Hscore e He), <- (SUB_AGENTS_score _ e He).
    rewrite triggerScore_zero. split; intros H t Ht.
    - rewrite (Hocc e t He Ht). now apply H.
    - rewrite <- (Hocc e t He Ht). now apply H. }
  split.
  { destruct (Orchestrator.quickRoute toLowerCase catalog userMessage) as [key|].
    - split; [discriminate|]. intros Hnone. exfalso.
      destruct Hmain as (before & agent & after & Hcat & Hpos & _).
      assert (He : In (key, agent) catalog).
      { rewrite Hcat. apply in_or_app. right. now left. }
      assert (score (key, agent) = 0)
        by (apply Hzero; [exact He|]; intros t Ht; now apply (Hnone (key, agent))).
      lia.
    - split; [|reflexivity]. intros _ e t He Ht.
      exact (proj1 (Hzero e He) (Hmain e He) t Ht). }
  unfold Orchestrator.quickRoute.
  rewrite !Hlower by reflexivity.
  vm_compute. repeat split.
Qed.

End CatalogFacts.

(** The routing claim on the stubs, with the message in capitals: two trigger
    phrases of the ticket agent occur in it, letter case aside, one word each,
    and no other agent scores as much. *)
Lemma quickRoute_semantics_witness :
  let message := "Open a TICKET for the Sprint" in
  let score := fun e : string * Orchestrator.SubAgentDefinition Stub.World =>
                 routeScore (containsIgnoringCase message) (Orchestrator.triggers (snd e)) in
  Orchestrator.quickRoute JS.toLowerCaseASCII Stub.catalog message = Some "jira_management"
  /\ containsIgnoringCase message "ticket" = true
  /\ containsIgnoringCase message "sprint" = true
  /\ containsIgnoringCase message "jira" = false
  /\ option_map (fun agent => score ("jira_management", agent))
       (JS.assoc "jira_management" Stub.catalog) = Some 2
  /\ exists before agent after,
       Stub.catalog = before ++ ("jira_management", agent) :: after
       /\ 0 < score ("jira_management", agent)
       /\ (forall e, In e before -> score e < score ("jira_management", agent))
       /\ (forall e, In e after -> score e <= score ("jira_management", agent)).
Proof.
  intros message score.
  assert (Hroute : Orchestrator.quickRoute JS.toLowerCaseASCII Stub.catalog message
                   = Some "jira_management") by (vm_compute; reflexivity).
  split; [exact Hroute|]. do 4 (split; [reflexivity|]).
  destruct (quickRoute_semantics JS.toLowerCaseASCII
              (Stub.subAgent "feature") (Stub.subAgent "jira") (Stub.subAgent "analysis")
              (Stub.subAgent "writer") (Stub.subAgent "test") (Stub.subAgent "review")
              (Stub.subAgent "document") (Stub.subAgent "diagram") message)
    as (Hmain & _).
  - intros s _. reflexivity.
  - change (Orchestrator.SUB_AGENTS _ _ _ _ _ _ _ _) with Stub.catalog in Hmain.
    rewrite Hroute in Hmain. exact Hmain.
Defined.

(** ** The tool registry *)

Section RegistryFacts.
Context {W : Type}.
Implicit Types (reg : Registry.ToolRegistry W) (n : string).

Lemma get_map_set_eq reg n entry : Registry.get (Registry.map_set n entry reg) n = Some entry.
Proof.
  unfold Registry.get. induction reg as [|[k e] rest IH]; simpl.
  - now rewrite String.eqb_refl.
  - destruct (String.eqb k n) eqn:E; simpl; [now rewrite String.eqb_refl|now rewrite E].
Qed.

Lemma get_map_set_ne reg n n' entry :
  n <> n' -> Registry.get (Registry.map_set n entry reg) n' = Registry.get reg n'.
Proof.
  intros Hne. unfold Registry.get. induction reg as [|[k e] rest IH]; simpl.
  - destruct (String.eqb_spec n n'); [contradiction|reflexivity].
  - destruct (String.eqb_spec k n) as [->|Hk]; simpl.
    + destruct (String.eqb_spec n n'); [contradiction|reflexivity].
    + destruct (String.eqb k n'); [reflexivity|exact IH].
Qed.

Lemma get_definitions reg n entry :
  Registry.get reg n = Some entry -> In (Registry.definition entry) (Registry.definitions reg).
Proof.
  unfold Registry.get, Registry.definitions. induction reg as [|[k e] rest IH]; simpl; [discriminate|].
  destruct (String.eqb k n).
  - intros [= ->]. now left.
  - intros H. right. now apply IH.
Qed.

Lemma has_get reg n : Registry.has reg n = false -> Registry.get reg n = None.
Proof. unfold Registry.has. now destruct (Registry.get reg n). Qed.

(** The filter step of [definitionsFor] drops exactly the names whose lookup
    fails, so the result is the lookups that succeed, in the order of the filter. *)
Lemma definitionsFor_lookups reg ns :
  Registry.definitionsFor reg ns
  = omap (fun n => option_map Registry.definition (Registry.get reg n)) ns.
Proof.
  unfold Registry.definitionsFor. induction ns as [|n ns IH]; [reflexivity|].
  simpl. destruct (Registry.has reg n) eqn:E.
  - cbn. now rewrite IH.
  - cbn. rewrite (has_get reg n E). cbn. exact IH.
Qed.

(** C7, as the code has it.  [definitions()] includes the spec of every entry
    of the registry, in particular the spec just registered.  [definitionsFor]
    returns, in the order of the filter list and once per occurrence, the specs
    of the filter names that are registered and nothing for the other names; on
    the empty filter list it returns the empty list. *)
Theorem definitions_queries reg :
  (forall d h, In d (Registry.definitions (Registry.register reg d h)))
  /\ (forall n entry, Registry.get reg n = Some entry ->
        In (Registry.definition entry) (Registry.definitions reg))
  /\ Registry.definitionsFor reg [] = []
  /\ (forall ns,
        Registry.definitionsFor reg ns
        = omap (fun n => option_map Registry.definition (Registry.get reg n)) ns)
  /\ (forall ns ns',
        Registry.definitionsFor reg (ns ++ ns')
        = Registry.definitionsFor reg ns ++ Registry.definitionsFor reg ns')
  /\ (forall n ns,
        Registry.has reg n = false ->
        Registry.definitionsFor reg (n :: ns) = Registry.definitionsFor reg ns).
Proof.
  split; [|split; [|split; [|split; [|split]]]].
  - intros d h.
    apply (get_definitions _ (name d) {| Registry.definition := d; Registry.handler := h |}).
    apply get_map_set_eq.
  - apply get_definitions.
  - reflexivity.
  - apply definitionsFor_lookups.
  - intros ns ns'. rewrite !definitionsFor_lookups. apply omap_app.
  - intros n ns Hn. unfold Registry.definitionsFor. simpl. now rewrite Hn.
Qed.

(** Registering a catalog whose names are distinct stores every tool under its name. *)
Lemma registerAll_other reg (entries : list (Registry.Tool W)) n :
  ~ In n (List.map Registry.tool_name entries) ->
  Registry.get (Registry.registerAll reg entries) n = Registry.get reg n.
Proof.
  unfold Registry.registerAll. revert reg.
  induction entries as [|t ts IH]; intros reg Hn; [reflexivity|].
  simpl in *. rewrite IH by tauto.
  unfold Registry.register. simpl. apply get_map_set_ne. tauto.
Qed.

Lemma registerAll_get reg (entries : list (Registry.Tool W)) tool :
  In tool entries ->
  List.NoDup (List.map Registry.tool_name entries) ->
  Registry.get (Registry.registerAll reg entries) (Registry.tool_name tool)
  = Some {| Registry.definition :=
              {| name := Registry.tool_name tool;
                 description := Registry.tool_description tool;
                 input_schema := Registry.tool_input_schema tool |};
            Registry.handler := Registry.tool_execute tool |}.
Proof.
  revert reg. induction entries as [|t ts IH]; intros reg Hin Hnd; [destruct Hin|].
  simpl in Hnd. apply List.NoDup_cons_iff in Hnd as [Hfresh Hnd].
  destruct Hin as [->|Hin].
  - unfold Registry.registerAll. simpl.
    change (Registry.get (Registry.registerAll
              (Registry.register reg
                 {| name := Registry.tool_name tool;
                    description := Registry.tool_description tool;
                    input_schema := Registry.tool_input_schema tool |}
                 (Registry.tool_execute tool)) ts) (Registry.tool_name tool) = 
            Some {| Registry.definition :=
                      {| name := Registry.tool_name tool;
                         description := Registry.tool_description tool;
                         input_schema := Registry.tool_input_schema tool |};
                    Registry.handler := Registry.tool_execute tool |}).
    rewrite registerAll_other by exact Hfresh.
    unfold Registry.register. simpl. apply get_map_set_eq.
  - unfold Registry.registerAll. simpl. now apply IH.
Qed.

End RegistryFacts.

(** C7 as stated fails on the empty filter list: the filtered query then returns
    no spec at all, whatever is registered. *)
Lemma empty_filter_lists_nothing :
  Registry.names Stub.registry
  = ["test_tool"; "bad_tool"; "code_read_file"; "bitbucket_list_prs"]
  /\ length (Registry.definitions Stub.registry) = 4%nat
  /\ Registry.definitionsFor Stub.registry [] = [].
Proof. vm_compute. repeat split. Qed.

(** ** The RPC server *)

Section ServerFacts.
Context {W : Type}.
Variable JSON_parse : string -> Res JS.Json.
Variable currentLevel : Z.
Variable util_format : list string -> string.
Variable tools : list (Registry.Tool W).

Lemma findTool_unique tool :
  In tool tools ->
  List.NoDup (List.map Registry.tool_name tools) ->
  MCPServer.findTool tools (Some (JS.JStr (Registry.tool_name tool))) = Some tool.
Proof.
  unfold MCPServer.findTool. induction tools as [|t ts IH]; intros Hin Hnd; [destruct Hin|].
  simpl in Hnd. apply List.NoDup_cons_iff in Hnd as [Hfresh Hnd]. simpl.
  destruct Hin as [->|Hin].
  - now rewrite String.eqb_refl.
  - destruct (String.eqb_spec (Registry.tool_name tool) (Registry.tool_name t)) as [E|_].
    + exfalso. apply Hfresh. rewrite <- E. now apply List.in_map.
    + now apply IH.
Qed.

Lemma findTool_absent n :
  ~ In n (List.map Registry.tool_name tools) ->
  MCPServer.findTool tools (Some (JS.JStr n)) = None.
Proof.
  unfold MCPServer.findTool. induction tools as [|t ts IH]; intros Hout; [reflexivity|].
  simpl in *. destruct (String.eqb_spec n (Registry.tool_name t)) as [E|_]; [|apply IH].
  - exfalso. apply Hout. left. now symmetry.
  - intros H. apply Hout. now right.
Qed.

(** A diagnostic line is one write to standard output at level info or below
    and nothing above it. *)
Lemma logged_state (st : St W) (line : string) :
  (if currentLevel <=? Logger.LEVELS_info
   then (Ok tt, {| world := world st; log := log st ++ [EvStdout line] |})
   else (Ok tt, st))
  = (Ok tt, {| world := world st;
               log := log st ++ List.map EvStdout (printed currentLevel line) |}).
Proof.
  unfold printed, Logger.LEVELS_info. destruct (currentLevel <=? 1); [reflexivity|].
  simpl. rewrite app_nil_r. now destruct st.
Qed.

Lemma Logger_info_spec (text : string) (st : St W) :
  Logger.info currentLevel util_format [text] st
  = (Ok tt, {| world := world st;
               log := log st
                      ++ List.map EvStdout (printed currentLevel (infoLine util_format text)) |}).
Proof.
  rewrite <- logged_state. unfold Logger.info, Logger.console_log, stdout_write, ret, infoLine.
  now destruct (currentLevel <=? Logger.LEVELS_info).
Qed.

Lemma Logger_tool_spec (n text : string) (st : St W) :
  Logger.tool currentLevel util_format n [text] st
  = (Ok tt, {| world := world st;
               log := log st
                      ++ List.map EvStdout (printed currentLevel (toolLine util_format n text)) |}).
Proof.
  rewrite <- logged_state. unfold Logger.tool, Logger.console_log, stdout_write, ret, toolLine.
  now destruct (currentLevel <=? Logger.LEVELS_info).
Qed.

(** C1, as the code has it.  The server answers from its own catalog, the list
    fixed when it is constructed, and never looks into the Tool Registry.  For a
    tool of that catalog (names distinct), [tools/list] lists it as
    [{name, description, inputSchema}], and [tools/call] with its name and
    arguments prints its diagnostic line, runs its handler on the arguments and
    answers with the value wrapped as a single text content block (a string as
    it is, any other value pretty-printed), or with error -32603 when the
    handler throws: the same outcome, in the same state, that [execute] has on
    a registry into which that catalog was registered.  A tool that is in the
    Tool Registry only is not listed, and [tools/call] for it answers -32602
    without running anything, while [execute] runs its handler. *)
Theorem server_serves_its_own_catalog
    (tool : Registry.Tool W) (id : option JS.Json) (fields : list (string * JS.Json))
    (args : JS.Json) (reg : Registry.ToolRegistry W) (st : St W)
    (other : string) (entry : Registry.ToolEntry W) (otherFields : list (string * JS.Json))
    (otherArgs : JS.Json) :
  In tool tools ->
  List.NoDup (List.map Registry.tool_name tools) ->
  JS.assoc "name" fields = Some (JS.JStr (Registry.tool_name tool)) ->
  JS.assoc "arguments" fields = Some args ->
  Registry.get reg other = Some entry ->
  ~ In other (List.map Registry.tool_name tools) ->
  JS.assoc "name" otherFields = Some (JS.JStr other) ->
  (exists listed,
     MCPServer.resp_result (MCPServer.handleListTools tools id)
     = Some (JS.JObj [("tools", JS.JArr listed)])
     /\ In (JS.JObj [ ("name", JS.JStr (Registry.tool_name tool));
                      ("description", JS.JStr (Registry.tool_description tool));
                      ("inputSchema", Registry.tool_input_schema tool) ]) listed
     /\ forall item, In item listed -> JS.prop "name" item <> Some (JS.JStr other))
  /\ MCPServer.handleCallTool currentLevel util_format tools id (Some (JS.JObj fields)) st
     = match Registry.execute (Registry.registerAll reg tools)
               (Registry.tool_name tool) (Some args)
               {| world := world st;
                  log := log st
                         ++ List.map EvStdout
                              (printed currentLevel
                                 (toolLine util_format (Registry.tool_name tool)
                                    "Executing...")) |} with
       | (Ok r, st') =>
           (Ok (MCPServer.resultResponse id
                  (JS.JObj [("content",
                             JS.JArr [JS.JObj [("type", JS.JStr "text");
                                               ("text",
                                                JS.JStr match r with
                                                        | JS.JStr text => text
                                                        | _ => JS.stringifyPretty r
                                                        end)]])])),
            st')
       | (Throw err, st') =>
           (Ok (MCPServer.errorResponse id (-32603) "Tool execution failed"
                  (Some (JS.JStr match err with
                                 | ErrorObj message => message
                                 | NonError _ text => text
                                 end))),
            st')
       end
  /\ MCPServer.handleCallTool currentLevel util_format tools id (Some (JS.JObj otherFields)) st
     = (Ok (MCPServer.errorResponse id (-32602) ("Tool not found: " +:+ other) None), st)
  /\ Registry.execute reg other (Some otherArgs) st
     = invoke other (Registry.handler entry) (Some otherArgs) st.
Proof.
  intros Hin Hnd Hname Hargs Hreg Hout Hother. split; [|split; [|split]].
  - exists (List.map (MCPServer.listedTool) tools). split; [reflexivity|]. split.
    + now apply (List.in_map MCPServer.listedTool).
    + intros item Hitem E. apply List.in_map_iff in Hitem as (t & <- & Ht).
      simpl in E. injection E as E.
      apply Hout. rewrite <- E. now apply List.in_map.
  - unfold MCPServer.handleCallTool. simpl. rewrite Hname, Hargs.
    rewrite (findTool_unique tool Hin Hnd).
    unfold Registry.execute. rewrite (registerAll_get reg tools tool Hin Hnd). simpl.
    unfold tryCatch, bind at 1. rewrite Logger_tool_spec. unfold bind, ret.
    now destruct (invoke (Registry.tool_name tool) (Registry.tool_execute tool) (Some args) _)
      as [[r|err] st'].
  - unfold MCPServer.handleCallTool. simpl. rewrite Hother.
    now rewrite (findTool_absent other Hout).
  - unfold Registry.execute. now rewrite Hreg.
Qed.

(** What [sendResponse] puts on the wire for the two kinds of response. *)
Lemma wire_result id r :
  JS.stringify (MCPServer.responseJson (MCPServer.resultResponse id r)) +:+ JS.newline
  = wire id ("result", r).
Proof. unfold wire. now destruct id. Qed.

Lemma wire_error id c m d :
  JS.stringify (MCPServer.responseJson (MCPServer.errorResponse id c m d)) +:+ JS.newline
  = wire id (wireError c m d).
Proof. unfold wire, wireError. now destruct id, d. Qed.

Lemma isString_other v a b : JS.isString v a = true -> a <> b -> JS.isString v b = false.
Proof.
  unfold JS.isString. destruct v as [[| | |s| |]|]; try discriminate.
  intros Ha Hne. apply String.eqb_eq in Ha. subst. now apply String.eqb_neq.
Qed.

(** All the ways a [tools/call] ends. *)
Lemma handleCallTool_outcomes (id params : option JS.Json) (st : St W) :
  let args := from_option (JS.prop "arguments") None params in
  let logs := match calledTool tools params with
              | Some tool =>
                  printed currentLevel
                    (toolLine util_format (Registry.tool_name tool) "Executing...")
              | None => []
              end in
  (exists tool r w',
     calledTool tools params = Some tool
     /\ Registry.tool_execute tool args (world st) = (Ok r, w')
     /\ MCPServer.handleCallTool currentLevel util_format tools id params st
        = (Ok (MCPServer.resultResponse id (MCPServer.textContent (MCPServer.resultText r))),
           {| world := w';
              log := log st ++ List.map EvStdout logs
                     ++ [EvTool (Registry.tool_name tool) args (Ok r)] |}))
  \/ (exists tool err w',
        calledTool tools params = Some tool
        /\ Registry.tool_execute tool args (world st) = (Throw err, w')
        /\ MCPServer.handleCallTool currentLevel util_format tools id params st
           = (Ok (MCPServer.errorResponse id (-32603) "Tool execution failed"
                    (Some (JS.JStr (errorText err)))),
              {| world := w';
                 log := log st ++ List.map EvStdout logs
                        ++ [EvTool (Registry.tool_name tool) args (Throw err)] |}))
  \/ (calledTool tools params = None
      /\ exists text,
           MCPServer.handleCallTool currentLevel util_format tools id params st
           = (Ok (MCPServer.errorResponse id (-32602) text None), st)
           /\ (text = "Invalid params"
               \/ exists p shown, params = Some p
                                  /\ JS.String_ (JS.prop "name" p) = Some shown
                                  /\ text = "Tool not found: " +:+ shown))
  \/ (calledTool tools params = None
      /\ (exists p, params = Some p /\ JS.String_ (JS.prop "name" p) = None)
      /\ MCPServer.handleCallTool currentLevel util_format tools id params st
         = (Throw cannotConvert, st)).
Proof.
  intros args logs. subst args logs. unfold MCPServer.handleCallTool, calledTool.
  destruct params as [p|];
    [|right; right; left; split; [reflexivity|];
      exists "Invalid params"; split; [reflexivity|now left]].
  destruct (MCPServer.isObjectLike p);
    [|right; right; left; split; [reflexivity|];
      exists "Invalid params"; split; [reflexivity|now left]].
  cbn [from_option]. cbv zeta.
  destruct (MCPServer.findTool tools (JS.prop "name" p)) as [tool|] eqn:Hfind.
  - unfold tryCatch, bind, ret. rewrite Logger_tool_spec, invoke_spec. cbn [world log].
    destruct (Registry.tool_execute tool (JS.prop "arguments" p) (world st))
      as [[r|err] w'] eqn:Hrun; cbn [fst snd].
    + left. exists tool, r, w'. split; [reflexivity|]. split; [exact Hrun|].
      do 2 f_equal. symmetry. apply List.app_assoc.
    + right. left. exists tool, err, w'. split; [reflexivity|]. split; [exact Hrun|].
      do 2 f_equal. symmetry. apply List.app_assoc.
  - destruct (JS.String_ (JS.prop "name" p)) as [shown|] eqn:Hshown.
    + right. right. left. split; [reflexivity|]. eexists. split; [reflexivity|].
      right. now exists p, shown.
    + right. right. right. split; [reflexivity|]. split; [now exists p|reflexivity].
Qed.

(** C9, as the code has it.  Of a parsed request other than [null], only the
    method [initialized] is treated as a notification: for it no response is
    written, only a diagnostic line when the log level lets it through.  For
    every other method exactly one response line is written, after at most one
    diagnostic line; it carries the id of the request, and none when the
    request has none.  A method the server has no case for is answered with
    error -32601 naming the method when the method converts to a string, as
    every string and an absent method do, and with error -32603 when it does
    not. *)
Theorem only_initialized_is_silent (msg : string) (request : JS.Json) (st : St W) :
  JSON_parse msg = Ok request ->
  request <> JS.JNull ->
  let method := JS.prop "method" request in
  let id := JS.prop "id" request in
  exists evs w',
    MCPServer.handleMessage JSON_parse currentLevel util_format tools msg st
    = (Ok tt, {| world := w'; log := log st ++ evs |})
    /\ if JS.isString method "initialized"
       then evs = List.map EvStdout
                    (printed currentLevel (infoLine util_format "MCP client initialized"))
            /\ w' = world st
       else exists payload,
              stdout evs
              = (if JS.isString method "initialize"
                 then printed currentLevel
                        (infoLine util_format "Client initializing MCP connection...")
                 else if JS.isString method "tools/call"
                 then match calledTool tools (JS.prop "params" request) with
                      | Some tool =>
                          printed currentLevel
                            (toolLine util_format (Registry.tool_name tool) "Executing...")
                      | None => []
                      end
                 else [])
                ++ [wire id payload]
              /\ (fst payload = "result" \/ fst payload = "error")
              /\ (recognized method = false ->
                  w' = world st
                  /\ payload
                     = match JS.String_ method with
                       | Some shown =>
                           wireError (-32601) ("Method not found: " +:+ shown) None
                       | None =>
                           wireError (-32603) "Internal error"
                             (Some (JS.JStr "Cannot convert object to primitive value"))
                       end).
Proof.
  intros Hparse Hnull method id.
  assert (Hshape :
    MCPServer.handleMessage JSON_parse currentLevel util_format tools msg st
    = tryCatch
        (await response :=
           (let params := JS.prop "params" request in
            if JS.isString method "initialize" then
              await response := MCPServer.handleInitialize currentLevel util_format id params in
              ret (Some response)
            else if JS.isString method "initialized" then
              await _u := Logger.info currentLevel util_format ["MCP client initialized"] in
              ret None
            else if JS.isString method "tools/list" then
              ret (Some (MCPServer.handleListTools tools id))
            else if JS.isString method "tools/call" then
              await response :=
                MCPServer.handleCallTool currentLevel util_format tools id params in
              ret (Some response)
            else if JS.isString method "ping" then
              ret (Some (MCPServer.resultResponse id (JS.JObj [("status", JS.JStr "ok")])))
            else
              match JS.String_ method with
              | Some shown =>
                  ret (Some (MCPServer.errorResponse id (-32601)
                               ("Method not found: " +:+ shown) None))
              | None => throw cannotConvert
              end) in
         match response with
         | Some r => MCPServer.sendResponse r
         | None => ret tt
         end)
        (fun error =>
           MCPServer.sendError id (-32603) "Internal error" (Some (MCPServer.errorData error)))
        st).
  { unfold MCPServer.handleMessage. rewrite Hparse. unfold MCPServer.processRequest.
    now destruct request. }
  rewrite Hshape. clear Hshape.
  assert (Hrec : forall m, In m servedMethods -> JS.isString method m = true ->
                 recognized method = false -> False).
  { intros m Hm Hisb Hrec. unfold recognized in Hrec.
    assert (existsb (JS.isString method) servedMethods = true) as Hex.
    { apply List.existsb_exists. now exists m. }
    congruence. }
  assert (Hnil : forall s : St W, s = {| world := world s; log := log s ++ [] |}).
  { intros s. rewrite app_nil_r. now destruct s. }
  cbv zeta. unfold tryCatch, bind at 1.
  destruct (JS.isString method "initialize") eqn:E1.
  { destruct (JS.isString method "initialized") eqn:E2.
    { exfalso. unfold JS.isString in *. destruct method as [[| | |m| |]|]; try discriminate.
      apply String.eqb_eq in E1, E2. congruence. }
    unfold MCPServer.handleInitialize, bind, ret. rewrite Logger_info_spec.
    unfold MCPServer.sendResponse, stdout_write. cbn [world log]. rewrite wire_result.
    eexists. eexists. rewrite <- app_assoc. split; [reflexivity|].
    eexists. split.
    { unfold stdout. rewrite omap_app.
      f_equal; try reflexivity; unfold printed; now destruct (currentLevel <=? 1). }
    split; [now left|]. intros H. exfalso.
    apply (Hrec "initialize"); [simpl; tauto|exact E1|exact H]. }
  destruct (JS.isString method "initialized") eqn:E2.
  { unfold bind, ret. rewrite Logger_info_spec. eexists. eexists.
    split; [reflexivity|]. now split. }
  destruct (JS.isString method "tools/list") eqn:E3.
  { rewrite (isString_other _ _ "tools/call" E3) by discriminate.
    unfold ret, MCPServer.sendResponse, stdout_write. unfold MCPServer.handleListTools.
    rewrite wire_result. eexists. eexists. split; [reflexivity|].
    eexists. split; [reflexivity|]. split; [now left|]. intros H. exfalso.
    apply (Hrec "tools/list"); [simpl; tauto|exact E3|exact H]. }
  destruct (JS.isString method "tools/call") eqn:E4.
  { assert (Hno : recognized method = false -> False).
    { intros H. apply (Hrec "tools/call"); [simpl; tauto|exact E4|exact H]. }
    unfold bind, ret.
    destruct (handleCallTool_outcomes id (JS.prop "params" request) st)
      as [(tool & r & w' & Hfound & _ & Hrun)
         |[(tool & err & w' & Hfound & _ & Hrun)
          |[(Hfound & text & Hrun & _)|(Hfound & _ & Hrun)]]];
      rewrite Hrun, Hfound; unfold MCPServer.sendError, MCPServer.sendResponse, stdout_write;
      cbn [world log MCPServer.errorData cannotConvert];
      rewrite ?wire_result, ?wire_error; eexists; eexists;
      rewrite <- ?app_assoc; (split; [reflexivity|]); eexists.
    - split.
      { unfold stdout. rewrite !omap_app. cbn [omap]. rewrite app_nil_l.
        f_equal; try reflexivity; unfold printed; now destruct (currentLevel <=? 1). }
      split; [now left|intros H; now destruct (Hno H)].
    - split.
      { unfold stdout. rewrite !omap_app. cbn [omap]. rewrite app_nil_l.
        f_equal; try reflexivity; unfold printed; now destruct (currentLevel <=? 1). }
      split; [now right|intros H; now destruct (Hno H)].
    - split; [reflexivity|]. split; [now right|intros H; now destruct (Hno H)].
    - split; [reflexivity|]. split; [now right|intros H; now destruct (Hno H)]. }
  destruct (JS.isString method "ping") eqn:E5.
  { unfold ret, MCPServer.sendResponse, stdout_write. rewrite wire_result.
    eexists. eexists. split; [reflexivity|].
    eexists. split; [reflexivity|]. split; [now left|]. intros H. exfalso.
    apply (Hrec "ping"); [simpl; tauto|exact E5|exact H]. }
  destruct (JS.String_ method) as [shown|] eqn:Eshown.
  - unfold ret, MCPServer.sendResponse, stdout_write. rewrite wire_error.
    eexists. eexists. split; [reflexivity|].
    eexists. split; [reflexivity|]. split; [now right|]. intros _. now split.
  - unfold throw, MCPServer.sendError, MCPServer.sendResponse, stdout_write.
    cbn [MCPServer.errorData cannotConvert]. rewrite wire_error.
    eexists. eexists. split; [reflexivity|].
    eexists. split; [reflexivity|]. split; [now right|]. intros _. now split.
Qed.

End ServerFacts.

Lemma server_serves_its_own_catalog_witness :
  let catalog := [Stub.echoTool "devweaver_read_state"; Stub.failingTool "devweaver_add_phase"] in
  let params := [("name", JS.JStr "devweaver_read_state");
                 ("arguments", JS.JObj [("verbose", JS.JBool true)])] in
  let otherParams := [("name", JS.JStr "test_tool"); ("arguments", JS.JObj [])] in
  (exists listed,
     MCPServer.resp_result (MCPServer.handleListTools catalog (Some (JS.JNum 7)))
     = Some (JS.JObj [("tools", JS.JArr listed)])
     /\ In (JS.JObj [ ("name", JS.JStr "devweaver_read_state");
                      ("description", JS.JStr "A test tool");
                      ("inputSchema", Stub.objectSchema) ]) listed
     /\ forall item, In item listed -> JS.prop "name" item <> Some (JS.JStr "test_tool"))
  /\ MCPServer.handleCallTool Stub.level Stub.format catalog (Some (JS.JNum 7))
       (Some (JS.JObj params)) Stub.start
     = match Registry.execute (Registry.registerAll Stub.registry catalog)
               "devweaver_read_state" (Some (JS.JObj [("verbose", JS.JBool true)]))
               {| world := world Stub.start;
                  log := log Stub.start
                         ++ List.map EvStdout
                              (printed Stub.level
                                 (toolLine Stub.format "devweaver_read_state"
                                    "Executing...")) |} with
       | (Ok r, st') =>
           (Ok (MCPServer.resultResponse (Some (JS.JNum 7))
                  (JS.JObj [("content",
                             JS.JArr [JS.JObj [("type", JS.JStr "text");
                                               ("text",
                                                JS.JStr match r with
                                                        | JS.JStr text => text
                                                        | _ => JS.stringifyPretty r
                                                        end)]])])),
            st')
       | (Throw err, st') =>
           (Ok (MCPServer.errorResponse (Some (JS.JNum 7)) (-32603) "Tool execution failed"
                  (Some (JS.JStr match err with
                                 | ErrorObj message => message
                                 | NonError _ text => text
                                 end))),
            st')
       end
  /\ MCPServer.handleCallTool Stub.level Stub.format catalog (Some (JS.JNum 7))
       (Some (JS.JObj otherParams)) Stub.start
     = (Ok (MCPServer.errorResponse (Some (JS.JNum 7)) (-32602) "Tool not found: test_tool" None),
        Stub.start)
  /\ Registry.execute Stub.registry "test_tool" (Some (JS.JObj [])) Stub.start
     = invoke "test_tool" Stub.echo (Some (JS.JObj [])) Stub.start.
Proof.
  intros catalog params otherParams.
  apply (server_serves_its_own_catalog Stub.level Stub.format catalog
           (Stub.echoTool "devweaver_read_state")
           (Some (JS.JNum 7)) params (JS.JObj [("verbose", JS.JBool true)])
           Stub.registry Stub.start "test_tool"
           {| Registry.definition :=
                {| name := "test_tool"; description := "A test tool";
                   input_schema := Stub.objectSchema |};
              Registry.handler := Stub.echo |}
           otherParams (JS.JObj [])).
  - now left.
  - repeat constructor; simpl; intuition discriminate.
  - reflexivity.
  - reflexivity.
  - reflexivity.
  - simpl. intuition discriminate.
  - reflexivity.
Defined.

(** C1 as stated fails: a tool of the Tool Registry that is not in the server's
    catalog is not listed by [tools/list], and [tools/call] for it answers
    -32602 while [execute] runs it. *)
Lemma server_ignores_registry :
  let catalog := [Stub.echoTool "devweaver_read_state"] in
  let id := Some (JS.JNum 1) in
  let params := Some (JS.JObj [("name", JS.JStr "test_tool"); ("arguments", JS.JObj [])]) in
  Registry.has Stub.registry "test_tool" = true
  /\ MCPServer.resp_result (MCPServer.handleListTools catalog id)
     = Some (JS.JObj [("tools",
                       JS.JArr [JS.JObj [ ("name", JS.JStr "devweaver_read_state");
                                          ("description", JS.JStr "A test tool");
                                          ("inputSchema", Stub.objectSchema) ]])])
  /\ fst (MCPServer.handleCallTool Stub.level Stub.format catalog id params Stub.start)
     = Ok (MCPServer.errorResponse id (-32602) "Tool not found: test_tool" None)
  /\ fst (Registry.execute Stub.registry "test_tool" (Some (JS.JObj [])) Stub.start)
     = Ok (JS.JObj [("success", JS.JBool true);
                    ("data", JS.JObj [("echo", JS.JObj [])])]).
Proof. vm_compute. repeat split. Qed.

Lemma only_initialized_is_silent_witness :
  recognized (JS.prop "method" Stub.clientNotification) = false
  /\ JS.prop "id" Stub.clientNotification = None
  /\ stdout (log (snd (MCPServer.handleMessage Stub.parse Stub.level Stub.format
                         [Stub.echoTool "devweaver_read_state"]
                         (JS.stringify Stub.clientNotification) Stub.start)))
     = [ "{" +:+ JS.dquote +:+ "jsonrpc" +:+ JS.dquote +:+ ":" +:+ JS.dquote +:+ "2.0"
         +:+ JS.dquote +:+ "," +:+ JS.dquote +:+ "error" +:+ JS.dquote +:+ ":{"
         +:+ JS.dquote +:+ "code" +:+ JS.dquote +:+ ":-32601,"
         +:+ JS.dquote +:+ "message" +:+ JS.dquote +:+ ":" +:+ JS.dquote
         +:+ "Method not found: notifications/initialized" +:+ JS.dquote
         +:+ "}}" +:+ JS.newline ].
Proof.
  destruct (only_initialized_is_silent Stub.parse Stub.level Stub.format
              [Stub.echoTool "devweaver_read_state"]
              (JS.stringify Stub.clientNotification) Stub.clientNotification Stub.start)
    as (evs & w' & Hrun & payload & Hout & _ & Hpayload).
  - reflexivity.
  - discriminate.
  - split; [reflexivity|]. split; [reflexivity|].
    destruct (Hpayload eq_refl) as [_ ->].
    apply (eq_trans (f_equal (fun run => stdout (log (snd run))) Hrun)).
    exact Hout.
Defined.

(** C9 as stated fails for a method that is not a string: when the method is
    an object with a [toString] member, the template literal of the
    method-not-found message throws, and the one response is error -32603. *)
Lemma dead_method_is_an_internal_error :
  recognized (JS.prop "method" Probe.deadMethod) = false
  /\ MCPServer.handleMessage Probe.parse Stub.level Stub.format
       [Stub.echoTool "devweaver_read_state"] (JS.stringify Probe.deadMethod) Stub.start
     = (Ok tt,
        {| world := O;
           log := [EvStdout
                     (wire None
                        (wireError (-32603) "Internal error"
                           (Some (JS.JStr "Cannot convert object to primitive value"))))] |})
  /\ wireError (-32603) "Internal error"
       (Some (JS.JStr "Cannot convert object to primitive value"))
     <> wireError (-32601) "Method not found: [object Object]" None.
Proof. vm_compute. repeat split. discriminate. Qed.

(** ** The stdio RPC client *)

Module ClientFacts.
Import StdioMCPClient ClientSpec.

Lemma promiseOf_inj id id' : 0 < id -> 0 < id' -> promiseOf id = promiseOf id' -> id = id'.
Proof. unfold promiseOf. lia. Qed.

Lemma Inv_initial : Inv initial.
Proof. split; simpl; done. Qed.

Lemma drop_Inv id c : Inv c -> Inv (drop id c).
Proof.
  intros HI. split; simpl; try apply HI.
  intros i q Hq. apply lookup_delete_Some in Hq as [_ Hq]. now apply (inv_pending c HI).
Qed.

Lemma retire_fields id o c :
  Inv c -> pending c !! id = Some (promiseOf id) ->
  let c' := retire id o c in
  requestId c' = requestId c /\ promises c' = promises c /\ timers c' = timers c
  /\ process c' = process c /\ buffer c' = buffer c /\ now c' = now c /\ stdin c' = stdin c
  /\ pending c' = delete id (pending c)
  /\ settled c' = <[promiseOf id := o]> (settled c).
Proof.
  intros HI Hp. destruct (inv_pending c HI id _ Hp) as (_ & _ & Hnone).
  unfold retire, drop, settle. simpl. rewrite Hnone. simpl. repeat split.
Qed.

Lemma retire_Inv id o c : Inv c -> pending c !! id = Some (promiseOf id) -> Inv (retire id o c).
Proof.
  intros HI Hp.
  destruct (retire_fields id o c HI Hp) as (Hr & Hpr & Ht & _ & _ & _ & _ & Hpe & Hs).
  destruct (inv_pending c HI id _ Hp) as (Hid & _ & Hnone).
  split; rewrite ?Hr, ?Hpr, ?Ht, ?Hpe, ?Hs.
  - apply HI.
  - apply HI.
  - intros i q Hq. apply lookup_delete_Some in Hq as [Hne Hq].
    destruct (inv_pending c HI i q Hq) as (Hi & -> & Hn).
    repeat split; try lia. rewrite lookup_insert_ne; [exact Hn|].
    intros E. apply promiseOf_inj in E; lia.
  - intros q o' Hq. destruct (decide (q = promiseOf id)) as [->|Hne].
    + rewrite (inv_promises c HI). unfold promiseOf. lia.
    + rewrite lookup_insert_ne in Hq by congruence. now apply (inv_settled c HI q o').
  - apply HI.
Qed.

Section Receive.
Variable JSON_parse : string -> Res JS.Json.

(** A message for a pending id retires it, with the outcome it carries, or
    drops it when it carries none. *)
Lemma onMessage_pending msg c id :
  Inv c ->
  JS.prop "id" msg = Some (JS.JNum id) ->
  is_Some (pending c !! id) ->
  onMessage msg c = match outcomeOf msg with
                    | Some o => retire id o c
                    | None => drop id c
                    end.
Proof.
  intros HI Hid [p Hp]. destruct (inv_pending c HI id p Hp) as (_ & -> & _).
  unfold onMessage, outcomeOf. rewrite Hid, Hp. cbv zeta.
  destruct (JS.truthy (JS.prop "error" msg)); [|reflexivity].
  now destruct (JS.String_ _).
Qed.

(** A message either retires the pending id it carries, or drops it, or
    changes nothing. *)
Lemma onMessage_cases msg c :
  Inv c ->
  (exists id, JS.prop "id" msg = Some (JS.JNum id)
              /\ pending c !! id = Some (promiseOf id)
              /\ ((exists o, onMessage msg c = retire id o c)
                  \/ onMessage msg c = drop id c))
  \/ onMessage msg c = c.
Proof.
  intros HI.
  destruct (JS.prop "id" msg) as [[| |id| | |]|] eqn:Hid;
    try (right; unfold onMessage; now rewrite Hid).
  destruct (pending c !! id) as [p|] eqn:Hp;
    [|right; unfold onMessage; now rewrite Hid, Hp].
  left. exists id. split; [reflexivity|].
  destruct (inv_pending c HI id p Hp) as (_ & E & _). rewrite <- E. split; [exact Hp|].
  rewrite (onMessage_pending msg c id HI Hid (ex_intro _ p Hp)).
  destruct (outcomeOf msg) as [o|]; [left; now exists o|now right].
Qed.

Lemma onTimeout_cases t c :
  Inv c -> timer_promise t = promiseOf (timer_id t) ->
  (pending c !! timer_id t = Some (promiseOf (timer_id t))
   /\ onTimeout t c = retire (timer_id t) (timedOut (timer_method t)) c)
  \/ (pending c !! timer_id t = None /\ onTimeout t c = c).
Proof.
  intros HI Ht. unfold onTimeout.
  destruct (pending c !! timer_id t) as [p|] eqn:Hp; [|now right].
  destruct (inv_pending c HI _ p Hp) as (_ & -> & _).
  left. split; [reflexivity|]. unfold retire, drop. now rewrite Ht.
Qed.

Lemma sendRequest_fields method params c :
  let c' := fst (_sendRequest method params c) in
  let id := requestId c + 1 in
  snd (_sendRequest method params c) = promises c
  /\ requestId c' = id /\ promises c' = S (promises c)
  /\ pending c' = <[id := promises c]> (pending c)
  /\ settled c' = settled c
  /\ timers c' = timers c ++ [{| timer_id := id; timer_method := method;
                                 timer_promise := promises c;
                                 timer_due := now c + REQUEST_TIMEOUT_MS |}]
  /\ process c' = process c /\ buffer c' = buffer c /\ now c' = now c.
Proof. unfold _sendRequest, write. simpl. destruct (process c); simpl; repeat split. Qed.

Lemma sendRequest_Inv method params c : Inv c -> Inv (fst (_sendRequest method params c)).
Proof.
  intros HI.
  destruct (sendRequest_fields method params c)
    as (_ & Hr & Hpr & Hpe & Hs & Ht & _ & _ & _).
  pose proof (inv_ids c HI) as Hids. pose proof (inv_promises c HI) as Hprom.
  assert (Hnew : promises c = promiseOf (requestId c + 1)).
  { rewrite Hprom. unfold promiseOf. f_equal. lia. }
  split; rewrite ?Hr, ?Hpr, ?Hpe, ?Hs, ?Ht.
  - lia.
  - rewrite Hprom. lia.
  - intros i q Hq. apply lookup_insert_Some in Hq as [[<- <-]|[Hne Hq]].
    + split; [lia|]. split; [exact Hnew|].
      destruct (settled c !! promises c) as [o|] eqn:E; [|reflexivity].
      apply (inv_settled c HI) in E. lia.
    + destruct (inv_pending c HI i q Hq) as (Hi & -> & Hn).
      split; [lia|]. split; [reflexivity|exact Hn].
  - intros q o Hq. apply (inv_settled c HI) in Hq. lia.
  - intros t Hin. apply in_app_or in Hin as [Hin|[<-|[]]].
    + destruct (inv_timers c HI t Hin) as [Hi Hq]. split; [lia|exact Hq].
    + simpl. split; [lia|exact Hnew].
Qed.

Lemma onMessage_Inv msg c : Inv c -> Inv (onMessage msg c).
Proof.
  intros HI.
  destruct (onMessage_cases msg c HI) as [(id & _ & Hp & [[o ->]| ->])| ->];
    [now apply retire_Inv|now apply drop_Inv|exact HI].
Qed.

Lemma onLine_Inv line c : Inv c -> Inv (onLine JSON_parse line c).
Proof.
  intros HI. unfold onLine. destruct (String.eqb (JS.trim line) ""); [exact HI|].
  destruct (JSON_parse (JS.trim line)); [now apply onMessage_Inv|exact HI].
Qed.

Lemma with_buffer_Inv b c : Inv c -> Inv (with_buffer b c).
Proof. intros [? ? ? ? ?]. now split. Qed.

Lemma onData_Inv chunk c : Inv c -> Inv (_onData JSON_parse chunk c).
Proof.
  intros HI. unfold _onData.
  generalize (removelast (JS.split (ascii_of_nat 10) (buffer c +:+ chunk))).
  generalize (with_buffer_Inv
                (List.last (JS.split (ascii_of_nat 10) (buffer c +:+ chunk)) "") c HI).
  generalize (with_buffer (List.last (JS.split (ascii_of_nat 10) (buffer c +:+ chunk)) "") c).
  intros c0 H0 lines. revert c0 H0.
  induction lines as [|line lines IH]; intros c0 H0; [exact H0|].
  simpl. apply IH. now apply onLine_Inv.
Qed.

Lemma unschedule_Inv t c : Inv c -> Inv (unschedule t c).
Proof.
  intros [? ? ? ? Ht]. split; try assumption. simpl.
  intros t' Hin. apply Ht. apply List.filter_In in Hin. tauto.
Qed.

Lemma timer_eqb_eq t t' : timer_eqb t t' = true <-> t = t'.
Proof.
  unfold timer_eqb. split.
  - intros Heq.
    apply andb_prop in Heq as [Heq Hd]. apply andb_prop in Heq as [Heq Hm].
    apply andb_prop in Heq as [Hi Hp].
    apply Z.eqb_eq in Hi, Hd. apply Nat.eqb_eq in Hp. apply String.eqb_eq in Hm.
    destruct t, t'. simpl in *. now subst.
  - intros <-. now rewrite !Z.eqb_refl, Nat.eqb_refl, String.eqb_refl.
Qed.

Lemma canFire_scheduled t c : canFire t c = true -> In t (timers c) /\ timer_due t <= now c.
Proof.
  unfold canFire. intros H. apply andb_prop in H as [Hex Hdue].
  apply List.existsb_exists in Hex as (t' & Hin & Heq). split; [|lia].
  apply timer_eqb_eq in Heq. now subst.
Qed.

Lemma scheduled_canFire t c : In t (timers c) -> timer_due t <= now c -> canFire t c = true.
Proof.
  intros Hin Hdue. unfold canFire. apply andb_true_intro. split; [|lia].
  apply List.existsb_exists. exists t. split; [exact Hin|]. now apply timer_eqb_eq.
Qed.

Lemma act_Inv a c : Inv c -> Inv (act JSON_parse a c).
Proof.
  intros HI. destruct a as [pid|method params|method params|chunk|ms|t|]; simpl.
  - destruct HI. now split.
  - now apply sendRequest_Inv.
  - unfold _sendNotification, write. destruct (process c); destruct HI; now split.
  - now apply onData_Inv.
  - destruct HI. now split.
  - destruct (canFire t c) eqn:Hfire; [|exact HI].
    apply canFire_scheduled in Hfire as [Hin _].
    destruct (inv_timers c HI t Hin) as [_ Hp].
    pose proof (unschedule_Inv t c HI) as HU.
    destruct (onTimeout_cases t (unschedule t c) HU Hp) as [[Hpend ->]|[_ ->]];
      [now apply retire_Inv|exact HU].
  - destruct HI. now split.
Qed.

Lemma run_Inv actions c : Inv c -> Inv (run JSON_parse actions c).
Proof.
  unfold run. revert c. induction actions as [|a actions IH]; intros c HI; [exact HI|].
  simpl. apply IH. now apply act_Inv.
Qed.

Ltac same_fields := unfold extends; simpl; repeat split; auto; lia.

Lemma extends_refl c : extends c c.
Proof. unfold extends. repeat split; auto. lia. Qed.

Lemma extends_trans c1 c2 c3 : extends c1 c2 -> extends c2 c3 -> extends c1 c3.
Proof.
  intros (Hr & Hs & Hp) (Hr' & Hs' & Hp'). repeat split; auto; [lia|].
  intros id Hid Hnone. apply Hp'; [lia|]. now apply Hp.
Qed.

Lemma drop_extends id c : extends c (drop id c).
Proof.
  unfold extends, drop. simpl. repeat split; auto; [lia|].
  intros i _ Hi. apply lookup_delete_None. now right.
Qed.

Lemma retire_extends id o c :
  Inv c -> pending c !! id = Some (promiseOf id) -> extends c (retire id o c).
Proof.
  intros HI Hp.
  destruct (retire_fields id o c HI Hp) as (Hr & _ & _ & _ & _ & _ & _ & Hpe & Hs).
  destruct (inv_pending c HI id _ Hp) as (_ & _ & Hnone).
  unfold extends. rewrite Hr, Hpe, Hs. repeat split; [lia| |].
  - intros p o' Hq. rewrite lookup_insert_ne; [exact Hq|]. congruence.
  - intros i _ Hi. apply lookup_delete_None. now right.
Qed.

Lemma onMessage_extends msg c : Inv c -> extends c (onMessage msg c).
Proof.
  intros HI.
  destruct (onMessage_cases msg c HI) as [(id & _ & Hp & [[o ->]| ->])| ->];
    [now apply retire_extends|apply drop_extends|apply extends_refl].
Qed.

Lemma onLine_extends line c : Inv c -> extends c (onLine JSON_parse line c).
Proof.
  intros HI. unfold onLine. destruct (String.eqb (JS.trim line) ""); [apply extends_refl|].
  destruct (JSON_parse (JS.trim line)) as [msg|]; [|apply extends_refl].
  now apply onMessage_extends.
Qed.

Lemma onData_extends chunk c : Inv c -> extends c (_onData JSON_parse chunk c).
Proof.
  intros HI. unfold _onData.
  set (c0 := with_buffer (List.last (JS.split (ascii_of_nat 10) (buffer c +:+ chunk)) "") c).
  assert (H0 : extends c c0) by same_fields.
  assert (HI0 : Inv c0) by now apply with_buffer_Inv.
  clearbody c0.
  generalize (removelast (JS.split (ascii_of_nat 10) (buffer c +:+ chunk))).
  intros lines. revert c0 H0 HI0.
  induction lines as [|line lines IH]; intros c0 H0 HI0; [exact H0|].
  simpl. apply IH; [|now apply onLine_Inv].
  apply (extends_trans _ c0); [exact H0|]. now apply onLine_extends.
Qed.

Lemma act_extends a c : Inv c -> extends c (act JSON_parse a c).
Proof.
  intros HI. destruct a as [pid|method params|method params|chunk|ms|t|]; cbn [act].
  - same_fields.
  - destruct (sendRequest_fields method params c)
      as (_ & Hr & _ & Hpe & Hs & _ & _ & _ & _).
    unfold extends. rewrite Hr, Hpe, Hs. repeat split; auto; [lia|].
    intros id Hid Hnone. rewrite lookup_insert_ne by lia. exact Hnone.
  - unfold _sendNotification, write. destruct (process c); same_fields.
  - now apply onData_extends.
  - same_fields.
  - destruct (canFire t c) eqn:Hfire; [|apply extends_refl].
    apply canFire_scheduled in Hfire as [Hin _].
    destruct (inv_timers c HI t Hin) as [_ Hp].
    pose proof (unschedule_Inv t c HI) as HU.
    apply (extends_trans _ (unschedule t c)); [same_fields|].
    destruct (onTimeout_cases t (unschedule t c) HU Hp) as [[Hpend ->]|[_ ->]];
      [now apply retire_extends|apply extends_refl].
  - same_fields.
Qed.

Lemma run_extends actions c : Inv c -> extends c (run JSON_parse actions c).
Proof.
  unfold run. revert c. induction actions as [|a actions IH]; intros c HI;
    [apply extends_refl|].
  simpl. apply (extends_trans _ (act JSON_parse a c)); [now apply act_extends|].
  apply IH. now apply act_Inv.
Qed.

(** *** Timers stay armed while their request is pending *)

Lemma settle_timers p o c : timers (settle p o c) = timers c.
Proof. unfold settle. now destruct (settled c !! p). Qed.

Lemma settle_pending p o c : pending (settle p o c) = pending c.
Proof. unfold settle. now destruct (settled c !! p). Qed.

Lemma onMessage_timers msg c : timers (onMessage msg c) = timers c.
Proof.
  unfold onMessage. destruct (JS.prop "id" msg) as [[| |id| | |]|]; try reflexivity.
  destruct (pending c !! id); [|reflexivity]. cbv zeta.
  destruct (JS.truthy _); [destruct (JS.String_ _)|]; now rewrite ?settle_timers.
Qed.

Lemma onLine_timers line c : timers (onLine JSON_parse line c) = timers c.
Proof.
  unfold onLine. cbv zeta. destruct (String.eqb _ _); [reflexivity|].
  destruct (JSON_parse _); [apply onMessage_timers|reflexivity].
Qed.

Lemma onData_timers chunk c : timers (_onData JSON_parse chunk c) = timers c.
Proof.
  unfold _onData. cbv zeta.
  change (timers c)
    with (timers (with_buffer
                    (List.last (JS.split (ascii_of_nat 10) (buffer c +:+ chunk)) "") c)).
  generalize (with_buffer (List.last (JS.split (ascii_of_nat 10) (buffer c +:+ chunk)) "") c).
  generalize (removelast (JS.split (ascii_of_nat 10) (buffer c +:+ chunk))).
  intros lines. induction lines as [|line lines IH]; intros c0; [reflexivity|].
  simpl. now rewrite IH, onLine_timers.
Qed.

Lemma onTimeout_timers t c : timers (onTimeout t c) = timers c.
Proof.
  unfold onTimeout. destruct (pending c !! timer_id t); [|reflexivity].
  now rewrite settle_timers.
Qed.

Lemma onTimeout_pending t c : pending (onTimeout t c) !! timer_id t = None.
Proof.
  unfold onTimeout. destruct (pending c !! timer_id t) eqn:E; [|exact E].
  rewrite settle_pending. apply lookup_delete_eq.
Qed.

(** One action leaves a scheduled timer scheduled, unless it is the run of that
    timer, after which the id of its request is not pending. *)
Lemma act_armed t a c :
  In t (timers c) ->
  In t (timers (act JSON_parse a c)) \/ pending (act JSON_parse a c) !! timer_id t = None.
Proof.
  intros Hin. destruct a as [pid|method params|method params|chunk|ms|t0|]; cbn [act].
  - now left.
  - left. destruct (sendRequest_fields method params c) as (_ & _ & _ & _ & _ & -> & _).
    apply in_or_app. now left.
  - left. unfold _sendNotification, write. now destruct (process c).
  - left. now rewrite onData_timers.
  - now left.
  - destruct (canFire t0 c); [|now left].
    destruct (timer_eqb t0 t) eqn:E.
    + apply timer_eqb_eq in E. subst t0. right. apply onTimeout_pending.
    + left. rewrite onTimeout_timers. simpl. apply List.filter_In. split; [exact Hin|].
      now rewrite E.
  - now left.
Qed.

Lemma run_armed t actions : forall c,
  Inv c -> timer_id t <= requestId c ->
  In t (timers c) \/ pending c !! timer_id t = None ->
  In t (timers (run JSON_parse actions c))
  \/ pending (run JSON_parse actions c) !! timer_id t = None.
Proof.
  unfold run. induction actions as [|a actions IH]; intros c HI Hid H; [exact H|].
  simpl. pose proof (act_extends a c HI) as (Hmono & _ & Hgone).
  apply IH; [now apply act_Inv|lia|].
  destruct H as [Hin|Hnone]; [now apply act_armed|right; now apply Hgone].
Qed.

(** *** Only its response or its timeout retires a request *)

Lemma lines_retire lines : forall c id,
  Inv c -> is_Some (pending c !! id) ->
  pending (List.fold_left (fun acc line => onLine JSON_parse line acc) lines c) !! id = None ->
  exists line msg,
    In line lines /\ JS.trim line <> "" /\ JSON_parse (JS.trim line) = Ok msg
    /\ JS.prop "id" msg = Some (JS.JNum id).
Proof.
  induction lines as [|line lines IH]; intros c id HI [p Hp] Hnone.
  - simpl in Hnone. congruence.
  - simpl in Hnone.
    destruct (pending (onLine JSON_parse line c) !! id) as [q|] eqn:Hq.
    + destruct (IH (onLine JSON_parse line c) id (onLine_Inv line c HI)
                  (ex_intro _ q Hq) Hnone) as (l & m & Hin & Htrim & Hparse & Hid).
      exists l, m. split; [now right|now repeat split].
    + exists line. unfold onLine in Hq. cbv zeta in Hq.
      destruct (String.eqb_spec (JS.trim line) "") as [|Htrim]; [congruence|].
      destruct (JSON_parse (JS.trim line)) as [msg|err]; [|congruence].
      exists msg. split; [now left|]. split; [exact Htrim|]. split; [reflexivity|].
      destruct (onMessage_cases msg c HI) as [(i & Hi & Hpi & Hrun)|Hsame];
        [|rewrite Hsame in Hq; congruence].
      destruct (decide (i = id)) as [->|Hne]; [exact Hi|]. exfalso.
      assert (pending (onMessage msg c) = delete i (pending c)) as Hdel.
      { destruct Hrun as [[o ->]| ->]; [|reflexivity].
        now destruct (retire_fields i o c HI Hpi) as (_ & _ & _ & _ & _ & _ & _ & H & _). }
      rewrite Hdel, lookup_delete_ne in Hq by exact Hne. congruence.
Qed.

Lemma only_response_or_timeout a c id :
  Inv c -> is_Some (pending c !! id) ->
  pending (act JSON_parse a c) !! id = None ->
  retires JSON_parse a c id.
Proof.
  intros HI [p Hp] Hnone.
  destruct a as [pid|method params|method params|chunk|ms|t|]; cbn [act] in Hnone;
    cbn [retires].
  - simpl in Hnone. congruence.
  - destruct (sendRequest_fields method params c) as (_ & _ & _ & Hpe & _).
    rewrite Hpe in Hnone. destruct (inv_pending c HI id p Hp) as (Hid & _).
    rewrite lookup_insert_ne in Hnone by lia. congruence.
  - unfold _sendNotification, write in Hnone. destruct (process c); simpl in Hnone; congruence.
  - unfold _onData in Hnone. cbv zeta in Hnone.
    eapply lines_retire; [|exists p|exact Hnone]; [now apply with_buffer_Inv|exact Hp].
  - simpl in Hnone. congruence.
  - destruct (canFire t c) eqn:Hfire; [|congruence]. split; [|reflexivity].
    destruct (decide (timer_id t = id)) as [E|Hne]; [exact E|]. exfalso.
    unfold onTimeout in Hnone. simpl in Hnone.
    destruct (pending c !! timer_id t);
      rewrite ?settle_pending in Hnone; simpl in Hnone;
      rewrite ?lookup_delete_ne in Hnone by exact Hne; congruence.
  - simpl in Hnone. congruence.
Qed.

(** *** A request that was sent is pending until its response or its timeout *)

Lemma settle_requestId p o c : requestId (settle p o c) = requestId c.
Proof. unfold settle. now destruct (settled c !! p). Qed.

Lemma onMessage_requestId msg c : requestId (onMessage msg c) = requestId c.
Proof.
  unfold onMessage. destruct (JS.prop "id" msg) as [[| |id| | |]|]; try reflexivity.
  destruct (pending c !! id); [|reflexivity]. cbv zeta.
  destruct (JS.truthy _); [destruct (JS.String_ _)|]; now rewrite ?settle_requestId.
Qed.

Lemma onLine_requestId line c : requestId (onLine JSON_parse line c) = requestId c.
Proof.
  unfold onLine. cbv zeta. destruct (String.eqb _ _); [reflexivity|].
  destruct (JSON_parse _); [apply onMessage_requestId|reflexivity].
Qed.

Lemma onData_requestId chunk c : requestId (_onData JSON_parse chunk c) = requestId c.
Proof.
  unfold _onData. cbv zeta.
  change (requestId c)
    with (requestId (with_buffer
                       (List.last (JS.split (ascii_of_nat 10) (buffer c +:+ chunk)) "") c)).
  generalize (with_buffer (List.last (JS.split (ascii_of_nat 10) (buffer c +:+ chunk)) "") c).
  generalize (removelast (JS.split (ascii_of_nat 10) (buffer c +:+ chunk))).
  intros lines. induction lines as [|line lines IH]; intros c0; [reflexivity|].
  simpl. now rewrite IH, onLine_requestId.
Qed.

(** Only a request that is sent takes a new id, and it is pending at once. *)
Lemma act_requestId a c :
  requestId (act JSON_parse a c) = requestId c
  \/ (requestId (act JSON_parse a c) = requestId c + 1
      /\ is_Some (pending (act JSON_parse a c) !! (requestId c + 1))).
Proof.
  destruct a as [pid|method params|method params|chunk|ms|t|]; cbn [act].
  - now left.
  - right. destruct (sendRequest_fields method params c) as (_ & -> & _ & -> & _).
    split; [reflexivity|]. rewrite lookup_insert_eq. now eexists.
  - left. unfold _sendNotification, write. now destruct (process c).
  - left. apply onData_requestId.
  - now left.
  - left. destruct (canFire t c); [|reflexivity].
    unfold onTimeout. cbn [pending unschedule timer_id].
    destruct (pending c !! timer_id t); [|reflexivity]. now rewrite settle_requestId.
  - now left.
Qed.

Lemma onMessage_gone msg c id :
  pending c !! id = None -> pending (onMessage msg c) !! id = None.
Proof.
  intros Hnone. unfold onMessage.
  destruct (JS.prop "id" msg) as [[| |i| | |]|]; try exact Hnone.
  destruct (pending c !! i); [|exact Hnone]. cbv zeta.
  destruct (JS.truthy _); [destruct (JS.String_ _)|]; rewrite ?settle_pending;
    cbn [pending with_pending]; apply lookup_delete_None; now right.
Qed.

Lemma onLine_gone line c id :
  pending c !! id = None -> pending (onLine JSON_parse line c) !! id = None.
Proof.
  intros Hnone. unfold onLine. cbv zeta. destruct (String.eqb _ _); [exact Hnone|].
  destruct (JSON_parse _); [now apply onMessage_gone|exact Hnone].
Qed.

Lemma lines_gone lines : forall c id,
  pending c !! id = None ->
  pending (List.fold_left (fun acc line => onLine JSON_parse line acc) lines c) !! id = None.
Proof.
  induction lines as [|line lines IH]; intros c id Hnone; [exact Hnone|].
  simpl. apply IH. now apply onLine_gone.
Qed.

Lemma onMessage_answers msg c id :
  JS.prop "id" msg = Some (JS.JNum id) -> pending (onMessage msg c) !! id = None.
Proof.
  intros Hid. unfold onMessage. rewrite Hid.
  destruct (pending c !! id) eqn:Hp; [|exact Hp]. cbv zeta.
  destruct (JS.truthy _); [destruct (JS.String_ _)|]; rewrite ?settle_pending;
    cbn [pending with_pending]; apply lookup_delete_eq.
Qed.

Lemma lines_answer lines : forall c id,
  (exists line msg,
     In line lines /\ JS.trim line <> "" /\ JSON_parse (JS.trim line) = Ok msg
     /\ JS.prop "id" msg = Some (JS.JNum id)) ->
  pending (List.fold_left (fun acc line => onLine JSON_parse line acc) lines c) !! id = None.
Proof.
  induction lines as [|line lines IH]; intros c id (l & msg & Hin & Htrim & Hparse & Hid);
    [destruct Hin|].
  simpl. destruct Hin as [->|Hin].
  - apply lines_gone. unfold onLine. cbv zeta.
    destruct (String.eqb_spec (JS.trim l) "") as [|_]; [contradiction|].
    rewrite Hparse. now apply onMessage_answers.
  - apply IH. now exists l, msg.
Qed.

(** After its response or its timeout a request is not pending. *)
Lemma retires_gone a c id :
  retires JSON_parse a c id -> pending (act JSON_parse a c) !! id = None.
Proof.
  destruct a as [pid|method params|method params|chunk|ms|t|]; cbn [retires act];
    try contradiction.
  - intros H. unfold _onData. cbv zeta. now apply lines_answer.
  - intros [<- ->]. apply onTimeout_pending.
Qed.

Lemma retired_gone history : forall c id,
  Inv c -> retiredIn JSON_parse history c id ->
  pending (run JSON_parse history c) !! id = None.
Proof.
  induction history as [|a rest IH]; intros c id HI Hret; [destruct Hret|].
  cbn [retiredIn] in Hret. change (run JSON_parse (a :: rest) c)
    with (run JSON_parse rest (act JSON_parse a c)).
  destruct Hret as [[Hid Hret]|Hret]; [|apply IH; [now apply act_Inv|exact Hret]].
  destruct (act_extends a c HI) as (Hmono & _ & _).
  destruct (run_extends rest (act JSON_parse a c) (act_Inv a c HI)) as (_ & _ & Hgone).
  apply Hgone; [lia|]. now apply retires_gone.
Qed.

Lemma sent_pending_or_retired history : forall c id,
  Inv c ->
  (0 < id <= requestId c -> pending c !! id = Some (promiseOf id)) ->
  0 < id <= requestId (run JSON_parse history c) ->
  pending (run JSON_parse history c) !! id = Some (promiseOf id)
  \/ retiredIn JSON_parse history c id.
Proof.
  induction history as [|a rest IH]; intros c id HI Hstart Hid; [left; now apply Hstart|].
  change (run JSON_parse (a :: rest) c) with (run JSON_parse rest (act JSON_parse a c)) in *.
  cbn [retiredIn].
  pose proof (act_Inv a c HI) as HI'.
  destruct (pending (act JSON_parse a c) !! id) as [p|] eqn:Hp.
  - destruct (inv_pending _ HI' id p Hp) as (_ & -> & _).
    destruct (IH (act JSON_parse a c) id HI' (fun _ => Hp) Hid) as [H|H];
      [now left|right; now right].
  - destruct (decide (0 < id <= requestId (act JSON_parse a c))) as [Hin|Hout].
    + right. left.
      assert (Hsent : 0 < id <= requestId c).
      { destruct (act_requestId a c) as [E|[E [q Hq]]]; [lia|].
        destruct (decide (id = requestId c + 1)) as [->|]; [congruence|lia]. }
      split; [exact Hsent|].
      apply only_response_or_timeout; [exact HI| |exact Hp].
      rewrite (Hstart Hsent). now eexists.
    + destruct (IH (act JSON_parse a c) id HI') as [H|H];
        [intros H; contradiction|exact Hid|now left|right; now right].
Qed.

(** C5.  Take any client history [before], a request sent after it, and any
    further history [later] after which the request is still pending, with 30
    seconds gone since it was sent.  Its timer is then still scheduled and due.
    When it runs, the promise handed to the caller is rejected with the timeout
    error and the id leaves the pending map; the child process handle, the
    input buffer and everything written are untouched, so the connection stays
    open.  A message carrying the retired id changes nothing, and whatever
    happens afterwards ([more]) the promise keeps its timeout rejection and the
    id never becomes pending again.  In every state the client can reach, a
    pending id is the id of a request that was sent, under that request's own
    promise, which has not ended; a request that was sent is pending unless its
    response or its timeout has come since, and then it is not; and an entry
    leaves the pending map only by an action that is the response or the
    timeout of its request.  A response that
    arrives while the request is pending removes the entry and gives the promise
    the outcome the message carries (its result, or an error with the text of
    the error's message), or none when that text cannot be built; the timer
    that runs later changes nothing then. *)
Theorem request_timeout
    (before later more : list Action) (method : string) (params : JS.Json) :
  let c0 := run JSON_parse before initial in
  let c1 := fst (_sendRequest method params c0) in
  let id := requestId c1 in
  let c2 := run JSON_parse later c1 in
  let t := timeoutOf id method (now c0) in
  let c3 := act JSON_parse (Fire t) c2 in
  let c4 := run JSON_parse more c3 in
  is_Some (pending c2 !! id) ->
  now c0 + REQUEST_TIMEOUT_MS <= now c2 ->
  snd (_sendRequest method params c0) = promiseOf id
  /\ pending c1 !! id = Some (promiseOf id)
  /\ canFire t c2 = true
  /\ settled c2 !! promiseOf id = None
  /\ settled c3 !! promiseOf id = Some (timedOut method)
  /\ pending c3 = delete id (pending c2)
  /\ process c3 = process c2 /\ buffer c3 = buffer c2 /\ stdin c3 = stdin c2
  /\ (forall msg, JS.prop "id" msg = Some (JS.JNum id) -> onMessage msg c3 = c3)
  /\ settled c4 !! promiseOf id = Some (timedOut method)
  /\ pending c4 !! id = None
  /\ (forall history i p,
        pending (run JSON_parse history initial) !! i = Some p ->
        0 < i <= requestId (run JSON_parse history initial)
        /\ p = promiseOf i
        /\ settled (run JSON_parse history initial) !! p = None)
  /\ (forall history i,
        0 < i <= requestId (run JSON_parse history initial) ->
        pending (run JSON_parse history initial) !! i = Some (promiseOf i)
        \/ retiredIn JSON_parse history initial i)
  /\ (forall history i,
        retiredIn JSON_parse history initial i ->
        pending (run JSON_parse history initial) !! i = None)
  /\ (forall history a i,
        is_Some (pending (run JSON_parse history initial) !! i) ->
        pending (act JSON_parse a (run JSON_parse history initial)) !! i = None ->
        retires JSON_parse a (run JSON_parse history initial) i)
  /\ (forall line msg,
        JS.trim line <> "" ->
        JSON_parse (JS.trim line) = Ok msg ->
        JS.prop "id" msg = Some (JS.JNum id) ->
        let answered := onLine JSON_parse line c2 in
        pending answered = delete id (pending c2)
        /\ settled answered
           = (if JS.truthy (JS.prop "error" msg)
              then match JS.String_ (from_option (JS.prop "message") None
                                       (JS.prop "error" msg)) with
                   | Some text =>
                       <[promiseOf id :=
                           Rejected (ErrorObj
                                       (if String.eqb text ""
                                        then from_option JS.stringify "" (JS.prop "error" msg)
                                        else text))]> (settled c2)
                   | None => settled c2
                   end
              else <[promiseOf id := Resolved (JS.prop "result" msg)]> (settled c2))
        /\ settled (act JSON_parse (Fire t) answered) = settled answered
        /\ pending (act JSON_parse (Fire t) answered) = pending answered).
Proof.
  intros c0 c1 id c2 t c3 c4 [p Hpend] Hlate.
  assert (HI0 : Inv c0) by (apply run_Inv, Inv_initial).
  assert (HI1 : Inv c1) by now apply sendRequest_Inv.
  assert (HI2 : Inv c2) by now apply run_Inv.
  assert (HI3 : Inv c3) by now apply act_Inv.
  destruct (sendRequest_fields method params c0)
    as (Hp0 & Hr1 & _ & Hpe1 & _ & Ht1 & _ & _ & _).
  fold c1 in Hr1, Hpe1, Ht1. fold id in Hr1.
  assert (Hprom : promises c0 = promiseOf id).
  { rewrite (inv_promises c0 HI0). unfold promiseOf. f_equal. lia. }
  destruct (inv_pending c2 HI2 id p Hpend) as (Hid & -> & Hnone).
  destruct (run_extends later c1 HI1) as (Hmono & _ & _). fold c2 in Hmono.
  assert (Hin1 : In t (timers c1)).
  { rewrite Ht1. apply in_or_app. right. left. unfold t, timeoutOf.
    now rewrite Hprom, <- Hr1. }
  assert (Hin : In t (timers c2)).
  { destruct (run_armed t later c1 HI1) as [H|H]; [simpl; lia|now left|exact H|].
    fold c2 in H. simpl in H. congruence. }
  assert (Hfire : canFire t c2 = true) by (apply scheduled_canFire; [exact Hin|exact Hlate]).
  pose proof (unschedule_Inv t c2 HI2) as HU.
  assert (Hc3 : c3 = retire id (timedOut method) (unschedule t c2)).
  { unfold c3. cbn [act]. rewrite Hfire.
    destruct (onTimeout_cases t (unschedule t c2) HU eq_refl) as [[_ H]|[H _]];
      [exact H|]. simpl in H. congruence. }
  destruct (retire_fields id (timedOut method) (unschedule t c2) HU Hpend)
    as (Hr3 & _ & _ & Hproc & Hbuf & _ & Hin3 & Hpe3 & Hs3).
  rewrite <- Hc3 in Hr3, Hproc, Hbuf, Hin3, Hpe3, Hs3. simpl in Hr3, Hproc, Hbuf, Hin3, Hpe3, Hs3.
  assert (Hs3' : settled c3 !! promiseOf id = Some (timedOut method)).
  { rewrite Hs3. apply lookup_insert_eq. }
  assert (Hp3 : pending c3 !! id = None).
  { rewrite Hpe3. apply lookup_delete_eq. }
  destruct (run_extends more c3 HI3) as (_ & Hkeep & Hgone). fold c4 in Hkeep, Hgone.
  split; [now rewrite Hp0|].
  split; [rewrite Hpe1, <- Hr1, Hprom; apply lookup_insert_eq|].
  split; [exact Hfire|]. split; [exact Hnone|]. split; [exact Hs3'|].
  split; [exact Hpe3|]. split; [exact Hproc|]. split; [exact Hbuf|]. split; [exact Hin3|].
  split.
  { intros msg Hmsg. unfold onMessage. now rewrite Hmsg, Hp3. }
  split; [now apply Hkeep|].
  split; [apply Hgone; [lia|exact Hp3]|].
  split.
  { intros history i q Hq. apply (inv_pending _ (run_Inv history initial Inv_initial) i q Hq). }
  split.
  { intros history i Hi. apply sent_pending_or_retired; [apply Inv_initial| |exact Hi].
    simpl. lia. }
  split.
  { intros history i. apply retired_gone, Inv_initial. }
  split.
  { intros history a i. apply only_response_or_timeout. apply run_Inv, Inv_initial. }
  intros line msg Hline Hparse Hmsg answered.
  assert (Hans : answered = match outcomeOf msg with
                            | Some o => retire id o c2
                            | None => drop id c2
                            end).
  { unfold answered, onLine. cbv zeta.
    destruct (String.eqb_spec (JS.trim line) "") as [E|_]; [contradiction|].
    rewrite Hparse. apply onMessage_pending; [exact HI2|exact Hmsg|now exists (promiseOf id)]. }
  assert (HIa : Inv answered) by (apply onLine_Inv; exact HI2).
  assert (Hpa : pending answered = delete id (pending c2)).
  { rewrite Hans. destruct (outcomeOf msg) as [o|]; [|reflexivity].
    now destruct (retire_fields id o c2 HI2 Hpend) as (_ & _ & _ & _ & _ & _ & _ & H & _). }
  split; [exact Hpa|]. split.
  { rewrite Hans. unfold outcomeOf.
    destruct (JS.truthy (JS.prop "error" msg)).
    - destruct (JS.String_ _) as [text|]; cbn [option_map]; [|reflexivity].
      now destruct (retire_fields id
                      (Rejected (ErrorObj (if String.eqb text ""
                                           then from_option JS.stringify "" (JS.prop "error" msg)
                                           else text)))
                      c2 HI2 Hpend) as (_ & _ & _ & _ & _ & _ & _ & _ & H).
    - now destruct (retire_fields id (Resolved (JS.prop "result" msg)) c2 HI2 Hpend)
        as (_ & _ & _ & _ & _ & _ & _ & _ & H). }
  assert (Hgone' : pending (unschedule t answered) !! timer_id t = None).
  { simpl. rewrite Hpa. apply lookup_delete_eq. }
  cbn [act]. destruct (canFire t answered); [|now split].
  unfold onTimeout. rewrite Hgone'. now split.
Qed.

End Receive.
End ClientFacts.

(** The first request of a freshly spawned client, never answered in time: it is
    rejected when its timer runs after 30 seconds, and the response that arrives
    afterwards changes neither its outcome nor the pending map. *)
Lemma request_timeout_witness :
  let sent := StdioMCPClient.run Stub.parse
                [StdioMCPClient.Spawn 42;
                 StdioMCPClient.Send "tools/list" (JS.JObj []);
                 StdioMCPClient.Elapse 30000] StdioMCPClient.initial in
  let fired := StdioMCPClient.act Stub.parse
                 (StdioMCPClient.Fire (timeoutOf 1 "tools/list" 0)) sent in
  let late := StdioMCPClient.run Stub.parse
                [StdioMCPClient.Data (JS.stringify Stub.responseToFirst +:+ JS.newline)] fired in
  StdioMCPClient.pending sent !! 1 = Some 0%nat
  /\ StdioMCPClient.canFire (timeoutOf 1 "tools/list" 0) sent = true
  /\ StdioMCPClient.settled fired !! 0%nat = Some (timedOut "tools/list")
  /\ StdioMCPClient.pending fired !! 1 = None
  /\ StdioMCPClient.process fired = Some 42%nat
  /\ StdioMCPClient.settled late !! 0%nat = Some (timedOut "tools/list")
  /\ StdioMCPClient.pending late !! 1 = None.
Proof.
  intros sent fired late.
  assert (Hpend : StdioMCPClient.pending sent !! 1 = Some 0%nat) by (vm_compute; reflexivity).
  destruct (ClientFacts.request_timeout Stub.parse
              [StdioMCPClient.Spawn 42] [StdioMCPClient.Elapse 30000]
              [StdioMCPClient.Data (JS.stringify Stub.responseToFirst +:+ JS.newline)]
              "tools/list" (JS.JObj []))
    as (_ & _ & Hfire & _ & Hrej & Hdel & Hproc & _ & _ & _ & Hkeep & Hgone & _).
  - exists 0%nat. exact Hpend.
  - vm_compute. intros H. discriminate H.
  - split; [exact Hpend|]. split; [exact Hfire|]. split; [exact Hrej|].
    split.
    { apply (eq_trans (f_equal (fun m : gmap Z nat => m !! 1) Hdel)).
      apply (lookup_delete_eq (M := gmap Z)). }
    split; [exact Hproc|]. split; [exact Hkeep|exact Hgone].
Defined.

(** ** The remaining checks of the specification, run on the stubs *)

Example stringify_object :
  JS.stringify (JS.JObj [("error", JS.JStr "boom"); ("n", JS.JNum (-12)); ("l", JS.JArr [JS.JNull])])
  = "{" +:+ JS.dquote +:+ "error" +:+ JS.dquote +:+ ":" +:+ JS.dquote +:+ "boom" +:+ JS.dquote
        +:+ "," +:+ JS.dquote +:+ "n" +:+ JS.dquote +:+ ":-12,"
        +:+ JS.dquote +:+ "l" +:+ JS.dquote +:+ ":[null]}".
Proof. reflexivity. Qed.

Example stringify_pretty :
  JS.stringifyPretty (JS.JObj [("ok", JS.JBool true); ("l", JS.JArr [JS.JNum 1])])
  = "{" +:+ JS.newline
        +:+ "  " +:+ JS.dquote +:+ "ok" +:+ JS.dquote +:+ ": true," +:+ JS.newline
        +:+ "  " +:+ JS.dquote +:+ "l" +:+ JS.dquote +:+ ": [" +:+ JS.newline
        +:+ "    1" +:+ JS.newline
        +:+ "  ]" +:+ JS.newline
        +:+ "}".
Proof. reflexivity. Qed.

Example split_words : JS.split " " "pull request" = ["pull"; "request"].
Proof. reflexivity. Qed.

Example split_keeps_empty_pieces : JS.split " " " a  b" = [""; "a"; ""; "b"].
Proof. reflexivity. Qed.

Example trim_line : JS.trim "  a b  " = "a b".
Proof. reflexivity. Qed.

(** A no-break space (U+00A0, two bytes in UTF-8) is white space too. *)
Example trim_no_break_space :
  JS.trim (String (ascii_of_nat 194) (String (ascii_of_nat 160) "a b ")) = "a b".
Proof. reflexivity. Qed.

Example includes_is_case_sensitive :
  JS.includes "create a jira ticket" "jira" = true
  /\ JS.includes "create a Jira ticket" "jira" = false
  /\ JS.includes (JS.toLowerCaseASCII "Create a JIRA ticket") "jira" = true.
Proof. repeat split. Qed.

(** A runtime [toLowerCase] that lower-cases the Kelvin sign to k agrees with
    the ASCII one on ASCII strings. *)
Lemma toLowerCaseKelvin_lowersASCII : lowersASCII Probe.toLowerCaseKelvin.
Proof.
  intros s. unfold JS.isASCII.
  induction s as [|a rest IH]; [reflexivity|].
  cbn [String.list_ascii_of_string forallb]. intros H.
  apply andb_prop in H as [Ha Hrest]. apply Nat.ltb_lt in Ha.
  cbn [Probe.toLowerCaseKelvin JS.toLowerCaseASCII].
  assert (Hno : Nat.eqb (nat_of_ascii a) 226 = false) by (apply Nat.eqb_neq; lia).
  rewrite Hno. cbn [andb].
  destruct rest as [|b [|c rest']]; now rewrite (IH Hrest).
Qed.

(** With such a [toLowerCase], a message that spells ticket with the Kelvin
    sign is routed to the ticket agent: the phrase occurs in the lower-cased
    message, though the message has no letter k in either case. *)
Example quickRoute_kelvin_sign :
  let message := "new tic" +:+ Probe.kelvinSign +:+ "et" in
  Orchestrator.quickRoute Probe.toLowerCaseKelvin Stub.catalog message
  = Some "jira_management"
  /\ Orchestrator.quickRoute JS.toLowerCaseASCII Stub.catalog message = None
  /\ containsIgnoringCase message "ticket" = false
  /\ JS.isASCII message = false.
Proof. vm_compute. repeat split. Qed.

(** The routed examples of tests/run.ts. *)
Example quickRoute_tests :
  let quickRoute := Orchestrator.quickRoute JS.toLowerCaseASCII Stub.catalog in
  quickRoute "review the pull request" = Some "code_review"
  /\ quickRoute "update confluence documentation" = Some "document_management"
  /\ quickRoute "analyze the codebase" = Some "code_analysis"
  /\ quickRoute "generate a flow diagram" = Some "diagram_generation".
Proof. vm_compute. repeat split. Qed.

(** A tie goes to the entry that comes first in the catalog. *)
Example quickRoute_tie :
  Orchestrator.quickRoute JS.toLowerCaseASCII Stub.catalog "jira test" = Some "jira_management"
  /\ Orchestrator.quickRoute JS.toLowerCaseASCII Stub.catalog "test jira"
     = Some "jira_management".
Proof. vm_compute. split; reflexivity. Qed.

(** [execute] on a name that is not registered fails with the unknown-tool error. *)
Example execute_unknown_tool :
  Registry.execute Stub.registry "no_such_tool" (Some (JS.JObj [])) Stub.start
  = (Throw (ErrorObj "Unknown tool: no_such_tool"), Stub.start).
Proof. reflexivity. Qed.

(** A handler exception surfaces from [execute]. *)
Example execute_surfaces_handler_exception :
  fst (Registry.execute Stub.registry "bad_tool" (Some (JS.JObj [])) Stub.start)
  = Throw (ErrorObj "boom").
Proof. reflexivity. Qed.

(** An oracle that answers at once: one iteration, no tool call. *)
Example runAgent_terminates_on_answer :
  let oracle : Oracle Stub.World := fun _ w => (Ok (Stub.reply [Stub.textBlock "hi"]), S w) in
  let run := Engine.runAgent oracle Stub.registry 25 (Stub.options "hello" None None)
               Stub.start in
  fst run
  = Ok {| result := "hi";
          result_messages :=
            [ {| role := user; content := TextContent "hello" |};
              {| role := assistant; content := BlockContent [Stub.textBlock "hi"] |} ];
          toolCalls := [] |}
  /\ length (oracleCalls (log (snd run))) = 1%nat
  /\ toolRuns (log (snd run)) = [].
Proof. vm_compute. repeat split. Qed.

(** A chunk with two complete lines and the start of a third: the two lines
    are framed and handled, the rest is kept.  The line that does not parse gets
    one -32700 response without an id; the notification with an unrecognized
    method gets a -32601 response. *)
Example parse_error_then_next_line :
  let handle := MCPServer.handleMessage Stub.parse Stub.level Stub.format
                  [Stub.echoTool "devweaver_read_state"] in
  MCPServer.frame "" ("not valid json" +:+ JS.newline
                      +:+ JS.stringify Stub.clientNotification +:+ JS.newline
                      +:+ "rest")
  = (["not valid json"; JS.stringify Stub.clientNotification], "rest")
  /\ MCPServer.handled ["not valid json"; "  "; JS.stringify Stub.clientNotification]
     = ["not valid json"; JS.stringify Stub.clientNotification]
  /\ stdout (log (snd (handle "not valid json" Stub.start)))
     = [ wire None (wireError (-32700) "Parse error" (Some (JS.JStr "Unexpected token"))) ]
  /\ stdout (log (snd (handle (JS.stringify Stub.clientNotification) Stub.start)))
     = [ wire None (wireError (-32601) "Method not found: notifications/initialized" None) ].
Proof. vm_compute. repeat split. Qed.

(** The same [tools/call] sent twice with different ids against a pure tool:
    the two result payloads are the same. *)
Example tools_call_twice :
  let params := Some (JS.JObj [("name", JS.JStr "devweaver_read_state");
                               ("arguments", JS.JObj [])]) in
  let call id := fst (MCPServer.handleCallTool Stub.level Stub.format
                        [Stub.echoTool "devweaver_read_state"]
                        (Some (JS.JNum id)) params Stub.start) in
  match call 1, call 2 with
  | Ok r1, Ok r2 => MCPServer.resp_result r1 = MCPServer.resp_result r2
                    /\ MCPServer.resp_id r1 = Some (JS.JNum 1)
                    /\ MCPServer.resp_id r2 = Some (JS.JNum 2)
  | _, _ => False
  end.
Proof. vm_compute. repeat split. Qed.

(** A response that arrives in time resolves the promise of its own request. *)
Example response_resolves_request :
  let c := StdioMCPClient.run Stub.parse
             [StdioMCPClient.Spawn 42;
              StdioMCPClient.Send "tools/list" (JS.JObj []);
              StdioMCPClient.Data (JS.stringify Stub.responseToFirst +:+ JS.newline);
              StdioMCPClient.Elapse 30000;
              StdioMCPClient.Fire (timeoutOf 1 "tools/list" 0)] StdioMCPClient.initial in
  StdioMCPClient.settled c !! 0%nat
  = Some (StdioMCPClient.Resolved (Some (JS.JObj [("tools", JS.JArr [])])))
  /\ StdioMCPClient.pending c !! 1 = None.
Proof. vm_compute. split; reflexivity. Qed.

(** An error response whose message cannot be converted to a string retires
    the request without settling it: the entry is deleted, the promise is
    neither resolved nor rejected, and the timeout that runs later finds
    nothing to reject. *)
Example response_with_dead_message :
  let c := StdioMCPClient.run Probe.parse
             [StdioMCPClient.Spawn 42;
              StdioMCPClient.Send "tools/list" (JS.JObj []);
              StdioMCPClient.Data (JS.stringify Probe.deadError +:+ JS.newline);
              StdioMCPClient.Elapse 30000;
              StdioMCPClient.Fire (timeoutOf 1 "tools/list" 0)] StdioMCPClient.initial in
  StdioMCPClient.requestId c = 1
  /\ StdioMCPClient.pending c !! 1 = None
  /\ StdioMCPClient.settled c !! 0%nat = None.
Proof. vm_compute. repeat split. Qed.

(** * Further properties of the modelled code *)

(** ** Registry: registration, lookup, order *)

Section RegistryMore.
Context {W : Type}.
Implicit Types (reg : Registry.ToolRegistry W) (n : string).

Lemma names_map_set reg n entry :
  Registry.names (Registry.map_set n entry reg)
  = if Registry.has reg n then Registry.names reg else Registry.names reg ++ [n].
Proof.
  unfold Registry.names, Registry.has, Registry.get.
  induction reg as [|[k e] rest IH]; simpl; [reflexivity|].
  destruct (String.eqb_spec k n) as [->|Hne]; simpl; [reflexivity|].
  rewrite IH. now destruct (JS.assoc n rest).
Qed.

Lemma has_In_names reg n : Registry.has reg n = true <-> In n (Registry.names reg).
Proof.
  unfold Registry.has, Registry.get, Registry.names.
  induction reg as [|[k e] rest IH]; simpl; [split; [discriminate|tauto]|].
  destruct (String.eqb_spec k n) as [->|Hne]; [tauto|].
  rewrite IH. split; [tauto|]. intros [H|H]; [contradiction|exact H].
Qed.

Lemma map_set_fresh reg n entry :
  Registry.has reg n = false -> Registry.map_set n entry reg = reg ++ [(n, entry)].
Proof.
  unfold Registry.has, Registry.get.
  induction reg as [|[k e] rest IH]; simpl; [reflexivity|].
  destruct (String.eqb k n); [discriminate|]. intros H. now rewrite IH.
Qed.

Lemma keyedByName_map_set reg d h :
  keyedByName reg ->
  keyedByName (Registry.map_set (name d) {| Registry.definition := d; Registry.handler := h |} reg).
Proof.
  unfold keyedByName. induction 1 as [|[k e] rest Hk Hrest IH]; simpl.
  - now repeat constructor.
  - destruct (String.eqb k (name d)); constructor; auto.
Qed.

Lemma built_invariant reg :
  built reg -> List.NoDup (Registry.names reg) /\ keyedByName reg.
Proof.
  induction 1 as [|reg d h _ [Hnd Hkey]]; [split; constructor|].
  unfold Registry.register. split; [|now apply keyedByName_map_set].
  rewrite names_map_set. destruct (Registry.has reg (name d)) eqn:E; [exact Hnd|].
  apply List.NoDup_app; [exact Hnd|repeat constructor; intros []|].
  intros x Hx [<-|[]]. apply has_In_names in Hx. congruence.
Qed.

Lemma built_registerAll reg (entries : list (Registry.Tool W)) :
  built reg -> built (Registry.registerAll reg entries).
Proof.
  unfold Registry.registerAll. revert reg.
  induction entries as [|t ts IH]; intros reg H; [exact H|].
  simpl. apply IH. now constructor.
Qed.

(** X1. Registration and lookup: after [register(d, h)] the name of [d] is
    registered and looks up to exactly [(d, h)], replacing whatever was stored
    under it, and the lookup of every other name is what it was before. *)
Theorem register_then_get reg (d : ToolDefinition) (h : Handler W) n :
  Registry.get (Registry.register reg d h) n
  = (if String.eqb (name d) n
     then Some {| Registry.definition := d; Registry.handler := h |}
     else Registry.get reg n)
  /\ Registry.has (Registry.register reg d h) (name d) = true
  /\ Registry.definitionsFor (Registry.register reg d h) [name d] = [d].
Proof.
  assert (Hget : Registry.get (Registry.register reg d h) (name d)
                 = Some {| Registry.definition := d; Registry.handler := h |})
    by apply get_map_set_eq.
  split; [|split].
  - destruct (String.eqb_spec (name d) n) as [<-|Hne]; [exact Hget|].
    now apply get_map_set_ne.
  - unfold Registry.has. now rewrite Hget.
  - rewrite definitionsFor_lookups. cbn. now rewrite Hget.
Qed.

(** X2. Order of the catalog: registering under a name that is already
    registered leaves the order of the names as it is, and registering a new
    name appends it at the end; [names()] and [definitions()] keep their
    length in the first case and grow by one in the second. *)
Theorem register_keeps_order reg (d : ToolDefinition) (h : Handler W) :
  Registry.names (Registry.register reg d h)
  = (if Registry.has reg (name d) then Registry.names reg else Registry.names reg ++ [name d])
  /\ length (Registry.definitions (Registry.register reg d h))
     = (if Registry.has reg (name d)
        then length (Registry.definitions reg)
        else S (length (Registry.definitions reg))).
Proof.
  assert (Hn : Registry.names (Registry.register reg d h)
               = if Registry.has reg (name d) then Registry.names reg
                 else Registry.names reg ++ [name d]) by apply names_map_set.
  split; [exact Hn|].
  assert (Hlen : forall r : Registry.ToolRegistry W,
             length (Registry.definitions r) = length (Registry.names r)).
  { intros r. unfold Registry.definitions, Registry.names. now rewrite !length_map. }
  rewrite !Hlen, Hn. destruct (Registry.has reg (name d)); [reflexivity|].
  rewrite length_app. simpl. lia.
Qed.

(** X3. In a registry built by registrations, no name occurs twice, the
    definitions are listed in the order of the names, each under its own name,
    and a definition in the catalog is the one its name looks up to. *)
Theorem built_registry_is_a_map reg :
  built reg ->
  List.NoDup (Registry.names reg)
  /\ List.map name (Registry.definitions reg) = Registry.names reg
  /\ forall d, In d (Registry.definitions reg) ->
       option_map Registry.definition (Registry.get reg (name d)) = Some d.
Proof.
  intros Hb. destruct (built_invariant reg Hb) as [Hnd Hkey]. clear Hb.
  split; [exact Hnd|]. split.
  - clear Hnd. unfold Registry.definitions, Registry.names.
    induction reg as [|[k e] rest IH]; [reflexivity|].
    apply Forall_cons in Hkey as [Hk Hkey]. simpl in *. now rewrite Hk, IH.
  - unfold Registry.definitions, Registry.names, Registry.get in *.
    induction reg as [|[k e] rest IH]; intros d Hd; [destruct Hd|].
    apply Forall_cons in Hkey as [Hk Hkey].
    simpl in *. apply List.NoDup_cons_iff in Hnd as [Hfresh Hnd].
    destruct Hd as [<-|Hd].
    + now rewrite Hk, String.eqb_refl.
    + destruct (String.eqb_spec k (name d)) as [E|_]; [|now apply IH].
      exfalso. apply Hfresh. rewrite E.
      apply List.in_map_iff in Hd as ([k' e'] & <- & Hin).
      rewrite List.Forall_forall in Hkey. rewrite (Hkey _ Hin).
      now apply (List.in_map fst) in Hin.
Qed.

(** X4. Round trip through [getAll()]: registering the tools that [getAll]
    returns into an empty registry rebuilds the registry it came from, entry
    for entry and in the same order. *)
Theorem getAll_registerAll reg :
  built reg -> Registry.registerAll Registry.empty (Registry.getAll reg) = reg.
Proof.
  intros Hb. destruct (built_invariant reg Hb) as [Hnd Hkey]. clear Hb.
  assert (H : forall done rest : Registry.ToolRegistry W,
             List.NoDup (Registry.names (done ++ rest)) -> keyedByName rest ->
             Registry.registerAll done (Registry.getAll rest) = done ++ rest).
  { intros done rest. revert done.
    induction rest as [|[k [d h]] rest IH]; intros done Hnd' Hkey'.
    - now rewrite app_nil_r.
    - apply Forall_cons in Hkey' as [Hk Hkey']. simpl in Hk. subst k.
      unfold Registry.registerAll, Registry.getAll. simpl.
      change (Registry.registerAll
                (Registry.register done
                   {| name := name d; description := description d;
                      input_schema := input_schema d |} h)
                (Registry.getAll rest) = done ++ (name d, {| Registry.definition := d;
                                                             Registry.handler := h |}) :: rest).
      assert (Hd : {| name := name d; description := description d;
                      input_schema := input_schema d |} = d) by now destruct d.
      rewrite Hd. unfold Registry.register.
      assert (Hfresh : Registry.has done (name d) = false).
      { destruct (Registry.has done (name d)) eqn:E; [|reflexivity].
        apply has_In_names in E. unfold Registry.names in *.
        rewrite List.map_app in Hnd'. simpl in Hnd'.
        apply List.NoDup_remove_2 in Hnd'. exfalso. apply Hnd'.
        apply in_or_app. now left. }
      rewrite (map_set_fresh done _ _ Hfresh).
      rewrite IH; [now rewrite <- app_assoc| |exact Hkey'].
      now rewrite <- app_assoc. }
  apply (H [] reg); assumption.
Qed.

(** X5. [execute] on a name that is not registered throws the unknown-tool
    error naming it; no handler is run and nothing else changes. *)
Theorem execute_unregistered reg n (input : ToolInput) (st : St W) :
  Registry.has reg n = false ->
  Registry.execute reg n input st = (Throw (ErrorObj ("Unknown tool: " +:+ n)), st).
Proof.
  intros Hn. unfold Registry.execute. now rewrite (has_get reg n Hn).
Qed.

(** X6. [execute] runs the handler registered last under the name: after
    [register(d, h)], executing the name of [d] on an input is one call of [h]
    on that input, whose value or exception is what [execute] returns. *)
Theorem execute_runs_latest_handler reg (d : ToolDefinition) (h : Handler W)
    (input : JS.Json) (st : St W) :
  Registry.execute (Registry.register reg d h) (name d) (Some input) st
  = (fst (h (Some input) (world st)),
     {| world := snd (h (Some input) (world st));
        log := log st ++ [EvTool (name d) (Some input) (fst (h (Some input) (world st)))] |}).
Proof.
  unfold Registry.execute, Registry.register. rewrite get_map_set_eq. simpl.
  apply invoke_spec.
Qed.

End RegistryMore.

Lemma built_registry_is_a_map_witness :
  List.NoDup (Registry.names Stub.registry)
  /\ List.map name (Registry.definitions Stub.registry) = Registry.names Stub.registry
  /\ forall d, In d (Registry.definitions Stub.registry) ->
       option_map Registry.definition (Registry.get Stub.registry (name d)) = Some d.
Proof.
  apply (built_registry_is_a_map Stub.registry).
  unfold Stub.registry. apply built_registerAll. constructor.
Defined.

Lemma getAll_registerAll_witness :
  Registry.registerAll Registry.empty (Registry.getAll Stub.registry) = Stub.registry.
Proof.
  apply (getAll_registerAll Stub.registry).
  unfold Stub.registry. apply built_registerAll. constructor.
Defined.

Lemma execute_unregistered_witness :
  Registry.execute Stub.registry "code_*" (Some (JS.JObj [])) Stub.start
  = (Throw (ErrorObj "Unknown tool: code_*"), Stub.start).
Proof.
  apply (execute_unregistered Stub.registry "code_*" (Some (JS.JObj [])) Stub.start).
  reflexivity.
Defined.

(** ** Provider: what the loops read off a reply *)

(** X7. The stop condition of both loops: a reply has no tool requests exactly
    when none of its blocks is a [tool_use] block with a name and an input; in
    particular a reply without content, or with text blocks only, has none.
    The requests come out in the order of their blocks, one per such block. *)
Theorem no_requests_iff_no_tool_use_block (response : LLMResponse) :
  (extractToolUse response = [] <->
   forall blocks, response_content response = Some blocks ->
     forall b, In b blocks ->
       block_type b <> tool_use \/ block_name b = None \/ block_input b = None)
  /\ length (extractToolUse response)
     = length (List.filter isRequest (default [] (response_content response)))
  /\ List.map tu_id (extractToolUse response)
     = List.map block_id (List.filter isRequest (default [] (response_content response))).
Proof.
  unfold extractToolUse. destruct (response_content response) as [blocks|]; simpl.
  2:{ split; [|now split]. split; [discriminate|reflexivity]. }
  assert (Hcase : forall b,
            (asToolUse b = None <->
             block_type b <> tool_use \/ block_name b = None \/ block_input b = None)
            /\ (forall tu, asToolUse b = Some tu -> tu_id tu = block_id b)).
  { intros b. unfold asToolUse.
    destruct (block_type b), (block_name b), (block_input b);
      (split; [split; [intros; auto; try (left; discriminate)
                      |intros [H|[H|H]]; try reflexivity; try discriminate; try congruence]
              |intros tu; intros [= <-]; reflexivity]). }
  unfold toolUsesOf, isRequest.
  split; [|split].
  - split.
    + intros Hnone bs [= <-] b Hb. apply Hcase.
      induction blocks as [|b' rest IH]; [destruct Hb|].
      cbn in Hnone. destruct (asToolUse b') eqn:E; [discriminate|].
      destruct Hb as [<-|Hb]; [exact E|now apply IH].
    + intros Hall. specialize (Hall blocks eq_refl).
      induction blocks as [|b' rest IH]; [reflexivity|].
      cbn. rewrite (proj2 (proj1 (Hcase b')) (Hall b' (or_introl eq_refl))).
      apply IH. intros b Hb. apply Hall. now right.
  - induction blocks as [|b' rest IH]; [reflexivity|].
    cbn. destruct (asToolUse b'); simpl; now rewrite IH.
  - induction blocks as [|b' rest IH]; [reflexivity|].
    cbn. destruct (asToolUse b') eqn:E; simpl; [|exact IH].
    now rewrite IH, (proj2 (Hcase b') _ E).
Qed.

(** ** Engine: bounds, failures, audit *)

Section EngineMore.
Context {W : Type}.
Variable oracle : Oracle W.
Variable registry : Registry.ToolRegistry W.

Lemma execute_runs n input (st : St W) :
  exists evs,
    log (snd (Registry.execute registry n input st)) = log st ++ evs
    /\ Forall isToolEvent evs /\ (length evs <= 1)%nat.
Proof.
  unfold Registry.execute.
  destruct (Registry.get registry n) as [entry|]; [destruct input as [i|]|].
  - rewrite invoke_spec. simpl. eexists. split; [reflexivity|].
    split; [repeat constructor|simpl; lia].
  - exists []. simpl. rewrite app_nil_r. split; [reflexivity|]. split; [constructor|simpl; lia].
  - exists []. simpl. rewrite app_nil_r. split; [reflexivity|]. split; [constructor|simpl; lia].
Qed.

Lemma batch_runs tus (st : St W) :
  exists evs,
    log (snd (batch registry tus st)) = log st ++ evs
    /\ Forall isToolEvent evs /\ (length evs <= length tus)%nat.
Proof.
  revert st. induction tus as [|tu rest IH]; intros st; simpl.
  - exists []. rewrite app_nil_r. split; [reflexivity|]. split; [constructor|simpl; lia].
  - destruct (execute_runs (tu_name tu) (Some (tu_input tu)) st) as (e1 & H1 & T1 & L1).
    assert (log (snd (callPayload registry tu st)) = log st ++ e1) as H1'.
    { unfold callPayload.
      now destruct (Registry.execute registry (tu_name tu) (Some (tu_input tu)) st) as [[?|?] ?]. }
    destruct (callPayload registry tu st) as [r st1]. simpl in H1'.
    destruct (IH st1) as (e2 & H2 & T2 & L2).
    destruct (batch registry rest st1) as [more st2]. simpl in *.
    exists (e1 ++ e2). rewrite H2, H1', app_assoc. split; [reflexivity|].
    split; [now apply Forall_app|]. rewrite length_app. lia.
Qed.

Lemma toolEvents_facts evs :
  Forall isToolEvent evs ->
  flat_map requested evs = [] /\ toolRuns evs = evs /\ oracleCalls evs = [].
Proof.
  induction 1 as [|e evs He _ (IH1 & IH2 & IH3)]; [now repeat split|].
  destruct e; try destruct He. simpl. unfold toolRuns, oracleCalls in *. simpl.
  now rewrite IH1, IH2, IH3.
Qed.

(** The loop keeps its audit list in step with the log, runs at most one
    handler per request, and throws only what the oracle threw on the call it
    made last. *)
Lemma agentLoop_audit sys toolList n : forall msgs calls ft (st : St W),
  exists evs,
    log (snd (Engine.agentLoop oracle registry sys toolList n msgs calls ft st)) = log st ++ evs
    /\ (length (toolRuns evs) <= length (flat_map requested evs))%nat
    /\ (forall res,
          fst (Engine.agentLoop oracle registry sys toolList n msgs calls ft st) = Ok res ->
          toolCalls res = calls ++ flat_map requested evs)
    /\ (forall err,
          fst (Engine.agentLoop oracle registry sys toolList n msgs calls ft st) = Throw err ->
          exists before opts, evs = before ++ [EvOracle opts (Throw err)]).
Proof.
  induction n as [|n IH]; intros msgs calls ft st.
  - exists []. simpl. rewrite !app_nil_r. split; [reflexivity|]. split; [lia|].
    split; [now intros res [= <-]|intros err [=]].
  - set (opts := {| systemPrompt := sys; messages := msgs;
                    tools := match toolList with [] => None | _ => Some toolList end |}).
    destruct (oracle opts (world st)) as [[response|err] w'] eqn:Hreply.
    + rewrite (agentLoop_oracle_answers oracle registry sys toolList n msgs calls ft st
                 response w' Hreply).
      fold opts. cbv zeta.
      set (st1 := {| world := w'; log := log st ++ [EvOracle opts (Ok response)] |}).
      destruct (extractToolUse response) as [|tu tus] eqn:E.
      * exists [EvOracle opts (Ok response)]. simpl. rewrite E. simpl.
        split; [reflexivity|]. split; [lia|].
        split; [intros res [= <-]; simpl; now rewrite app_nil_r|intros err [=]].
      * destruct (batch_runs (tu :: tus) st1) as (e2 & H2 & T2 & L2).
        destruct (toolEvents_facts e2 T2) as (R2 & U2 & _).
        match goal with
        | |- context [Engine.agentLoop _ _ _ _ n ?m ?c ?f ?s] =>
            destruct (IH m c f s) as (e3 & H3 & L3 & Hok & Hthrow)
        end.
        exists ([EvOracle opts (Ok response)] ++ e2 ++ e3).
        rewrite H3, H2. subst st1. simpl log.
        split; [now rewrite <- !app_assoc|].
        assert (Hreq : flat_map requested ([EvOracle opts (Ok response)] ++ e2 ++ e3)
                       = List.map toCall (tu :: tus) ++ flat_map requested e3).
        { rewrite !List.flat_map_app, R2. simpl. now rewrite E, app_nil_r. }
        split.
        { rewrite Hreq. unfold toolRuns in *. simpl List.filter.
          rewrite List.filter_app, U2, !length_app, length_map. simpl in *. lia. }
        split.
        { intros res Hres. rewrite (Hok res Hres), Hreq. now rewrite <- app_assoc. }
        intros err Herr. destruct (Hthrow err Herr) as (before & o & ->).
        exists ([EvOracle opts (Ok response)] ++ e2 ++ before), o.
        now rewrite <- !app_assoc.
    + rewrite (agentLoop_oracle_throws oracle registry sys toolList n msgs calls ft st
                 err w' Hreply).
      fold opts. exists [EvOracle opts (Throw err)]. simpl.
      split; [reflexivity|]. split; [lia|]. split; [intros res [=]|].
      intros err' [= <-]. now exists [], opts.
Qed.

Variable config_agent_maxIterations : Z.

Let offeredTo (opts : Engine.RunAgentOptions) : option (list ToolDefinition) :=
  let toolList := match Engine.opt_toolNames opts with
                  | Some toolNames => Registry.definitionsFor registry toolNames
                  | None => Registry.definitions registry
                  end in
  match toolList with
  | [] => None
  | _ :: _ => Some toolList
  end.

(** The iteration budget bounds the oracle calls of a run, and every call is
    made under the same system prompt and tool list. *)
Lemma runAgent_budget (opts : Engine.RunAgentOptions) (st : St W) :
  exists evs,
    log (snd (Engine.runAgent oracle registry config_agent_maxIterations opts st))
    = log st ++ evs
    /\ Z.of_nat (length (oracleCalls evs))
       <= Z.max 0 (default config_agent_maxIterations (Engine.opt_maxIterations opts))
    /\ oracleCallsSatisfy
         (fun o => systemPrompt o = Engine.opt_systemPrompt opts /\ tools o = offeredTo opts) evs.
Proof.
  unfold Engine.runAgent, offeredTo.
  match goal with
  | |- context [Engine.agentLoop _ _ ?sys ?tl ?n ?msgs ?calls ?ft st] =>
      destruct (agentLoop_run oracle registry sys tl n msgs calls ft st)
        as (evs & Hlog & _ & Hn & Hcalls & _)
  end.
  exists evs. split; [exact Hlog|]. split; [lia|].
  eapply oracleCallsSatisfy_impl; [|exact Hcalls]. intros o (Hs & Ht & _). now split.
Qed.

(** X8. The iteration budget is a hard upper bound: whatever the oracle and the
    handlers do, a run makes at most max(0, maxIterations) oracle calls, each
    under the system prompt of the options and with the same tool list (the
    definitions the filter selects, or no tools when that list is empty). *)
Theorem runAgent_stays_in_budget (opts : Engine.RunAgentOptions) (st : St W) :
  exists evs,
    log (snd (Engine.runAgent oracle registry config_agent_maxIterations opts st))
    = log st ++ evs
    /\ Z.of_nat (length (oracleCalls evs))
       <= Z.max 0 (default config_agent_maxIterations (Engine.opt_maxIterations opts))
    /\ oracleCallsSatisfy
         (fun o => systemPrompt o = Engine.opt_systemPrompt opts /\ tools o = offeredTo opts) evs.
Proof. exact (runAgent_budget opts st). Qed.

(** X9. Conversations are append-only and paired: every conversation a run
    returns, and every conversation it passes to the oracle, is the prior
    messages followed by the new user message and then by whole turns in which
    each tool request of an assistant message is answered, one for one and in
    order, by the tool-result blocks of the next user message. *)
Theorem runAgent_pairs_requests (opts : Engine.RunAgentOptions) (st : St W) :
  let initial := default [] (Engine.opt_priorMessages opts)
                 ++ [{| role := user; content := TextContent (Engine.opt_userMessage opts) |}] in
  let run := Engine.runAgent oracle registry config_agent_maxIterations opts st in
  exists evs,
    log (snd run) = log st ++ evs
    /\ oracleCallsSatisfy
         (fun o => exists turns, messages o = initial ++ turns /\ pairedb turns = true) evs
    /\ forall res, fst run = Ok res ->
         exists turns, result_messages res = initial ++ turns /\ pairedb turns = true.
Proof. exact (runAgent_conversation_paired oracle registry config_agent_maxIterations opts st). Qed.


(** X11. The audit list is complete and in order: the [toolCalls] of a result
    are exactly the requests of the oracle replies of the run, reply after
    reply, whether or not the tool exists or its handler failed; and at most
    one handler is run per recorded call. *)
Theorem toolCalls_records_every_request (opts : Engine.RunAgentOptions) (st : St W)
    (res : RunAgentResult) :
  fst (Engine.runAgent oracle registry config_agent_maxIterations opts st) = Ok res ->
  exists evs,
    log (snd (Engine.runAgent oracle registry config_agent_maxIterations opts st))
    = log st ++ evs
    /\ toolCalls res = flat_map requested evs
    /\ (length (toolRuns evs) <= length (toolCalls res))%nat.
Proof.
  unfold Engine.runAgent. intros Hres.
  match goal with
  | |- context [Engine.agentLoop _ _ ?sys ?tl ?n ?msgs ?calls ?ft st] =>
      destruct (agentLoop_audit sys tl n msgs calls ft st) as (evs & Hlog & Hruns & Hok & _)
  end.
  exists evs. split; [exact Hlog|]. rewrite (Hok res Hres). simpl. now split.
Qed.

(** X12. A reply without tool requests ends the run at once: if the budget
    allows an iteration and the oracle's first reply requests no tool, the run
    makes that one oracle call, runs no tool, and returns the text of the
    reply, the starting conversation followed by the reply, and no tool calls. *)
Theorem runAgent_stops_on_answer (opts : Engine.RunAgentOptions) (st : St W)
    (response : LLMResponse) (w' : W) :
  let initial := default [] (Engine.opt_priorMessages opts)
                 ++ [{| role := user; content := TextContent (Engine.opt_userMessage opts) |}] in
  let first := {| systemPrompt := Engine.opt_systemPrompt opts; messages := initial;
                  tools := offeredTo opts |} in
  0 < default config_agent_maxIterations (Engine.opt_maxIterations opts) ->
  oracle first (world st) = (Ok response, w') ->
  extractToolUse response = [] ->
  Engine.runAgent oracle registry config_agent_maxIterations opts st
  = (Ok {| result := extractText response;
           result_messages := initial ++ [assistantMessage response];
           toolCalls := [] |},
     {| world := w'; log := log st ++ [EvOracle first (Ok response)] |}).
Proof.
  intros initial first Hpos Hreply Hnone. unfold Engine.runAgent. fold initial.
  destruct (Z.to_nat (default config_agent_maxIterations (Engine.opt_maxIterations opts)))
    as [|n] eqn:En; [lia|].
  unfold first, offeredTo in Hreply.
  rewrite (agentLoop_oracle_answers oracle registry _ _ n initial [] "" st response w' Hreply).
  cbv zeta. rewrite Hnone. unfold first, offeredTo.
  now destruct (String.eqb (extractText response) "") eqn:E;
    [apply String.eqb_eq in E; rewrite E|].
Qed.

End EngineMore.


Lemma toolCalls_records_every_request_witness :
  match fst (Engine.runAgent Stub.callsThenAnswers Stub.registry 25
               (Stub.options "go" None None) Stub.start) with
  | Ok res =>
      exists evs,
        log (snd (Engine.runAgent Stub.callsThenAnswers Stub.registry 25
                    (Stub.options "go" None None) Stub.start))
        = log Stub.start ++ evs
        /\ toolCalls res = flat_map requested evs
        /\ (length (toolRuns evs) <= length (toolCalls res))%nat
  | Throw _ => False
  end.
Proof.
  destruct (fst (Engine.runAgent Stub.callsThenAnswers Stub.registry 25
                   (Stub.options "go" None None) Stub.start)) as [res|err] eqn:E.
  - exact (toolCalls_records_every_request Stub.callsThenAnswers Stub.registry 25
             (Stub.options "go" None None) Stub.start res E).
  - vm_compute in E. discriminate.
Defined.

Lemma runAgent_stops_on_answer_witness :
  Engine.runAgent Probe.answers Stub.registry 25 (Stub.options "hello" None (Some 5)) Stub.start
  = (Ok {| result := "hi";
           result_messages :=
             [ {| role := user; content := TextContent "hello" |};
               {| role := assistant; content := BlockContent [Stub.textBlock "hi"] |} ];
           toolCalls := [] |},
     {| world := 1%nat;
        log := [EvOracle
                  {| systemPrompt := "You are a stub.";
                     messages := [{| role := user; content := TextContent "hello" |}];
                     tools := Some (Registry.definitions Stub.registry) |}
                  (Ok (Stub.reply [Stub.textBlock "hi"]))] |}).
Proof.
  apply (runAgent_stops_on_answer Probe.answers Stub.registry 25
           (Stub.options "hello" None (Some 5)) Stub.start
           (Stub.reply [Stub.textBlock "hi"]) 1%nat).
  - simpl. lia.
  - reflexivity.
  - reflexivity.
Defined.

(** ** Orchestrator *)

Section OrchestratorMore.
Context {W : Type}.
Variable oracle : Oracle W.
Variable catalog : Orchestrator.Catalog W.
Variable prompt : string.

(** X13. What [orchestrate] answers: in every conversation it returns, the
    history and the new user message come first, and after each assistant
    message with tool requests the next user message carries tool results for
    exactly the requests named [delegate_to_agent], one for one and in order. *)
Theorem orchestrate_answers_delegations (userMessage : string) (history : list Message)
    (st st' : St W) (res : Orchestrator.OrchestrateResult) :
  Orchestrator.orchestrate oracle catalog prompt userMessage history st = (Ok res, st') ->
  exists turns,
    Orchestrator.conversationHistory res
    = history ++ [{| role := user; content := TextContent userMessage |}] ++ turns
    /\ pairedOn is_delegation turns = true.
Proof.
  unfold Orchestrator.orchestrate. intros Hrun.
  destruct (orchestratorLoop_conversation oracle catalog prompt _ _ _ _ _ _ _ Hrun)
    as (turns & Hconv & Hp).
  exists turns. split; [now rewrite Hconv, <- app_assoc|exact Hp].
Qed.

(** X14. A batch of delegations is aborted only by an input that cannot be
    read: when the loop over the requests throws, one of them is a delegation
    whose input is [null] or whose agent name cannot be converted to a string
    (an object, or an array holding one, with a [toString] entry of its own).
    An unknown agent, a sub-agent that throws, and a request for another tool
    never make it throw. *)
Theorem delegations_throw_only_on_unreadable_input (tus : list ToolUseBlock)
    (acc : list Orchestrator.Delegation * list ContentBlock) (st st' : St W) (err : Thrown) :
  Orchestrator.delegateAll catalog tus acc st = (Throw err, st') ->
  exists tu,
    In tu tus /\ is_delegation tu = true
    /\ (tu_input tu = JS.JNull \/ JS.String_ (JS.prop "agent" (tu_input tu)) = None).
Proof.
  revert acc st. induction tus as [|tu rest IH]; intros acc st Hrun; [discriminate|].
  simpl in Hrun. unfold bind in Hrun.
  pose proof (delegate_answers catalog tu acc st) as H1.
  destruct (Orchestrator.delegate catalog tu acc st) as [[[d1 b1]|err1] st1].
  - destruct (IH _ _ Hrun) as (tu' & Hin & Hd & Hn). exists tu'. split; [now right|now split].
  - exists tu. split; [now left|exact H1].
Qed.

End OrchestratorMore.

Lemma orchestrate_answers_delegations_witness :
  match Orchestrator.orchestrate Probe.delegates Stub.catalog "You are DEVWEAVER."
          "open a ticket" [] Stub.start with
  | (Ok res, _) =>
      exists turns,
        Orchestrator.conversationHistory res
        = [] ++ [{| role := user; content := TextContent "open a ticket" |}] ++ turns
        /\ pairedOn is_delegation turns = true
  | (Throw _, _) => False
  end.
Proof.
  destruct (Orchestrator.orchestrate Probe.delegates Stub.catalog "You are DEVWEAVER."
              "open a ticket" [] Stub.start) as [[res|err] st'] eqn:E.
  - exact (orchestrate_answers_delegations Probe.delegates Stub.catalog "You are DEVWEAVER."
             "open a ticket" [] Stub.start st' res E).
  - vm_compute in E. discriminate.
Defined.

Lemma delegations_throw_only_on_unreadable_input_witness :
  Orchestrator.delegateAll Stub.catalog [Probe.deadAgent; Probe.nullDelegation] ([], [])
    Stub.start
  = (Throw cannotConvert, Stub.start)
  /\ exists tu,
       In tu [Probe.deadAgent; Probe.nullDelegation] /\ is_delegation tu = true
       /\ (tu_input tu = JS.JNull \/ JS.String_ (JS.prop "agent" (tu_input tu)) = None).
Proof.
  split; [reflexivity|].
  apply (delegations_throw_only_on_unreadable_input Stub.catalog
           [Probe.deadAgent; Probe.nullDelegation] ([], []) Stub.start Stub.start cannotConvert).
  reflexivity.
Defined.

(** ** quickRoute on any catalog *)

Lemma prefix_chars t : forall s c,
  String.prefix t s = true -> In c (String.list_ascii_of_string t) -> In c (String.list_ascii_of_string s).
Proof.
  induction t as [|a t IH]; intros s c Hp Hc; [destruct Hc|].
  destruct s as [|b s]; [discriminate|]. simpl in Hp.
  destruct (Ascii.ascii_dec a b) as [->|]; [|discriminate].
  destruct Hc as [<-|Hc]; [now left|right; now apply (IH s)].
Qed.

Lemma includes_chars s : forall t c,
  JS.includes s t = true ->
  In c (String.list_ascii_of_string t) -> In c (String.list_ascii_of_string s).
Proof.
  induction s as [|b s IH]; intros t c Hinc Hc; rewrite includes_unfold in Hinc.
  - destruct (String.prefix t "") eqn:E; [|discriminate]. now apply (prefix_chars t "").
  - destruct (String.prefix t (String b s)) eqn:E; [now apply (prefix_chars t (String b s))|].
    right. now apply (IH t).
Qed.

Lemma lower_ascii_not_upper c : isUpper (JS.lower_ascii c) = false.
Proof.
  unfold JS.lower_ascii, isUpper.
  destruct (Nat.leb 65 (nat_of_ascii c) && Nat.leb (nat_of_ascii c) 90) eqn:E; [|exact E].
  apply andb_prop in E as [H1 H2]. apply Nat.leb_le in H1, H2.
  rewrite nat_ascii_embedding by lia.
  apply andb_false_iff. right. apply Nat.leb_gt. lia.
Qed.

Lemma toLowerCaseASCII_neverUpper : neverUpper JS.toLowerCaseASCII.
Proof.
  intros s. unfold hasUpper. induction s as [|a s IH]; [reflexivity|].
  simpl. now rewrite lower_ascii_not_upper, IH.
Qed.

Lemma upper_trigger_never_included (lower trigger : string) :
  hasUpper lower = false -> hasUpper trigger = true -> JS.includes lower trigger = false.
Proof.
  intros Hlow Hup. destruct (JS.includes lower trigger) eqn:E; [|reflexivity].
  apply List.existsb_exists in Hup as (c & Hc & Hupper).
  pose proof (includes_chars _ _ c E Hc) as Hin.
  assert (hasUpper lower = true) by (apply List.existsb_exists; now exists c).
  congruence.
Qed.

Section RouteMore.
Context {W : Type}.
Variable toLowerCase : string -> string.

(** A key that [quickRoute] returns has a trigger phrase occurring in the
    lower-cased message. *)
Lemma quickRoute_earned (catalog : Orchestrator.Catalog W)
    (userMessage key : string) :
  Orchestrator.quickRoute toLowerCase catalog userMessage = Some key ->
  exists agent trigger,
    In (key, agent) catalog
    /\ In trigger (Orchestrator.triggers agent)
    /\ JS.includes (toLowerCase userMessage) trigger = true.
Proof.
  intros Hroute. pose proof (quickRoute_scan toLowerCase catalog userMessage) as H.
  cbv zeta in H. rewrite Hroute in H.
  destruct H as (before & agent & after & Hcat & Hpos & _). simpl in Hpos.
  exists agent.
  destruct (List.existsb (JS.includes (toLowerCase userMessage))
              (Orchestrator.triggers agent)) eqn:E.
  - apply List.existsb_exists in E as (trigger & Hin & Hinc).
    exists trigger. split; [|now split]. rewrite Hcat. apply in_or_app. right. now left.
  - exfalso.
    assert (Hzero : Orchestrator.triggerScore (toLowerCase userMessage)
                      (Orchestrator.triggers agent) = 0).
    { apply triggerScore_zero. intros t Ht.
      destruct (JS.includes (toLowerCase userMessage) t) eqn:Et; [|reflexivity].
      assert (List.existsb (JS.includes (toLowerCase userMessage))
                (Orchestrator.triggers agent) = true)
        by (apply List.existsb_exists; now exists t).
      congruence. }
    lia.
Qed.

(** X15. On any catalog, and whatever the runtime's [toLowerCase] does, a
    routed key is earned: when [quickRoute] returns a key, the catalog has an
    entry under that key with a trigger phrase that occurs in the lower-cased
    message. *)
Theorem quickRoute_key_has_matching_trigger (catalog : Orchestrator.Catalog W)
    (userMessage key : string) :
  Orchestrator.quickRoute toLowerCase catalog userMessage = Some key ->
  exists agent trigger,
    In (key, agent) catalog
    /\ In trigger (Orchestrator.triggers agent)
    /\ JS.includes (toLowerCase userMessage) trigger = true.
Proof. exact (quickRoute_earned catalog userMessage key). Qed.

Lemma upper_triggers_unrouted (catalog : Orchestrator.Catalog W)
    (userMessage key : string) :
  neverUpper toLowerCase ->
  (forall agent, In (key, agent) catalog ->
     forall trigger, In trigger (Orchestrator.triggers agent) -> hasUpper trigger = true) ->
  Orchestrator.quickRoute toLowerCase catalog userMessage = Some key -> False.
Proof.
  intros Hnever Hupper Hroute.
  destruct (quickRoute_earned catalog userMessage key Hroute)
    as (agent & trigger & Hin & Ht & Hinc).
  rewrite (upper_trigger_never_included _ trigger (Hnever userMessage)
             (Hupper agent Hin trigger Ht)) in Hinc.
  discriminate.
Qed.

End RouteMore.

Section RouteCase.
Context {W : Type}.
Variable toLowerCase : string -> string.

(** X16. Only the message is lower-cased, not the trigger phrases: a trigger
    phrase with an upper-case letter never matches any message, so an agent
    all of whose trigger phrases have one is never routed to.  This holds with
    the lower-casing of the letters A to Z, and with any [toLowerCase] that
    returns no string with such a letter. *)
Theorem capitalised_triggers_never_route (catalog : Orchestrator.Catalog W)
    (userMessage key : string) :
  (forall agent, In (key, agent) catalog ->
     forall trigger, In trigger (Orchestrator.triggers agent) -> hasUpper trigger = true) ->
  (Orchestrator.quickRoute JS.toLowerCaseASCII catalog userMessage = Some key -> False)
  /\ (neverUpper toLowerCase ->
      Orchestrator.quickRoute toLowerCase catalog userMessage = Some key -> False).
Proof.
  intros Hupper. split.
  - exact (upper_triggers_unrouted JS.toLowerCaseASCII catalog userMessage key
             toLowerCaseASCII_neverUpper Hupper).
  - intros Hnever.
    exact (upper_triggers_unrouted toLowerCase catalog userMessage key Hnever Hupper).
Qed.

End RouteCase.

Lemma quickRoute_key_has_matching_trigger_witness :
  exists agent trigger,
    In ("code_review", agent) Stub.catalog
    /\ In trigger (Orchestrator.triggers agent)
    /\ JS.includes (JS.toLowerCaseASCII "Review the Pull Request") trigger = true.
Proof.
  apply (quickRoute_key_has_matching_trigger JS.toLowerCaseASCII Stub.catalog
           "Review the Pull Request" "code_review").
  vm_compute. reflexivity.
Defined.

Lemma capitalised_triggers_never_route_witness :
  Orchestrator.quickRoute JS.toLowerCaseASCII Probe.capitalised "create a Jira ticket in JIRA"
  = None
  /\ (Orchestrator.quickRoute JS.toLowerCaseASCII Probe.capitalised
        "create a Jira ticket in JIRA"
      = Some "jira_management" -> False)
  /\ (neverUpper Probe.toLowerCaseKelvin ->
      Orchestrator.quickRoute Probe.toLowerCaseKelvin Probe.capitalised
        "create a Jira ticket in JIRA"
      = Some "jira_management" -> False).
Proof.
  split; [reflexivity|].
  apply (capitalised_triggers_never_route Probe.toLowerCaseKelvin Probe.capitalised
           "create a Jira ticket in JIRA" "jira_management").
  intros agent [[= <-]|[]] trigger [<-|[]]. reflexivity.
Defined.

(** ** Context manager *)

Lemma tryCatch_rethrow {W A : Type} (m : M W A) (st : St W) :
  tryCatch m (fun error => throw error) st = m st.
Proof. unfold tryCatch, throw. now destruct (m st) as [[a|err] st']. Qed.

Section ContextMore.
Context {W : Type}.
Variable oracle : Oracle W.
Variable registry : Registry.ToolRegistry W.
Variable config_agent_maxIterations : Z.
Variables researcherPrompt executorPrompt verifierPrompt : string.

(** X17. A fresh context is fresh unless asked otherwise: without
    [includePriorMessages: true], whatever [priorMessages] the options carry,
    the run of [executeFreshContext] is the [runAgent] run without prior
    messages, exceptions included: every oracle call sees a conversation that
    starts with the new user message.  The iteration bound is the option or 20,
    never the configured default. *)
Theorem fresh_context_drops_prior_messages
    (agentName sys userMessage : string) (options : ContextManager.ContextOptions) (st : St W) :
  ContextManager.ctx_includePriorMessages options <> Some true ->
  let run := ContextManager.executeFreshContext oracle registry config_agent_maxIterations
               agentName sys userMessage options st in
  run
  = Engine.runAgent oracle registry config_agent_maxIterations
      {| Engine.opt_name := agentName; Engine.opt_systemPrompt := sys;
         Engine.opt_userMessage := userMessage;
         Engine.opt_toolNames := ContextManager.ctx_toolNames options;
         Engine.opt_maxIterations := Some (default 20 (ContextManager.ctx_maxIterations options));
         Engine.opt_priorMessages := None |} st
  /\ exists evs,
       log (snd run) = log st ++ evs
       /\ Z.of_nat (length (oracleCalls evs))
          <= Z.max 0 (default 20 (ContextManager.ctx_maxIterations options))
       /\ oracleCallsSatisfy
            (fun o => exists turns,
               messages o = {| role := user; content := TextContent userMessage |} :: turns)
            evs.
Proof.
  intros Hfresh run.
  assert (Hrun : run = Engine.runAgent oracle registry config_agent_maxIterations
      {| Engine.opt_name := agentName; Engine.opt_systemPrompt := sys;
         Engine.opt_userMessage := userMessage;
         Engine.opt_toolNames := ContextManager.ctx_toolNames options;
         Engine.opt_maxIterations := Some (default 20 (ContextManager.ctx_maxIterations options));
         Engine.opt_priorMessages := None |} st).
  { unfold run, ContextManager.executeFreshContext. rewrite tryCatch_rethrow.
    unfold Engine.runAgent. simpl.
    destruct (ContextManager.ctx_includePriorMessages options) as [[|]|]; try reflexivity.
    congruence. }
  split; [exact Hrun|]. rewrite Hrun.
  match goal with
  | |- context [Engine.runAgent _ _ _ ?o st] =>
      destruct (runAgent_budget oracle registry config_agent_maxIterations o st)
        as (evs & Hlog & Hn & _);
      destruct (runAgent_conversation_paired oracle registry config_agent_maxIterations o st)
        as (evs' & Hlog' & Hconv & _)
  end.
  assert (evs' = evs) as -> by (rewrite Hlog in Hlog'; now apply app_inv_head in Hlog').
  exists evs. split; [exact Hlog|]. split; [exact Hn|].
  eapply oracleCallsSatisfy_impl; [|exact Hconv].
  intros o (turns & Hm & _). simpl in Hm. now exists turns.
Qed.

(** X18. The spawn helpers pass wildcard-looking entries as tool names.  Unless
    a tool is registered under such an entry literally, [spawnExecutor],
    [spawnVerifier] and [spawnResearcher] without a tool list make every oracle
    call without any tools, within 30, 10 and 20 oracle calls. *)
Theorem spawned_agents_are_offered_no_tools
    (task : string) (phaseNumber taskId : Z) (st : St W) :
  (forall n, In n ["code_*"; "bitbucket_*"; "jira_*"; "confluence_*"] ->
             Registry.has registry n = false) ->
  let noTools run bound :=
    exists evs,
      log (snd run) = log st ++ evs
      /\ Z.of_nat (length (oracleCalls evs)) <= bound
      /\ oracleCallsSatisfy (fun o => tools o = None) evs in
  noTools (ContextManager.spawnExecutor oracle registry config_agent_maxIterations
             executorPrompt task phaseNumber taskId st) 30
  /\ noTools (ContextManager.spawnVerifier oracle registry config_agent_maxIterations
                verifierPrompt task phaseNumber taskId st) 10
  /\ noTools (ContextManager.spawnResearcher oracle registry config_agent_maxIterations
                researcherPrompt task None st) 20.
Proof.
  intros Hnone noTools.
  assert (Hgen : forall agentName sys userMessage toolNames maxIterations,
            (forall n, In n toolNames -> Registry.has registry n = false) ->
            0 <= default 20 maxIterations ->
            noTools (ContextManager.executeFreshContext oracle registry
                       config_agent_maxIterations agentName sys userMessage
                       {| ContextManager.ctx_maxIterations := maxIterations;
                          ContextManager.ctx_toolNames := Some toolNames;
                          ContextManager.ctx_includePriorMessages := None;
                          ContextManager.ctx_priorMessages := None |} st)
                    (default 20 maxIterations)).
  { intros agentName sys userMessage toolNames maxIterations Hn Hb.
    assert (Hdefs : Registry.definitionsFor registry toolNames = []).
    { unfold Registry.definitionsFor. now rewrite (filter_none _ _ Hn). }
    unfold noTools, ContextManager.executeFreshContext.
    rewrite tryCatch_rethrow.
    match goal with
    | |- context [Engine.runAgent _ _ _ ?o st] =>
        destruct (runAgent_budget oracle registry config_agent_maxIterations o st)
          as (evs & Hlog & Hcount & Hcalls)
    end.
    exists evs. split; [exact Hlog|]. simpl in Hcount.
    split; [lia|].
    eapply oracleCallsSatisfy_impl; [|exact Hcalls].
    intros o [_ Ht]. simpl in Ht. rewrite Ht, Hdefs. reflexivity. }
  split; [|split].
  - unfold ContextManager.spawnExecutor.
    exact (Hgen _ executorPrompt task ["code_*"; "bitbucket_*"; "jira_*"; "confluence_*"]
             (Some 30) Hnone ltac:(simpl; lia)).
  - unfold ContextManager.spawnVerifier.
    refine (Hgen _ verifierPrompt _ ["code_*"] (Some 10) _ ltac:(simpl; lia)).
    intros n [<-|[]]. apply Hnone. now left.
  - unfold ContextManager.spawnResearcher.
    refine (Hgen "researcher" researcherPrompt task ["code_*"; "bitbucket_*"] None _
              ltac:(simpl; lia)).
    intros n [<-|[<-|[]]]; apply Hnone; simpl; tauto.
Qed.

End ContextMore.

Lemma fresh_context_drops_prior_messages_witness :
  let options :=
    {| ContextManager.ctx_maxIterations := Some 3;
       ContextManager.ctx_toolNames := None;
       ContextManager.ctx_includePriorMessages := Some false;
       ContextManager.ctx_priorMessages :=
         Some [{| role := user; content := TextContent "earlier" |};
               {| role := assistant; content := TextContent "noted" |}] |} in
  let run := ContextManager.executeFreshContext Probe.answers Stub.registry 25
               "executor" "You are a stub." "hello" options Stub.start in
  fst run
  = Ok {| result := "hi";
          result_messages :=
            [ {| role := user; content := TextContent "hello" |};
              {| role := assistant; content := BlockContent [Stub.textBlock "hi"] |} ];
          toolCalls := [] |}
  /\ exists evs,
       log (snd run) = log Stub.start ++ evs
       /\ Z.of_nat (length (oracleCalls evs)) <= 3
       /\ oracleCallsSatisfy
            (fun o => exists turns,
               messages o = {| role := user; content := TextContent "hello" |} :: turns)
            evs.
Proof.
  intros options run.
  destruct (fresh_context_drops_prior_messages Probe.answers Stub.registry 25
              "executor" "You are a stub." "hello" options Stub.start)
    as [Hrun Hcalls].
  - discriminate.
  - split; [reflexivity|exact Hcalls].
Defined.

Lemma spawned_agents_are_offered_no_tools_witness :
  exists evs,
    log (snd (ContextManager.spawnExecutor Probe.answers Stub.registry 25 "You execute."
                "add a test" 1 2 Stub.start))
    = log Stub.start ++ evs
    /\ Z.of_nat (length (oracleCalls evs)) <= 30
    /\ oracleCallsSatisfy (fun o => tools o = None) evs.
Proof.
  destruct (spawned_agents_are_offered_no_tools Probe.answers Stub.registry 25
              "You research." "You execute." "You verify." "add a test" 1 2 Stub.start)
    as (Hexec & _ & _).
  - intros n [<-|[<-|[<-|[<-|[]]]]]; reflexivity.
  - exact Hexec.
Defined.

(** ** Framing of the two stdio endpoints *)

Lemma split_not_nil sep s : JS.split sep s <> [].
Proof.
  intros E. pose proof (split_nonempty sep s) as H. rewrite E in H. simpl in H. lia.
Qed.

Lemma removelast_cons2 {A : Type} (a : A) (l : list A) :
  l <> [] -> removelast (a :: l) = a :: removelast l.
Proof. destruct l; [congruence|reflexivity]. Qed.

Lemma last_app_nonempty {A : Type} (l1 l2 : list A) (d : A) :
  l2 <> [] -> List.last (l1 ++ l2) d = List.last l2 d.
Proof.
  intros Hne. induction l1 as [|a l1 IH]; [reflexivity|].
  change ((a :: l1) ++ l2) with (a :: (l1 ++ l2)).
  rewrite last_cons, <- IH.
  destruct (l1 ++ l2) as [|b l] eqn:E; [|now rewrite !last_cons].
  apply app_eq_nil in E as [_ E]. congruence.
Qed.

Lemma append_assoc (s t u : string) : (s +:+ t) +:+ u = s +:+ (t +:+ u).
Proof.
  induction s as [|c s IH]; [reflexivity|].
  change (String c ((s +:+ t) +:+ u) = String c (s +:+ (t +:+ u))). now rewrite IH.
Qed.

(** Splitting a concatenation: the pieces the first part completes, then the
    pieces of its unfinished last piece followed by the second part. *)
Lemma split_app sep (s t : string) :
  JS.split sep (s +:+ t)
  = removelast (JS.split sep s) ++ JS.split sep (List.last (JS.split sep s) "" +:+ t).
Proof.
  induction s as [|c s IH]; [reflexivity|].
  simpl String.append. simpl JS.split.
  destruct (Ascii.eqb c sep) eqn:Ec.
  - rewrite (removelast_cons2 _ _ (split_not_nil sep s)), last_cons.
    rewrite IH. simpl.
    destruct (JS.split sep s) as [|p ps] eqn:Es; [now destruct (split_not_nil sep s)|].
    now rewrite (last_cons p "" ps), <- (last_cons p EmptyString ps).
  - rewrite IH.
    destruct (JS.split sep s) as [|p ps] eqn:Es; [now destruct (split_not_nil sep s)|].
    destruct ps as [|q qs].
    + simpl. rewrite Ec.
      now destruct (JS.split sep (p +:+ t)) eqn:Ep; [destruct (split_not_nil sep (p +:+ t))|].
    + rewrite (removelast_cons2 p (q :: qs)) by discriminate.
      rewrite (removelast_cons2 (String c p) (q :: qs)) by discriminate.
      rewrite !(last_cons _ _ (q :: qs)), !(last_cons q _ qs). reflexivity.
Qed.

Lemma split_frames sep (buffer a b : string) :
  let first := JS.split sep (buffer +:+ a) in
  let second := JS.split sep (List.last first "" +:+ b) in
  let whole := JS.split sep (buffer +:+ (a +:+ b)) in
  removelast whole = removelast first ++ removelast second
  /\ List.last whole "" = List.last second "".
Proof.
  intros first second whole. subst whole.
  rewrite <- append_assoc, split_app. fold first. fold second.
  assert (second <> []) as Hs by apply split_not_nil.
  split.
  - rewrite List.removelast_app by exact Hs. reflexivity.
  - now rewrite last_app_nonempty.
Qed.

(** ** More on the RPC server *)

Lemma handled_app (l1 l2 : list string) :
  MCPServer.handled (l1 ++ l2) = MCPServer.handled l1 ++ MCPServer.handled l2.
Proof. unfold MCPServer.handled. apply List.filter_app. Qed.

Section ServerMore.
Context {W : Type}.
Variable JSON_parse : string -> Res JS.Json.
Variable currentLevel : Z.
Variable util_format : list string -> string.
Variable tools : list (Registry.Tool W).

(** X19. The server frames its input by line feeds only.  However the input is
    cut into chunks, the same lines are passed to [handleMessage] in the same
    order and the same unfinished rest is kept for the next chunk: receiving
    [a] and then [b] frames as receiving [a] followed by [b] at once. *)
Theorem server_framing_ignores_chunk_boundaries (buffer a b : string) :
  let first := MCPServer.frame buffer a in
  let second := MCPServer.frame (snd first) b in
  MCPServer.frame buffer (a +:+ b) = (fst first ++ fst second, snd second)
  /\ MCPServer.handled (fst (MCPServer.frame buffer (a +:+ b)))
     = MCPServer.handled (fst first) ++ MCPServer.handled (fst second).
Proof.
  intros first second.
  assert (H : MCPServer.frame buffer (a +:+ b) = (fst first ++ fst second, snd second)).
  { unfold first, second, MCPServer.frame. cbv zeta. cbn [fst snd].
    destruct (split_frames (ascii_of_nat 10) buffer a b) as [Hl Hr]. cbv zeta in Hl, Hr.
    now rewrite Hl, Hr. }
  split; [exact H|]. rewrite H. apply handled_app.
Qed.

(** X20. A line that is not JSON does not stop the server.  [handleMessage]
    answers it with one error -32700 that carries no id and the parser's message
    as data, writes nothing else, and returns, so the listener goes on to the
    next line.  A blank line is not passed to [handleMessage] at all. *)
Theorem unparsable_line_is_answered_and_skipped
    (line reason : string) (rest : list string) (st : St W) :
  JSON_parse line = Throw (ErrorObj reason) ->
  MCPServer.handleMessage JSON_parse currentLevel util_format tools line st
  = (Ok tt,
     {| world := world st;
        log := log st
               ++ [EvStdout (wire None (wireError (-32700) "Parse error"
                                          (Some (JS.JStr reason))))] |})
  /\ MCPServer.handled (line :: rest)
     = (if String.eqb (JS.trim line) "" then [] else [line]) ++ MCPServer.handled rest.
Proof.
  intros Hparse. split.
  - unfold MCPServer.handleMessage. rewrite Hparse. reflexivity.
  - unfold MCPServer.handled. cbn [List.filter].
    now destruct (String.eqb (JS.trim line) "").
Qed.

(** X21. A [tools/call] runs at most one handler, and ends in exactly one of
    four ways.  The handler of the first tool with the requested name returned:
    the response carries its value as text.  That handler threw: the response is
    error -32603 with the error's text as data.  No handler ran and nothing
    changed: the response is error -32602, with the text [Invalid params] or
    [Tool not found:] and the requested name.  Or the requested name matches no
    tool and cannot be converted to a string: the call throws, with nothing
    changed.  When a handler runs, one diagnostic line is printed before it if
    the log level lets it through. *)
Theorem tools_call_outcomes (id params : option JS.Json) (st : St W) :
  let args := from_option (JS.prop "arguments") None params in
  let logs := match calledTool tools params with
              | Some tool =>
                  printed currentLevel
                    (toolLine util_format (Registry.tool_name tool) "Executing...")
              | None => []
              end in
  (exists tool r w',
     calledTool tools params = Some tool
     /\ Registry.tool_execute tool args (world st) = (Ok r, w')
     /\ MCPServer.handleCallTool currentLevel util_format tools id params st
        = (Ok (MCPServer.resultResponse id (MCPServer.textContent (MCPServer.resultText r))),
           {| world := w';
              log := log st ++ List.map EvStdout logs
                     ++ [EvTool (Registry.tool_name tool) args (Ok r)] |}))
  \/ (exists tool err w',
        calledTool tools params = Some tool
        /\ Registry.tool_execute tool args (world st) = (Throw err, w')
        /\ MCPServer.handleCallTool currentLevel util_format tools id params st
           = (Ok (MCPServer.errorResponse id (-32603) "Tool execution failed"
                    (Some (JS.JStr (errorText err)))),
              {| world := w';
                 log := log st ++ List.map EvStdout logs
                        ++ [EvTool (Registry.tool_name tool) args (Throw err)] |}))
  \/ (calledTool tools params = None
      /\ exists text,
           MCPServer.handleCallTool currentLevel util_format tools id params st
           = (Ok (MCPServer.errorResponse id (-32602) text None), st)
           /\ (text = "Invalid params"
               \/ exists p shown, params = Some p
                                  /\ JS.String_ (JS.prop "name" p) = Some shown
                                  /\ text = "Tool not found: " +:+ shown))
  \/ (calledTool tools params = None
      /\ (exists p, params = Some p /\ JS.String_ (JS.prop "name" p) = None)
      /\ MCPServer.handleCallTool currentLevel util_format tools id params st
         = (Throw cannotConvert, st)).
Proof. exact (handleCallTool_outcomes currentLevel util_format tools id params st). Qed.

End ServerMore.

Lemma unparsable_line_is_answered_and_skipped_witness :
  stdout (log (snd (MCPServer.handleMessage Stub.parse Stub.level Stub.format
                      [Stub.echoTool "devweaver_read_state"] "not valid json" Stub.start)))
  = [ "{" +:+ JS.dquote +:+ "jsonrpc" +:+ JS.dquote +:+ ":" +:+ JS.dquote +:+ "2.0" +:+ JS.dquote
      +:+ "," +:+ JS.dquote +:+ "error" +:+ JS.dquote +:+ ":{"
      +:+ JS.dquote +:+ "code" +:+ JS.dquote +:+ ":-32700,"
      +:+ JS.dquote +:+ "message" +:+ JS.dquote +:+ ":" +:+ JS.dquote +:+ "Parse error"
      +:+ JS.dquote +:+ ","
      +:+ JS.dquote +:+ "data" +:+ JS.dquote +:+ ":" +:+ JS.dquote +:+ "Unexpected token"
      +:+ JS.dquote +:+ "}}" +:+ JS.newline ]
  /\ MCPServer.handled ["not valid json"; "   "; "{}"] = ["not valid json"; "{}"].
Proof.
  destruct (unparsable_line_is_answered_and_skipped Stub.parse Stub.level Stub.format
              [Stub.echoTool "devweaver_read_state"] "not valid json" "Unexpected token"
              ["   "; "{}"] Stub.start)
    as [Hrun Hrest].
  - reflexivity.
  - split; [now rewrite Hrun|exact Hrest].
Defined.

(** ** More on the stdio client *)

Section ClientMore.
Import StdioMCPClient ClientSpec.
Variable JSON_parse : string -> Res JS.Json.

Lemma onMessage_with_buffer msg x c :
  onMessage msg (with_buffer x c) = with_buffer x (onMessage msg c).
Proof.
  unfold onMessage. destruct (JS.prop "id" msg) as [[| |id| | |]|]; try reflexivity.
  cbn [pending with_buffer].
  destruct (pending c !! id) as [p|]; [|reflexivity]. cbv zeta.
  destruct (JS.truthy (JS.prop "error" msg)); [destruct (JS.String_ _)|];
    unfold settle; simpl; try reflexivity; now destruct (settled c !! p).
Qed.

Lemma onLine_with_buffer line x c :
  onLine JSON_parse line (with_buffer x c) = with_buffer x (onLine JSON_parse line c).
Proof.
  unfold onLine. cbv zeta. destruct (String.eqb (JS.trim line) ""); [reflexivity|].
  destruct (JSON_parse (JS.trim line)) as [msg|err]; [apply onMessage_with_buffer|reflexivity].
Qed.

Lemma lines_with_buffer lines x c :
  List.fold_left (fun acc line => onLine JSON_parse line acc) lines (with_buffer x c)
  = with_buffer x (List.fold_left (fun acc line => onLine JSON_parse line acc) lines c).
Proof.
  revert c. induction lines as [|line lines IH]; intros c; [reflexivity|].
  simpl. now rewrite onLine_with_buffer, IH.
Qed.

(** X22. The client frames the server's output by line feeds only: receiving
    [a] and then [b] leaves it in the state that receiving [a] followed by [b]
    at once does, whatever the chunks contain. *)
Theorem client_framing_ignores_chunk_boundaries (a b : string) (c : Client) :
  _onData JSON_parse (a +:+ b) c = _onData JSON_parse b (_onData JSON_parse a c).
Proof.
  unfold _onData. cbv zeta.
  destruct (split_frames (ascii_of_nat 10) (buffer c) a b) as [Hl Hr]. cbv zeta in Hl, Hr.
  rewrite Hl, Hr, List.fold_left_app, !lines_with_buffer. reflexivity.
Qed.

(** X23. A response retires the request it answers.  When a line parses to a
    message whose id is pending, the id stops being pending and nothing else of
    the client changes but the promise of that request, which had not ended.
    Without a truthy [error] the promise is resolved with the message's
    [result].  With one it is rejected with an error whose text is the error's
    [message] converted to a string, or the error as JSON when that string is
    empty; when the [message] cannot be converted to a string, the promise is
    left as it is, neither resolved nor rejected. *)
Theorem response_settles_its_request
    (actions : list Action) (line : string) (msg : JS.Json) (id : Z) :
  let c := run JSON_parse actions initial in
  let c' := onLine JSON_parse line c in
  JS.trim line <> "" ->
  JSON_parse (JS.trim line) = Ok msg ->
  JS.prop "id" msg = Some (JS.JNum id) ->
  is_Some (pending c !! id) ->
  settled c !! promiseOf id = None
  /\ settled c'
     = (if JS.truthy (JS.prop "error" msg)
        then match JS.String_ (from_option (JS.prop "message") None (JS.prop "error" msg)) with
             | Some text =>
                 <[promiseOf id :=
                     Rejected (ErrorObj
                                 (if String.eqb text ""
                                  then from_option JS.stringify "" (JS.prop "error" msg)
                                  else text))]> (settled c)
             | None => settled c
             end
        else <[promiseOf id := Resolved (JS.prop "result" msg)]> (settled c))
  /\ pending c' = delete id (pending c)
  /\ requestId c' = requestId c /\ timers c' = timers c /\ stdin c' = stdin c
  /\ process c' = process c /\ buffer c' = buffer c.
Proof.
  intros c c' Hline Hparse Hid [p Hp].
  assert (HI : Inv c) by (apply ClientFacts.run_Inv, ClientFacts.Inv_initial).
  destruct (inv_pending c HI id p Hp) as (_ & -> & Hnone).
  split; [exact Hnone|].
  assert (Hrun : c' = match outcomeOf msg with
                      | Some o => retire id o c
                      | None => drop id c
                      end).
  { unfold c', onLine. cbv zeta.
    destruct (String.eqb_spec (JS.trim line) "") as [E|_]; [contradiction|].
    rewrite Hparse. apply ClientFacts.onMessage_pending; [exact HI|exact Hid|].
    now exists (promiseOf id). }
  rewrite Hrun. unfold outcomeOf.
  destruct (JS.truthy (JS.prop "error" msg));
    [destruct (JS.String_ _) as [text|]; cbn [option_map]|].
  - destruct (ClientFacts.retire_fields id
                (Rejected (ErrorObj (if String.eqb text ""
                                     then from_option JS.stringify "" (JS.prop "error" msg)
                                     else text))) c HI Hp)
      as (Hr & _ & Ht & Hpr & Hb & _ & Hs & Hpe & Hse).
    now repeat split.
  - now repeat split.
  - destruct (ClientFacts.retire_fields id (Resolved (JS.prop "result" msg)) c HI Hp)
      as (Hr & _ & Ht & Hpr & Hb & _ & Hs & Hpe & Hse).
    now repeat split.
Qed.

(** X24. A request is settled at most once.  Once an id that was used is no
    longer pending, whether it was answered or timed out, it never becomes
    pending again, and every later message carrying that id is ignored. *)
Theorem retired_request_ignores_responses
    (actions more : list Action) (msg : JS.Json) (id : Z) :
  let c := run JSON_parse actions initial in
  let c' := run JSON_parse more c in
  id <= requestId c ->
  pending c !! id = None ->
  JS.prop "id" msg = Some (JS.JNum id) ->
  pending c' !! id = None /\ onMessage msg c' = c'.
Proof.
  intros c c' Hused Hgone Hid.
  assert (HI : Inv c) by (apply ClientFacts.run_Inv, ClientFacts.Inv_initial).
  destruct (ClientFacts.run_extends JSON_parse more c HI) as (_ & _ & Hstay).
  pose proof (Hstay id Hused Hgone) as Hnone. fold c' in Hnone.
  split; [exact Hnone|]. unfold onMessage. now rewrite Hid, Hnone.
Qed.

(** X25. Every request gets an id and a promise of its own.  The id is one more
    than the last one used and was never pending, and the promise is new and
    has not ended.  The request is written to the child as one JSON line when
    the client is connected; when it is not, nothing is written, yet the
    request is pending and its timeout is scheduled all the same. *)
Theorem sendRequest_uses_a_fresh_id
    (actions : list Action) (method : string) (params : JS.Json) :
  let c := run JSON_parse actions initial in
  let c' := fst (_sendRequest method params c) in
  let p := snd (_sendRequest method params c) in
  let id := requestId c + 1 in
  requestId c' = id /\ p = promiseOf id
  /\ pending c !! id = None /\ settled c !! p = None
  /\ pending c' = <[id := p]> (pending c)
  /\ settled c' = settled c
  /\ timers c' = timers c ++ [timeoutOf id method (now c)]
  /\ stdin c'
     = stdin c ++ match process c with
                  | Some _ => [JS.stringify (requestJson id method params) +:+ JS.newline]
                  | None => []
                  end.
Proof.
  intros c c' p id.
  assert (HI : Inv c) by (apply ClientFacts.run_Inv, ClientFacts.Inv_initial).
  destruct (ClientFacts.sendRequest_fields method params c)
    as (Hsnd & Hrid & _ & Hpend & Hset & Htim & _).
  fold c' in Hrid, Hpend, Hset, Htim. fold p in Hsnd.
  assert (Hp : p = promiseOf id).
  { rewrite Hsnd, (inv_promises c HI). unfold promiseOf, id. f_equal. lia. }
  split; [exact Hrid|]. split; [exact Hp|].
  split.
  { destruct (pending c !! id) as [q|] eqn:Hq; [|reflexivity].
    destruct (inv_pending c HI id q Hq) as (Hid & _). unfold id in Hid. lia. }
  split.
  { destruct (settled c !! p) as [o|] eqn:Ho; [|reflexivity].
    pose proof (inv_settled c HI p o Ho) as Hlt. rewrite Hsnd in Hlt. lia. }
  split; [now rewrite Hpend, Hsnd|]. split; [exact Hset|].
  split; [rewrite Htim; unfold timeoutOf; fold id; now rewrite <- Hp, Hsnd|].
  unfold c', _sendRequest, write. cbv zeta. cbn [process fst].
  destruct (process c); cbn [stdin]; [reflexivity|now rewrite app_nil_r].
Qed.

(** X26. A promise that has ended keeps its outcome: no later action, be it a
    response, a timeout, a new request or a disconnect, changes it. *)
Theorem settled_promise_keeps_its_outcome
    (actions more : list Action) (p : nat) (o : Outcome) :
  let c := run JSON_parse actions initial in
  settled c !! p = Some o ->
  settled (run JSON_parse more c) !! p = Some o.
Proof.
  intros c Hs.
  assert (HI : Inv c) by (apply ClientFacts.run_Inv, ClientFacts.Inv_initial).
  destruct (ClientFacts.run_extends JSON_parse more c HI) as (_ & Hkeep & _).
  now apply Hkeep.
Qed.

End ClientMore.

Lemma response_settles_its_request_witness :
  let c := StdioMCPClient.run Stub.parse
             [StdioMCPClient.Spawn 42; StdioMCPClient.Send "tools/list" (JS.JObj [])]
             StdioMCPClient.initial in
  let c' := StdioMCPClient.onLine Stub.parse (JS.stringify Stub.responseToFirst) c in
  StdioMCPClient.settled c !! 0%nat = None
  /\ StdioMCPClient.settled c' !! 0%nat
     = Some (StdioMCPClient.Resolved (Some (JS.JObj [("tools", JS.JArr [])])))
  /\ StdioMCPClient.pending c' !! 1 = None.
Proof.
  intros c c'.
  destruct (response_settles_its_request Stub.parse
              [StdioMCPClient.Spawn 42; StdioMCPClient.Send "tools/list" (JS.JObj [])]
              (JS.stringify Stub.responseToFirst) Stub.responseToFirst 1)
    as (Hnone & Hs & Hp & _).
  - vm_compute. discriminate.
  - vm_compute. reflexivity.
  - reflexivity.
  - exists 0%nat. vm_compute. reflexivity.
  - split; [exact Hnone|]. split.
    + apply (eq_trans (f_equal (fun m : gmap nat StdioMCPClient.Outcome => m !! 0%nat) Hs)).
      apply (lookup_insert_eq (M := gmap nat)).
    + apply (eq_trans (f_equal (fun m : gmap Z nat => m !! 1) Hp)).
      apply (lookup_delete_eq (M := gmap Z)).
Defined.

Lemma retired_request_ignores_responses_witness :
  let c := StdioMCPClient.run Stub.parse
             [StdioMCPClient.Spawn 42; StdioMCPClient.Send "tools/list" (JS.JObj []);
              StdioMCPClient.Data (JS.stringify Stub.responseToFirst +:+ JS.newline)]
             StdioMCPClient.initial in
  let c' := StdioMCPClient.run Stub.parse
              [StdioMCPClient.Elapse 5; StdioMCPClient.Disconnect] c in
  StdioMCPClient.pending c' !! 1 = None
  /\ StdioMCPClient.onMessage Stub.responseToFirst c' = c'.
Proof.
  intros c c'.
  apply (retired_request_ignores_responses Stub.parse
           [StdioMCPClient.Spawn 42; StdioMCPClient.Send "tools/list" (JS.JObj []);
            StdioMCPClient.Data (JS.stringify Stub.responseToFirst +:+ JS.newline)]
           [StdioMCPClient.Elapse 5; StdioMCPClient.Disconnect] Stub.responseToFirst 1).
  - vm_compute. intros H. discriminate H.
  - vm_compute. reflexivity.
  - reflexivity.
Defined.

Lemma settled_promise_keeps_its_outcome_witness :
  let c := StdioMCPClient.run Stub.parse
             [StdioMCPClient.Spawn 42; StdioMCPClient.Send "tools/list" (JS.JObj []);
              StdioMCPClient.Data (JS.stringify Stub.responseToFirst +:+ JS.newline)]
             StdioMCPClient.initial in
  StdioMCPClient.settled
    (StdioMCPClient.run Stub.parse
       [StdioMCPClient.Elapse 30000;
        StdioMCPClient.Fire (timeoutOf 1 "tools/list" 0);
        StdioMCPClient.Disconnect] c) !! 0%nat
  = Some (StdioMCPClient.Resolved (Some (JS.JObj [("tools", JS.JArr [])]))).
Proof.
  intros c.
  apply (settled_promise_keeps_its_outcome Stub.parse
           [StdioMCPClient.Spawn 42; StdioMCPClient.Send "tools/list" (JS.JObj []);
            StdioMCPClient.Data (JS.stringify Stub.responseToFirst +:+ JS.newline)]
           [StdioMCPClient.Elapse 30000;
            StdioMCPClient.Fire (timeoutOf 1 "tools/list" 0);
            StdioMCPClient.Disconnect] 0%nat).
  vm_compute. reflexivity.
Defined.

(** ** The manager of remote servers *)

Lemma append_inj (s a b : string) : s +:+ a = s +:+ b -> a = b.
Proof.
  induction s as [|c s IH]; intros H; [exact H|].
  apply IH. now injection H.
Qed.

Section ManagerMore.
Context {W : Type}.
Variable newSSE newStdio : MCPManager.MCPServerConfig -> MCPManager.Client W.
Variable toLowerCase : string -> string.

Lemma mcpToolName_inj cfg (t t' : MCPManager.ListedTool) :
  MCPManager.mcpToolName cfg t = MCPManager.mcpToolName cfg t' ->
  MCPManager.lt_name t = MCPManager.lt_name t'.
Proof.
  unfold MCPManager.mcpToolName. intros H.
  now apply append_inj, append_inj, append_inj in H.
Qed.

Lemma mcpToolName_prefix cfg (t : MCPManager.ListedTool) :
  String.prefix "mcp_" (MCPManager.mcpToolName cfg t) = true.
Proof.
  unfold MCPManager.mcpToolName.
  generalize (MCPManager.cfg_name cfg +:+ "_" +:+ MCPManager.lt_name t). intros rest.
  simpl. now destruct rest.
Qed.

(** After the registration loop a listed tool's name leads to a handler that
    calls the client with the tool's own remote name. *)
Lemma registerTools_get cfg (client : MCPManager.Client W) tools : forall reg tool,
  In tool tools ->
  exists d,
    Registry.get (MCPManager.registerTools cfg client tools reg) (MCPManager.mcpToolName cfg tool)
    = Some {| Registry.definition := d; Registry.handler := MCPManager.mcpHandler client tool |}.
Proof.
  unfold MCPManager.registerTools.
  induction tools as [|x l IH] using rev_ind; intros reg tool Hin; [destruct Hin|].
  rewrite List.fold_left_app. simpl. unfold Registry.register at 1. simpl.
  destruct (String.eqb_spec (MCPManager.mcpToolName cfg x) (MCPManager.mcpToolName cfg tool))
    as [E|Hne].
  - rewrite E, get_map_set_eq. eexists. f_equal. f_equal.
    unfold MCPManager.mcpHandler. now rewrite (mcpToolName_inj cfg x tool E).
  - rewrite get_map_set_ne by exact Hne.
    apply List.in_app_or in Hin as [Hin|[->|[]]]; [now apply IH|congruence].
Qed.

(** The loop leaves every name outside the [mcp_] namespace as it was. *)
Lemma registerTools_other cfg (client : MCPManager.Client W) tools : forall reg n,
  String.prefix "mcp_" n = false ->
  Registry.get (MCPManager.registerTools cfg client tools reg) n = Registry.get reg n.
Proof.
  unfold MCPManager.registerTools.
  induction tools as [|x l IH]; intros reg n Hn; [reflexivity|].
  simpl. rewrite IH by exact Hn. unfold Registry.register. simpl.
  apply get_map_set_ne. intros E. rewrite <- E in Hn.
  now rewrite mcpToolName_prefix in Hn.
Qed.

Lemma connectServer_other cfg s n :
  String.prefix "mcp_" n = false ->
  Registry.get (MCPManager.registry (snd (MCPManager.connectServer newSSE newStdio cfg s))) n
  = Registry.get (MCPManager.registry s) n.
Proof.
  intros Hn. unfold MCPManager.connectServer. cbv zeta.
  destruct (MCPManager.connect _ _) as [[u|err] w1]; [|reflexivity].
  destruct (MCPManager.listTools _ _) as [[tools|err] w2]; [|reflexivity].
  simpl. now apply registerTools_other.
Qed.

(** X27. A server that connects and lists its tools gets each of them
    registered under [mcp_<server>_<tool>]: [connectServer] reports how many
    were listed, the client is recorded under the server's name, and executing
    a registered name calls that client's [callTool] with the tool's own remote
    name and the input unchanged. *)
Theorem connectServer_registers_listed_tools
    (cfg : MCPManager.MCPServerConfig) (s : MCPManager.State W)
    (u : unit) (w1 w2 : W) (tools : list MCPManager.ListedTool) :
  let client := MCPManager.clientFor newSSE newStdio cfg in
  let run := MCPManager.connectServer newSSE newStdio cfg s in
  MCPManager.connect client (MCPManager.outside s) = (Ok u, w1) ->
  MCPManager.listTools client w1 = (Ok tools, w2) ->
  fst run = Z.of_nat (length tools)
  /\ MCPManager.outside (snd run) = w2
  /\ JS.assoc (MCPManager.cfg_name cfg) (MCPManager.clients (snd run)) = Some client
  /\ forall tool input st,
       In tool tools ->
       Registry.execute (MCPManager.registry (snd run)) (MCPManager.mcpToolName cfg tool)
         (Some input) st
       = invoke ("mcp_" +:+ MCPManager.cfg_name cfg +:+ "_" +:+ MCPManager.lt_name tool)
           (MCPManager.callTool client (MCPManager.lt_name tool)) (Some input) st.
Proof.
  intros client run Hconnect Hlist.
  unfold run, MCPManager.connectServer. cbv zeta. fold client. rewrite Hconnect, Hlist.
  cbn [fst snd MCPManager.outside MCPManager.clients MCPManager.registry].
  split; [reflexivity|]. split; [reflexivity|]. split.
  - generalize (MCPManager.clients s). intros m.
    induction m as [|[k c] rest IH]; simpl; [now rewrite String.eqb_refl|].
    destruct (String.eqb_spec k (MCPManager.cfg_name cfg)) as [->|Hne]; simpl.
    + now rewrite String.eqb_refl.
    + destruct (String.eqb_spec k (MCPManager.cfg_name cfg)); [contradiction|exact IH].
  - intros tool input st Hin.
    destruct (registerTools_get cfg client tools (MCPManager.registry s) tool Hin) as [d Hget].
    unfold Registry.execute. rewrite Hget. reflexivity.
Qed.

(** X28. Connecting servers never touches a tool outside the [mcp_] namespace:
    whatever the servers list and whichever of them fail, a name that does not
    start with [mcp_] is registered afterwards exactly when it was before, with
    the same definition and handler. *)
Theorem connectAll_keeps_other_tools
    (configs : list MCPManager.MCPServerConfig) (s : MCPManager.State W) (n : string) :
  String.prefix "mcp_" n = false ->
  Registry.get (MCPManager.registry (snd (MCPManager.connectAll newSSE newStdio configs s))) n
  = Registry.get (MCPManager.registry s) n.
Proof.
  intros Hn. unfold MCPManager.connectAll. generalize 0.
  revert s. induction configs as [|cfg rest IH]; intros s total; [reflexivity|].
  simpl. pose proof (connectServer_other cfg s n Hn) as Hone.
  destruct (MCPManager.connectServer newSSE newStdio cfg s) as [k s']. simpl in Hone.
  now rewrite IH.
Qed.

(** X29. One server failing does not stop the others.  A server whose
    connection fails counts for no tools, is not recorded as a client and
    leaves the registry alone, and [connectAll] goes on with the servers after
    it. *)
Theorem failed_server_is_skipped
    (cfg : MCPManager.MCPServerConfig) (rest : list MCPManager.MCPServerConfig)
    (s : MCPManager.State W) (err : Thrown) :
  let client := MCPManager.clientFor newSSE newStdio cfg in
  fst (MCPManager.connect client (MCPManager.outside s)) = Throw err ->
  MCPManager.connectAll newSSE newStdio (cfg :: rest) s
  = MCPManager.connectAll newSSE newStdio rest
      {| MCPManager.clients := MCPManager.clients s;
         MCPManager.registry := MCPManager.registry s;
         MCPManager.outside := snd (MCPManager.connect client (MCPManager.outside s)) |}.
Proof.
  intros client Hfail. unfold MCPManager.connectAll. simpl.
  unfold MCPManager.connectServer. cbv zeta. fold client.
  destruct (MCPManager.connect client (MCPManager.outside s)) as [[u|e] w1];
    [discriminate|reflexivity].
Qed.

(** X30. The agent functions find the remote tools and nothing else.  With no
    keywords [getMCPToolNames] returns every tool a successful [connectServer]
    registered; whatever the keywords, it returns only registered names that
    start with [mcp_]; and keywords that all have an upper-case letter select
    nothing, since only the names are lower-cased.  The last holds with the
    lower-casing of the letters A to Z, and with any [toLowerCase] that returns
    no string with such a letter; the rest holds whatever [toLowerCase] does. *)
Theorem getMCPToolNames_finds_remote_tools
    (cfg : MCPManager.MCPServerConfig) (s : MCPManager.State W)
    (u : unit) (w1 w2 : W) (tools : list MCPManager.ListedTool) :
  let client := MCPManager.clientFor newSSE newStdio cfg in
  let after := MCPManager.registry (snd (MCPManager.connectServer newSSE newStdio cfg s)) in
  MCPManager.connect client (MCPManager.outside s) = (Ok u, w1) ->
  MCPManager.listTools client w1 = (Ok tools, w2) ->
  (forall tool, In tool tools ->
     In (MCPManager.mcpToolName cfg tool) (getMCPToolNames toLowerCase after []))
  /\ (forall keywords n,
        In n (getMCPToolNames toLowerCase after keywords) ->
        In n (Registry.names after) /\ String.prefix "mcp_" n = true)
  /\ (forall keywords,
        Forall (fun k => hasUpper k = true) keywords -> keywords <> [] ->
        getMCPToolNames JS.toLowerCaseASCII after keywords = [])
  /\ (neverUpper toLowerCase ->
      forall keywords,
        Forall (fun k => hasUpper k = true) keywords -> keywords <> [] ->
        getMCPToolNames toLowerCase after keywords = []).
Proof.
  intros client after Hconnect Hlist.
  assert (Hnone : forall lower, neverUpper lower ->
            forall keywords,
              Forall (fun k => hasUpper k = true) keywords -> keywords <> [] ->
              getMCPToolNames lower after keywords = []).
  { intros lower Hnever keywords Hup Hne. unfold getMCPToolNames.
    apply filter_none. intros n _.
    destruct (String.prefix "mcp_" n); [|reflexivity]. cbn [negb].
    assert (existsb (fun k => JS.includes (lower n) k) keywords = false) as ->.
    { clear Hne. induction Hup as [|k ks Hk _ IH]; [reflexivity|].
      simpl. now rewrite (upper_trigger_never_included _ k (Hnever n) Hk). }
    destruct keywords; [congruence|reflexivity]. }
  split; [|split; [|split; [exact (Hnone _ toLowerCaseASCII_neverUpper)|exact (Hnone _)]]].
  - intros tool Hin. unfold getMCPToolNames. apply List.filter_In. split.
    + apply has_In_names. unfold Registry.has, after, MCPManager.connectServer. cbv zeta.
      fold client. rewrite Hconnect, Hlist. simpl.
      destruct (registerTools_get cfg client tools (MCPManager.registry s) tool Hin) as [d Hget].
      now rewrite Hget.
    + now rewrite mcpToolName_prefix.
  - intros keywords n Hin. unfold getMCPToolNames in Hin. apply List.filter_In in Hin as [Hn Hf].
    split; [exact Hn|]. now destruct (String.prefix "mcp_" n).
Qed.

End ManagerMore.

Lemma connectServer_registers_listed_tools_witness :
  let run := MCPManager.connectServer Remote.echoing Remote.unreachable
               (Remote.config "jira" "sse") Remote.fresh in
  fst run = 2
  /\ fst (Registry.execute (MCPManager.registry (snd run)) "mcp_jira_search"
            (Some (JS.JObj [])) Stub.start)
     = Ok (JS.JObj [("tool", JS.JStr "search"); ("input", JS.JObj [])]).
Proof.
  intros run.
  destruct (connectServer_registers_listed_tools Remote.echoing Remote.unreachable
              (Remote.config "jira" "sse") Remote.fresh tt O O [Remote.search; Remote.create])
    as (Hn & _ & _ & Hexec).
  - reflexivity.
  - reflexivity.
  - split; [exact Hn|].
    exact (f_equal fst (Hexec Remote.search (JS.JObj []) Stub.start (or_introl eq_refl))).
Defined.

Lemma connectAll_keeps_other_tools_witness :
  Registry.get
    (MCPManager.registry
       (snd (MCPManager.connectAll Remote.echoing Remote.unreachable
               [Remote.config "jira" "sse"; Remote.config "down" "stdio"] Remote.fresh)))
    "test_tool"
  = Registry.get Stub.registry "test_tool".
Proof.
  apply (connectAll_keeps_other_tools Remote.echoing Remote.unreachable
           [Remote.config "jira" "sse"; Remote.config "down" "stdio"] Remote.fresh "test_tool").
  reflexivity.
Defined.

Lemma failed_server_is_skipped_witness :
  MCPManager.connectAll Remote.echoing Remote.unreachable
    [Remote.config "down" "stdio"; Remote.config "jira" "sse"] Remote.fresh
  = MCPManager.connectAll Remote.echoing Remote.unreachable [Remote.config "jira" "sse"]
      {| MCPManager.clients := []; MCPManager.registry := Stub.registry;
         MCPManager.outside := 1%nat |}.
Proof.
  apply (failed_server_is_skipped Remote.echoing Remote.unreachable
           (Remote.config "down" "stdio") [Remote.config "jira" "sse"] Remote.fresh
           (ErrorObj "MCP SSE init error: 503")).
  reflexivity.
Defined.

Lemma getMCPToolNames_finds_remote_tools_witness :
  In "mcp_jira_search"
    (getMCPToolNames JS.toLowerCaseASCII
       (MCPManager.registry
          (snd (MCPManager.connectServer Remote.echoing Remote.unreachable
                  (Remote.config "jira" "sse") Remote.fresh)))
       []).
Proof.
  destruct (getMCPToolNames_finds_remote_tools Remote.echoing Remote.unreachable
              JS.toLowerCaseASCII (Remote.config "jira" "sse") Remote.fresh tt O O [Remote.search; Remote.create])
    as (Hfound & _).
  - reflexivity.
  - reflexivity.
  - exact (Hfound Remote.search (or_introl eq_refl)).
Defined.
